(** * object0: folder-sync contracts, renderer store and rule editor

    A shallow embedding of the folder-sync part of the object0 renderer:

    - [src/shared/folder-sync.types.ts]: the contracts exchanged between
      the Bun process and the UI;
    - [useFolderSyncStore] (zustand store): rules, runtime statuses,
      conflict records and last errors, together with its event
      subscriptions and actions;
    - [FolderSyncRuleEditor]: the form state and its save handler;
    - [FolderSyncPanel]: the "Sync now" button and its handler.

    The engine behind these contracts (Differ, Rule Scheduler) runs in the
    Bun process and is not part of the sources embedded here; modules
    [Differ] and [Scheduler] model it from the written specification, and
    say so at each definition.

    JavaScript [number]s are only copied and compared by this code, never
    computed with; they are embedded as [Z].  A JavaScript string is
    embedded as the bytes of its UTF-8 encoding.  A JavaScript
    [Map<string, V>] is embedded as [gmap string V]: the code never
    depends on the insertion order of the map. *)

From Stdlib Require Import ZArith Ascii String.
From stdpp Require Import gmap strings list.

Open Scope Z_scope.
Open Scope string_scope.

(** ** Contracts: [folder-sync.types.ts] *)

Inductive SyncDirection := Bidirectional | LocalToRemote | RemoteToLocal.

Inductive ConflictResolution := NewerWins | LocalWins | RemoteWins | KeepBoth.

Inductive FolderSyncRuleStatus := Idle | Syncing | Watching | Error | Paused.

Inductive LastSyncStatus := SyncSuccess | SyncError | SyncPartial.

Inductive FolderSyncAction :=
  Upload | Download | DeleteLocal | DeleteRemote | Conflict.

#[global] Instance SyncDirection_eq_dec : EqDecision SyncDirection.
Proof. solve_decision. Defined.
#[global] Instance ConflictResolution_eq_dec : EqDecision ConflictResolution.
Proof. solve_decision. Defined.
#[global] Instance FolderSyncRuleStatus_eq_dec : EqDecision FolderSyncRuleStatus.
Proof. solve_decision. Defined.
#[global] Instance FolderSyncAction_eq_dec : EqDecision FolderSyncAction.
Proof. solve_decision. Defined.

(** Persisted sync rule. *)
Record FolderSyncRule := {
  id : string;
  profileId : string;
  bucket : string;
  bucketPrefix : string;
  localPath : string;
  direction : SyncDirection;
  enabled : bool;
  conflictResolution : ConflictResolution;
  pollIntervalMs : Z;
  excludePatterns : list string;
  lastSyncAt : option string;
  lastSyncStatus : option LastSyncStatus;
  lastSyncError : option string;
  createdAt : string
}.

Record Progress := {
  completed : Z;
  total : Z;
  bytesTransferred : Z;
  bytesTotal : Z
}.

(** Per-rule runtime state (not persisted). *)
Record FolderSyncState := {
  st_ruleId : string;
  st_status : FolderSyncRuleStatus;
  st_filesWatching : Z;
  st_lastChange : option string;
  st_currentFile : option string;
  st_progress : option Progress
}.

(** Per-file tracking record (persisted per rule). *)
Record FolderSyncFileRecord := {
  rec_relativePath : string;
  rec_localMtime : Z;
  rec_localSize : Z;
  rec_remoteEtag : string;
  rec_remoteLastModified : string;
  rec_remoteSize : Z;
  rec_syncedAt : string
}.

Record FolderSyncDiffEntry := {
  de_relativePath : string;
  de_action : FolderSyncAction;
  de_reason : string;
  de_localSize : option Z;
  de_localMtime : option Z;
  de_remoteSize : option Z;
  de_remoteLastModified : option string;
  de_remoteEtag : option string
}.

Record FolderSyncDiff := {
  uploads : list FolderSyncDiffEntry;
  downloads : list FolderSyncDiffEntry;
  deleteLocal : list FolderSyncDiffEntry;
  deleteRemote : list FolderSyncDiffEntry;
  diff_conflicts : list FolderSyncDiffEntry;
  unchanged : nat
}.

(** RPC request for add-rule / update-rule. *)
Record FolderSyncRuleInput := {
  in_profileId : string;
  in_bucket : string;
  in_bucketPrefix : string;
  in_localPath : string;
  in_direction : SyncDirection;
  in_conflictResolution : ConflictResolution;
  in_pollIntervalMs : option Z;
  in_excludePatterns : option (list string)
}.

Record FolderSyncConflict := {
  c_ruleId : string;
  c_relativePath : string;
  c_localSize : Z;
  c_localMtime : Z;
  c_remoteSize : Z;
  c_remoteLastModified : string;
  c_remoteEtag : string
}.

#[global] Instance FolderSyncConflict_eq_dec : EqDecision FolderSyncConflict.
Proof. solve_decision. Defined.

(** Events pushed from the Bun process to the UI. *)
Record FolderSyncStatusEvent := {
  se_ruleId : string;
  se_status : FolderSyncRuleStatus;
  se_lastChange : option string;
  se_filesWatching : Z;
  se_currentFile : option string;
  se_progress : option Progress
}.

Record FolderSyncConflictEvent := {
  ce_ruleId : string;
  ce_relativePath : string;
  ce_localSize : Z;
  ce_localMtime : Z;
  ce_remoteSize : Z;
  ce_remoteLastModified : string
}.

Record FolderSyncErrorEvent := {
  ee_ruleId : string;
  ee_error : string
}.

(** What a promise is rejected with, as far as the handlers below look at
    it: an [Error] instance with its [message], or any other value. *)
Inductive Thrown :=
  | ErrorObject (message : string)
  | OtherValue.

(** [err instanceof Error ? err.message : "Unknown error"] *)
Definition errorMessage (err : Thrown) : string :=
  match err with
  | ErrorObject message => message
  | OtherValue => "Unknown error"
  end.

(** The settled result of an awaited RPC call. *)
Inductive Outcome (A : Type) :=
  | Resolved (a : A)
  | Rejected (err : Thrown).
Arguments Resolved {A} a.
Arguments Rejected {A} err.

(** ** The zustand store: [useFolderSyncStore] *)

Definition MAX_CONFLICTS : nat := 200.

Record FolderSyncStore := {
  rules : list FolderSyncRule;
  statuses : gmap string FolderSyncState;
  conflicts : list FolderSyncConflict;
  errors : gmap string string;
  loading : bool;
  previewDiff : option FolderSyncDiff;
  previewRuleId : option string;
  folderSyncPanelOpen : bool;
  addRuleDialogOpen : bool;
  editingRule : option FolderSyncRule
}.

(** Partial updates [set({...})]: every field not named keeps its value. *)
Definition set_rules (v : list FolderSyncRule) (s : FolderSyncStore) :=
  {| rules := v; statuses := statuses s; conflicts := conflicts s;
     errors := errors s; loading := loading s; previewDiff := previewDiff s;
     previewRuleId := previewRuleId s;
     folderSyncPanelOpen := folderSyncPanelOpen s;
     addRuleDialogOpen := addRuleDialogOpen s; editingRule := editingRule s |}.

Definition set_statuses (v : gmap string FolderSyncState) (s : FolderSyncStore) :=
  {| rules := rules s; statuses := v; conflicts := conflicts s;
     errors := errors s; loading := loading s; previewDiff := previewDiff s;
     previewRuleId := previewRuleId s;
     folderSyncPanelOpen := folderSyncPanelOpen s;
     addRuleDialogOpen := addRuleDialogOpen s; editingRule := editingRule s |}.

Definition set_conflicts (v : list FolderSyncConflict) (s : FolderSyncStore) :=
  {| rules := rules s; statuses := statuses s; conflicts := v;
     errors := errors s; loading := loading s; previewDiff := previewDiff s;
     previewRuleId := previewRuleId s;
     folderSyncPanelOpen := folderSyncPanelOpen s;
     addRuleDialogOpen := addRuleDialogOpen s; editingRule := editingRule s |}.

Definition set_errors (v : gmap string string) (s : FolderSyncStore) :=
  {| rules := rules s; statuses := statuses s; conflicts := conflicts s;
     errors := v; loading := loading s; previewDiff := previewDiff s;
     previewRuleId := previewRuleId s;
     folderSyncPanelOpen := folderSyncPanelOpen s;
     addRuleDialogOpen := addRuleDialogOpen s; editingRule := editingRule s |}.

Definition set_loading (v : bool) (s : FolderSyncStore) :=
  {| rules := rules s; statuses := statuses s; conflicts := conflicts s;
     errors := errors s; loading := v; previewDiff := previewDiff s;
     previewRuleId := previewRuleId s;
     folderSyncPanelOpen := folderSyncPanelOpen s;
     addRuleDialogOpen := addRuleDialogOpen s; editingRule := editingRule s |}.

Definition set_preview (d : option FolderSyncDiff) (r : option string)
    (s : FolderSyncStore) :=
  {| rules := rules s; statuses := statuses s; conflicts := conflicts s;
     errors := errors s; loading := loading s; previewDiff := d;
     previewRuleId := r;
     folderSyncPanelOpen := folderSyncPanelOpen s;
     addRuleDialogOpen := addRuleDialogOpen s; editingRule := editingRule s |}.

Definition set_editingRule (v : option FolderSyncRule) (s : FolderSyncStore) :=
  {| rules := rules s; statuses := statuses s; conflicts := conflicts s;
     errors := errors s; loading := loading s; previewDiff := previewDiff s;
     previewRuleId := previewRuleId s;
     folderSyncPanelOpen := folderSyncPanelOpen s;
     addRuleDialogOpen := addRuleDialogOpen s; editingRule := v |}.

Definition set_panelOpen (v : bool) (s : FolderSyncStore) :=
  {| rules := rules s; statuses := statuses s; conflicts := conflicts s;
     errors := errors s; loading := loading s; previewDiff := previewDiff s;
     previewRuleId := previewRuleId s;
     folderSyncPanelOpen := v;
     addRuleDialogOpen := addRuleDialogOpen s; editingRule := editingRule s |}.

Definition set_addDialogOpen (v : bool) (s : FolderSyncStore) :=
  {| rules := rules s; statuses := statuses s; conflicts := conflicts s;
     errors := errors s; loading := loading s; previewDiff := previewDiff s;
     previewRuleId := previewRuleId s;
     folderSyncPanelOpen := folderSyncPanelOpen s;
     addRuleDialogOpen := v; editingRule := editingRule s |}.

(** The store as created: no rules, empty maps, no conflicts. *)
Definition initialStore : FolderSyncStore :=
  {| rules := []; statuses := ∅; conflicts := []; errors := ∅;
     loading := false; previewDiff := None; previewRuleId := None;
     folderSyncPanelOpen := false; addRuleDialogOpen := false;
     editingRule := None |}.

(** *** Event subscriptions registered by [init]

    [init] registers the three subscriptions once (the [initialized] flag
    makes later calls return at once), so each push runs its handler once. *)

(** [onEvent("folder-sync:status", ...)] *)
Definition stateOfStatusEvent (data : FolderSyncStatusEvent) : FolderSyncState :=
  {| st_ruleId := se_ruleId data;
     st_status := se_status data;
     st_filesWatching := se_filesWatching data;
     st_lastChange := se_lastChange data;
     st_currentFile := se_currentFile data;
     st_progress := se_progress data |}.

Definition onStatusEvent (data : FolderSyncStatusEvent) (s : FolderSyncStore) :=
  set_statuses (<[se_ruleId data := stateOfStatusEvent data]> (statuses s)) s.

(** The record that the conflict subscription builds from an event. *)
Definition conflictOfEvent (data : FolderSyncConflictEvent) : FolderSyncConflict :=
  {| c_ruleId := ce_ruleId data;
     c_relativePath := ce_relativePath data;
     c_localSize := ce_localSize data;
     c_localMtime := ce_localMtime data;
     c_remoteSize := ce_remoteSize data;
     c_remoteLastModified := ce_remoteLastModified data;
     c_remoteEtag := "" |}.

(** The predicate of the [filter] call: the record is for the same rule and
    the same path as the incoming event. *)
Definition sameTarget (data : FolderSyncConflictEvent) (c : FolderSyncConflict) : Prop :=
  c_ruleId c = ce_ruleId data ∧ c_relativePath c = ce_relativePath data.

#[global] Instance sameTarget_dec data c : Decision (sameTarget data c).
Proof. unfold sameTarget. apply _. Defined.

(** [onEvent("folder-sync:conflict", ...)]: new record first, older records
    for the same rule and path dropped, then [.slice(0, MAX_CONFLICTS)]. *)
Definition onConflictEvent (data : FolderSyncConflictEvent) (s : FolderSyncStore) :=
  set_conflicts
    (take MAX_CONFLICTS
       (conflictOfEvent data
          :: filter (λ c, ¬ sameTarget data c) (conflicts s)))
    s.

(** [onEvent("folder-sync:error", ...)] *)
Definition onErrorEvent (data : FolderSyncErrorEvent) (s : FolderSyncStore) :=
  set_errors (<[ee_ruleId data := ee_error data]> (errors s)) s.

(** *** Actions *)

(** [loadRules]: [set({loading: true})], then the awaited list replaces the
    rules, or a rejection only resets [loading]. *)
Definition loadRules_begin (s : FolderSyncStore) := set_loading true s.

Definition loadRules_settle (rpc : Outcome (list FolderSyncRule))
    (s : FolderSyncStore) :=
  match rpc with
  | Resolved rs => set_loading false (set_rules rs s)
  | Rejected _ => set_loading false s
  end.

(** [addRule]: the rule returned by the RPC is appended. *)
Definition addRule (rpc : Outcome FolderSyncRule) (s : FolderSyncStore)
    : FolderSyncStore * Outcome FolderSyncRule :=
  match rpc with
  | Resolved rule => (set_rules (rules s ++ [rule]) s, Resolved rule)
  | Rejected e => (s, Rejected e)
  end.

Definition replaceRule (updated : FolderSyncRule) (rs : list FolderSyncRule) :=
  (λ r, if decide (id r = id updated) then updated else r) <$> rs.

(** [updateRule] *)
Definition updateRule (rpc : Outcome FolderSyncRule) (s : FolderSyncStore)
    : FolderSyncStore * Outcome unit :=
  match rpc with
  | Resolved updated =>
      (set_editingRule None (set_rules (replaceRule updated (rules s)) s),
       Resolved ())
  | Rejected e => (s, Rejected e)
  end.

(** [removeRule]: after the RPC resolves, the rule, its conflicts, its error
    and its status are dropped.  A rejected RPC rejects the action before
    [set] is reached. *)
Definition removeRule (rid : string) (rpc : Outcome unit) (s : FolderSyncStore)
    : FolderSyncStore * Outcome unit :=
  match rpc with
  | Resolved _ =>
      (set_statuses (delete rid (statuses s))
         (set_errors (delete rid (errors s))
            (set_conflicts (filter (λ c, c_ruleId c ≠ rid) (conflicts s))
               (set_rules (filter (λ r, id r ≠ rid) (rules s)) s))),
       Resolved ())
  | Rejected e => (s, Rejected e)
  end.

(** [toggleRule] *)
Definition toggleRule (rpc : Outcome FolderSyncRule) (s : FolderSyncStore)
    : FolderSyncStore * Outcome unit :=
  match rpc with
  | Resolved updated =>
      (set_rules (replaceRule updated (rules s)) s, Resolved ())
  | Rejected e => (s, Rejected e)
  end.

(** [syncNow]: only the RPC; the store is not written. *)
Definition syncNow (rpc : Outcome unit) (s : FolderSyncStore)
    : FolderSyncStore * Outcome unit := (s, rpc).

(** [refreshStatuses]: a fresh map filled in the order of the reply. *)
Definition refreshStatuses (rpc : Outcome (list FolderSyncState))
    (s : FolderSyncStore) : FolderSyncStore * Outcome unit :=
  match rpc with
  | Resolved states =>
      (set_statuses
         (foldl (λ m st, <[st_ruleId st := st]> m) ∅ states) s,
       Resolved ())
  | Rejected e => (s, Rejected e)
  end.

(** [previewRule] *)
Definition previewRule_begin (rid : string) (s : FolderSyncStore) :=
  set_preview None (Some rid) s.

Definition previewRule_settle (rpc : Outcome FolderSyncDiff)
    (s : FolderSyncStore) : FolderSyncStore * Outcome unit :=
  match rpc with
  | Resolved d => (set_preview (Some d) (previewRuleId s) s, Resolved ())
  | Rejected e => (s, Rejected e)
  end.

Definition clearPreview (s : FolderSyncStore) := set_preview None None s.

(** JavaScript truthiness of an optional string argument: [undefined] and the
    empty string are falsy. *)
Definition truthy (o : option string) : bool :=
  match o with
  | Some v => bool_decide (v ≠ "")
  | None => false
  end.

(** [clearConflicts(ruleId?)]:
    [ruleId ? conflicts.filter(c => c.ruleId !== ruleId) : []]. *)
Definition clearConflicts (ruleId : option string) (s : FolderSyncStore) :=
  set_conflicts
    (if truthy ruleId
     then filter (λ c, Some (c_ruleId c) ≠ ruleId) (conflicts s)
     else [])
    s.

(** [getRuleStatus]: [statuses.get(ruleId)?.status ?? "idle"]. *)
Definition getRuleStatus (ruleId : string) (s : FolderSyncStore)
    : FolderSyncRuleStatus :=
  default Idle (st_status <$> statuses s !! ruleId).

Definition statusValues (s : FolderSyncStore) : list FolderSyncState :=
  (map_to_list (statuses s)).*2.

Definition getActiveCount (s : FolderSyncStore) : nat :=
  length (filter (λ st, st_status st = Watching ∨ st_status st = Syncing)
            (statusValues s)).

Definition getSyncingCount (s : FolderSyncStore) : nat :=
  length (filter (λ st, st_status st = Syncing) (statusValues s)).

(** ** The rule editor: [FolderSyncRuleEditor] *)

Module Editor.

(** The line feed used by [join("\n")] and [split("\n")]. *)
Definition LF : ascii := "010"%char.

(** [String.prototype.trim] removes the code points of the ECMAScript
    productions WhiteSpace and LineTerminator from both ends.  In the UTF-8
    bytes of a string they take one, two or three bytes.

    One byte: U+0009 tab, U+000A line feed, U+000B vertical tab, U+000C form
    feed, U+000D carriage return and U+0020 space. *)
Definition isWhiteSpace (c : ascii) : bool :=
  match Ascii.nat_of_ascii c with
  | 9%nat | 10%nat | 11%nat | 12%nat | 13%nat | 32%nat => true
  | _ => false
  end.

(** Two bytes: U+00A0 no-break space, [C2 A0]. *)
Definition isWhiteSpace2 (c1 c2 : ascii) : bool :=
  ((Ascii.N_of_ascii c1 =? 194) && (Ascii.N_of_ascii c2 =? 160))%N.

(** Three bytes: U+1680 [E1 9A 80]; U+2000 to U+200A [E2 80 80] to
    [E2 80 8A]; U+2028 and U+2029 [E2 80 A8], [E2 80 A9]; U+202F
    [E2 80 AF]; U+205F [E2 81 9F]; U+3000 [E3 80 80]; U+FEFF [EF BB BF]. *)
Definition isWhiteSpace3 (c1 c2 c3 : ascii) : bool :=
  (let b1 := Ascii.N_of_ascii c1 in
   let b2 := Ascii.N_of_ascii c2 in
   let b3 := Ascii.N_of_ascii c3 in
   (b1 =? 225) && (b2 =? 154) && (b3 =? 128)
   || (b1 =? 226) && (b2 =? 128)
      && ((128 <=? b3) && (b3 <=? 138)
          || (b3 =? 168) || (b3 =? 169) || (b3 =? 175))
   || (b1 =? 226) && (b2 =? 129) && (b3 =? 159)
   || (b1 =? 227) && (b2 =? 128) && (b3 =? 128)
   || (b1 =? 239) && (b2 =? 187) && (b3 =? 191))%N.

(** The text after the white-space code point that [s] starts with, if it
    starts with one. *)
Definition whiteSpacePrefix (s : string) : option string :=
  match s with
  | EmptyString => None
  | String c1 r1 =>
      if isWhiteSpace c1 then Some r1
      else match r1 with
           | EmptyString => None
           | String c2 r2 =>
               if isWhiteSpace2 c1 c2 then Some r2
               else match r2 with
                    | EmptyString => None
                    | String c3 r3 =>
                        if isWhiteSpace3 c1 c2 c3 then Some r3 else None
                    end
           end
  end.

(** [s] is one white-space code point and nothing else. *)
Definition isWhiteSpaceOnly (s : string) : bool :=
  match whiteSpacePrefix s with
  | Some EmptyString => true
  | _ => false
  end.

(** [trimStart]: white-space code points are dropped as long as the text
    starts with one. *)
Fixpoint trimStart (s : string) : string :=
  match s with
  | EmptyString => EmptyString
  | String c1 r1 =>
      if isWhiteSpace c1 then trimStart r1
      else match r1 with
           | EmptyString => s
           | String c2 r2 =>
               if isWhiteSpace2 c1 c2 then trimStart r2
               else match r2 with
                    | EmptyString => s
                    | String c3 r3 =>
                        if isWhiteSpace3 c1 c2 c3 then trimStart r3 else s
                    end
           end
  end.

(** [trimEnd]: the text is rebuilt from its end; what remains of it is
    dropped whenever it is one white-space code point. *)
Fixpoint trimEnd (s : string) : string :=
  match s with
  | EmptyString => EmptyString
  | String c rest =>
      let kept := String c (trimEnd rest) in
      if isWhiteSpaceOnly kept then EmptyString else kept
  end.

Definition trim (s : string) : string := trimEnd (trimStart s).

(** [s.split("\n")]: always at least one piece. *)
Fixpoint splitLines (s : string) : list string :=
  match s with
  | EmptyString => [EmptyString]
  | String c rest =>
      if Ascii.eqb c LF then EmptyString :: splitLines rest
      else match splitLines rest with
           | piece :: pieces => String c piece :: pieces
           | [] => [String c EmptyString]
           end
  end.

(** [lines.join("\n")] *)
Definition joinLines (l : list string) : string :=
  String.concat (String LF EmptyString) l.

(** [excludePatterns.split("\n").map(s => s.trim()).filter(Boolean)] *)
Definition parseExcludePatterns (text : string) : list string :=
  filter (λ p, p ≠ "") (trim <$> splitLines text).

Definition defaultExcludePatterns : string :=
  joinLines [".DS_Store"; "Thumbs.db"; ".object0-tmp"; "desktop.ini"].

(** The [<option>]s of the poll-interval [<select>]. *)
Inductive PollOption := Sec15 | Sec30 | Min1 | Min5 | Min10 | Min30.

Definition pollOptionValue (o : PollOption) : Z :=
  match o with
  | Sec15 => 15000
  | Sec30 => 30000
  | Min1 => 60000
  | Min5 => 300000
  | Min10 => 600000
  | Min30 => 1800000
  end.

Definition pollOptions : list PollOption :=
  [Sec15; Sec30; Min1; Min5; Min10; Min30].

(** The component's [useState] cells. *)
Record EditorState := {
  ed_profileId : string;
  ed_bucket : string;
  ed_bucketPrefix : string;
  ed_localPath : string;
  ed_direction : SyncDirection;
  ed_conflictResolution : ConflictResolution;
  ed_pollIntervalMs : Z;
  ed_excludePatterns : string;
  ed_buckets : list string;
  ed_loadingBuckets : bool;
  ed_saving : bool
}.

(** Initial values: [editRule?.field ?? default]. *)
Definition initialState (editRule : option FolderSyncRule) : EditorState :=
  {| ed_profileId := default "" (profileId <$> editRule);
     ed_bucket := default "" (bucket <$> editRule);
     ed_bucketPrefix := default "" (bucketPrefix <$> editRule);
     ed_localPath := default "" (localPath <$> editRule);
     ed_direction := default Bidirectional (direction <$> editRule);
     ed_conflictResolution := default NewerWins (conflictResolution <$> editRule);
     ed_pollIntervalMs := default 30000 (pollIntervalMs <$> editRule);
     ed_excludePatterns :=
       default defaultExcludePatterns
         ((λ r, joinLines (excludePatterns r)) <$> editRule);
     ed_buckets := [];
     ed_loadingBuckets := false;
     ed_saving := false |}.

(** What the user (and the bucket loader) can do to the form. *)
Inductive FormAction :=
  | ChangeProfile (v : string)
  | ChangeBucket (v : string)
  | ChangeBucketPrefix (v : string)
  | ChangeLocalPath (v : string)
  | PickFolder (path : option string)
  | ChangeDirection (v : SyncDirection)
  | ChangeConflictResolution (v : ConflictResolution)
  | ChangePollInterval (o : PollOption)
  | ChangeExcludePatterns (v : string)
  | LoadBucketsBegin
  | LoadBucketsSettle (rpc : Outcome (list string)).

Definition with_localPath (v : string) (st : EditorState) : EditorState :=
  {| ed_profileId := ed_profileId st; ed_bucket := ed_bucket st;
     ed_bucketPrefix := ed_bucketPrefix st; ed_localPath := v;
     ed_direction := ed_direction st;
     ed_conflictResolution := ed_conflictResolution st;
     ed_pollIntervalMs := ed_pollIntervalMs st;
     ed_excludePatterns := ed_excludePatterns st;
     ed_buckets := ed_buckets st;
     ed_loadingBuckets := ed_loadingBuckets st; ed_saving := ed_saving st |}.

Definition formStep (st : EditorState) (a : FormAction) : EditorState :=
  match a with
  | ChangeProfile v =>
      (* setProfileId(e.target.value); setBucket("") *)
      {| ed_profileId := v; ed_bucket := "";
         ed_bucketPrefix := ed_bucketPrefix st; ed_localPath := ed_localPath st;
         ed_direction := ed_direction st;
         ed_conflictResolution := ed_conflictResolution st;
         ed_pollIntervalMs := ed_pollIntervalMs st;
         ed_excludePatterns := ed_excludePatterns st;
         ed_buckets := ed_buckets st;
         ed_loadingBuckets := ed_loadingBuckets st; ed_saving := ed_saving st |}
  | ChangeBucket v =>
      {| ed_profileId := ed_profileId st; ed_bucket := v;
         ed_bucketPrefix := ed_bucketPrefix st; ed_localPath := ed_localPath st;
         ed_direction := ed_direction st;
         ed_conflictResolution := ed_conflictResolution st;
         ed_pollIntervalMs := ed_pollIntervalMs st;
         ed_excludePatterns := ed_excludePatterns st;
         ed_buckets := ed_buckets st;
         ed_loadingBuckets := ed_loadingBuckets st; ed_saving := ed_saving st |}
  | ChangeBucketPrefix v =>
      {| ed_profileId := ed_profileId st; ed_bucket := ed_bucket st;
         ed_bucketPrefix := v; ed_localPath := ed_localPath st;
         ed_direction := ed_direction st;
         ed_conflictResolution := ed_conflictResolution st;
         ed_pollIntervalMs := ed_pollIntervalMs st;
         ed_excludePatterns := ed_excludePatterns st;
         ed_buckets := ed_buckets st;
         ed_loadingBuckets := ed_loadingBuckets st; ed_saving := ed_saving st |}
  | ChangeLocalPath v => with_localPath v st
  | PickFolder path =>
      (* const path = await pickFolder(); if (path) setLocalPath(path) *)
      match path with
      | Some p => if decide (p = "") then st else with_localPath p st
      | None => st
      end
  | ChangeDirection v =>
      {| ed_profileId := ed_profileId st; ed_bucket := ed_bucket st;
         ed_bucketPrefix := ed_bucketPrefix st; ed_localPath := ed_localPath st;
         ed_direction := v;
         ed_conflictResolution := ed_conflictResolution st;
         ed_pollIntervalMs := ed_pollIntervalMs st;
         ed_excludePatterns := ed_excludePatterns st;
         ed_buckets := ed_buckets st;
         ed_loadingBuckets := ed_loadingBuckets st; ed_saving := ed_saving st |}
  | ChangeConflictResolution v =>
      {| ed_profileId := ed_profileId st; ed_bucket := ed_bucket st;
         ed_bucketPrefix := ed_bucketPrefix st; ed_localPath := ed_localPath st;
         ed_direction := ed_direction st;
         ed_conflictResolution := v;
         ed_pollIntervalMs := ed_pollIntervalMs st;
         ed_excludePatterns := ed_excludePatterns st;
         ed_buckets := ed_buckets st;
         ed_loadingBuckets := ed_loadingBuckets st; ed_saving := ed_saving st |}
  | ChangePollInterval o =>
      (* setPollIntervalMs(Number(e.target.value)) *)
      {| ed_profileId := ed_profileId st; ed_bucket := ed_bucket st;
         ed_bucketPrefix := ed_bucketPrefix st; ed_localPath := ed_localPath st;
         ed_direction := ed_direction st;
         ed_conflictResolution := ed_conflictResolution st;
         ed_pollIntervalMs := pollOptionValue o;
         ed_excludePatterns := ed_excludePatterns st;
         ed_buckets := ed_buckets st;
         ed_loadingBuckets := ed_loadingBuckets st; ed_saving := ed_saving st |}
  | ChangeExcludePatterns v =>
      {| ed_profileId := ed_profileId st; ed_bucket := ed_bucket st;
         ed_bucketPrefix := ed_bucketPrefix st; ed_localPath := ed_localPath st;
         ed_direction := ed_direction st;
         ed_conflictResolution := ed_conflictResolution st;
         ed_pollIntervalMs := ed_pollIntervalMs st;
         ed_excludePatterns := v;
         ed_buckets := ed_buckets st;
         ed_loadingBuckets := ed_loadingBuckets st; ed_saving := ed_saving st |}
  | LoadBucketsBegin =>
      {| ed_profileId := ed_profileId st; ed_bucket := ed_bucket st;
         ed_bucketPrefix := ed_bucketPrefix st; ed_localPath := ed_localPath st;
         ed_direction := ed_direction st;
         ed_conflictResolution := ed_conflictResolution st;
         ed_pollIntervalMs := ed_pollIntervalMs st;
         ed_excludePatterns := ed_excludePatterns st;
         ed_buckets := ed_buckets st;
         ed_loadingBuckets := true; ed_saving := ed_saving st |}
  | LoadBucketsSettle rpc =>
      {| ed_profileId := ed_profileId st; ed_bucket := ed_bucket st;
         ed_bucketPrefix := ed_bucketPrefix st; ed_localPath := ed_localPath st;
         ed_direction := ed_direction st;
         ed_conflictResolution := ed_conflictResolution st;
         ed_pollIntervalMs := ed_pollIntervalMs st;
         ed_excludePatterns := ed_excludePatterns st;
         ed_buckets :=
           match rpc with Resolved names => names | Rejected _ => ed_buckets st end;
         ed_loadingBuckets := false; ed_saving := ed_saving st |}
  end.

(** The form after a session of edits, starting from the initial values. *)
Definition formAfter (editRule : option FolderSyncRule) (acts : list FormAction)
    : EditorState :=
  foldl formStep (initialState editRule) acts.

(** The last choice made in the poll-interval [<select>], if any. *)
Definition asPollChoice (a : FormAction) : option PollOption :=
  match a with ChangePollInterval o => Some o | _ => None end.

Definition lastPollChoice (acts : list FormAction) : option PollOption :=
  last (omap asPollChoice acts).

(** What [handleSave] does to the outside, in program order. *)
Inductive Effect :=
  | ToastError (message : string)
  | ToastSuccess (message : string)
  | SetSaving (v : bool)
  | CallAddRule (input : FolderSyncRuleInput)
  | CallUpdateRule (input : FolderSyncRuleInput) (ruleId : string)
  | OnDone.

Definition buildInput (st : EditorState) : FolderSyncRuleInput :=
  {| in_profileId := ed_profileId st;
     in_bucket := ed_bucket st;
     in_bucketPrefix := ed_bucketPrefix st;
     in_localPath := ed_localPath st;
     in_direction := ed_direction st;
     in_conflictResolution := ed_conflictResolution st;
     in_pollIntervalMs := Some (ed_pollIntervalMs st);
     in_excludePatterns := Some (parseExcludePatterns (ed_excludePatterns st)) |}.

(** [handleSave]; [rpc] is how the store action it awaits settles. *)
Definition handleSave (editRule : option FolderSyncRule) (st : EditorState)
    (rpc : Outcome unit) : list Effect :=
  if bool_decide (ed_profileId st = "" ∨ ed_bucket st = "" ∨ ed_localPath st = "")
  then [ToastError "Please fill in all required fields"]
  else
    let input := buildInput st in
    [SetSaving true]
      ++ match editRule with
         | Some r =>
             CallUpdateRule input (id r)
               :: match rpc with
                  | Resolved _ => [ToastSuccess "Sync rule updated"; OnDone]
                  | Rejected e => [ToastError (errorMessage e)]
                  end
         | None =>
             CallAddRule input
               :: match rpc with
                  | Resolved _ => [ToastSuccess "Sync rule created"; OnDone]
                  | Rejected e => [ToastError (errorMessage e)]
                  end
         end
      ++ [SetSaving false].

(** The rule inputs that a run of [handleSave] hands to the store. *)
Definition submitted (trace : list Effect) : list FolderSyncRuleInput :=
  omap (λ e, match e with
             | CallAddRule i => Some i
             | CallUpdateRule i _ => Some i
             | _ => None
             end) trace.

End Editor.

(** ** The panel: [FolderSyncPanel] *)

Module Panel.

Inductive Effect :=
  | CallSyncNow (ruleId : string)
  | ToastSuccess (message : string)
  | ToastError (message : string).

(** [handleSyncNow] *)
Definition handleSyncNow (ruleId : string) (rpc : Outcome unit) : list Effect :=
  CallSyncNow ruleId
    :: match rpc with
       | Resolved _ => [ToastSuccess "Sync triggered"]
       | Rejected e => [ToastError (errorMessage e)]
       end.

(** The "Sync now" button of a rule card: [disabled={status === "syncing"}],
    with [status = statuses.get(rule.id)?.status ?? "idle"]. *)
Definition syncButtonDisabled (s : FolderSyncStore) (rule : FolderSyncRule) : bool :=
  bool_decide (getRuleStatus (id rule) s = Syncing).

(** A click on the button; a disabled button dispatches nothing. *)
Definition clickSyncNow (s : FolderSyncStore) (rule : FolderSyncRule)
    (rpc : Outcome unit) : list Effect :=
  if syncButtonDisabled s rule then [] else handleSyncNow (id rule) rpc.

End Panel.

(** ** The Differ (specification, section 4.1) *)

Module Differ.

(** Modelled from the spec: the snapshot collectors are not among the
    sources.  One entry of a local snapshot (section 3): current size and
    modification time. *)
Record LocalEntry := { l_size : Z; l_mtime : Z }.

(** Modelled from the spec: the snapshot collectors are not among the
    sources.  One entry of a remote snapshot (section 3): current size, etag
    and last-modified. *)
Record RemoteEntry := { r_size : Z; r_etag : string; r_lastModified : string }.

(** Modelled from the spec: the Differ itself is not among the sources (only
    its result types [FolderSyncDiff] and [FolderSyncDiffEntry] are).  "Local
    changed": size or mtime differs from the baseline record. *)
Definition localChanged (b : FolderSyncFileRecord) (l : LocalEntry) : bool :=
  bool_decide (l_size l ≠ rec_localSize b ∨ l_mtime l ≠ rec_localMtime b).

(** Modelled from the spec: the Differ is not among the sources.  "Remote
    changed": etag or lastModified differs from the baseline record (4.1,
    item 5), or the size does (section 8 counts a remote size that differs
    from the baseline as a change). *)
Definition remoteChanged (b : FolderSyncFileRecord) (r : RemoteEntry) : bool :=
  bool_decide (r_etag r ≠ rec_remoteEtag b
               ∨ r_lastModified r ≠ rec_remoteLastModified b
               ∨ r_size r ≠ rec_remoteSize b).

(** Modelled from the spec: the Differ is not among the sources.  Which
    action classes a direction permits: uploads and remote deletions need
    local-to-remote flow, downloads and local deletions need remote-to-local
    flow; the specification restricts nothing else. *)
Definition legal (d : SyncDirection) (a : FolderSyncAction) : bool :=
  match a, d with
  | Upload, RemoteToLocal => false
  | DeleteRemote, RemoteToLocal => false
  | Download, LocalToRemote => false
  | DeleteLocal, LocalToRemote => false
  | _, _ => true
  end.

Section Classification.

(** The presence patterns that items 1 to 7 of section 4.1 do not mention
    (new on both sides without a baseline, deleted on one side and changed
    on the other, gone on both sides) are left to this parameter, so that
    whatever is proved holds for every way of completing the algorithm. *)
Variable unspecified :
  option FolderSyncFileRecord → option LocalEntry → option RemoteEntry →
  option (FolderSyncAction * string).

(** Modelled from the spec: the Differ is not among the sources.  Items 1
    to 7 of section 4.1, before the direction is taken into account;
    [None] stands for "unchanged". *)
Definition classify (b : option FolderSyncFileRecord) (l : option LocalEntry)
    (r : option RemoteEntry) : option (FolderSyncAction * string) :=
  match b, l, r with
  | None, Some _, None => Some (Upload, "new local file")
  | None, None, Some _ => Some (Download, "new remote object")
  | Some rb, None, Some re =>
      if remoteChanged rb re then unspecified b l r
      else Some (DeleteRemote, "local deletion propagates")
  | Some rb, Some le, None =>
      if localChanged rb le then unspecified b l r
      else Some (DeleteLocal, "remote deletion propagates")
  | Some rb, Some le, Some re =>
      match localChanged rb le, remoteChanged rb re with
      | true, false => Some (Upload, "local changed since baseline")
      | false, true => Some (Download, "remote changed since baseline")
      | true, true => Some (Conflict, "both sides changed since baseline")
      | false, false => None
      end
  | None, None, None => None
  | _, _, _ => unspecified b l r
  end.

(** Modelled from the spec: the Differ is not among the sources.  The
    entry for a path, in the shape of [FolderSyncDiffEntry]. *)
Definition mkEntry (p : string) (a : FolderSyncAction) (reason : string)
    (l : option LocalEntry) (r : option RemoteEntry) : FolderSyncDiffEntry :=
  {| de_relativePath := p;
     de_action := a;
     de_reason := reason;
     de_localSize := l_size <$> l;
     de_localMtime := l_mtime <$> l;
     de_remoteSize := r_size <$> r;
     de_remoteLastModified := r_lastModified <$> r;
     de_remoteEtag := r_etag <$> r |}.

(** Modelled from the spec: the Differ is not among the sources.  The
    verdict for one path: an action made illegal by the direction is
    downgraded to "unchanged" ([None]). *)
Definition diffPath (d : SyncDirection)
    (baseline : gmap string FolderSyncFileRecord)
    (loc : gmap string LocalEntry) (rem : gmap string RemoteEntry)
    (p : string) : option FolderSyncDiffEntry :=
  match classify (baseline !! p) (loc !! p) (rem !! p) with
  | Some (a, reason) =>
      if legal d a then Some (mkEntry p a reason (loc !! p) (rem !! p))
      else None
  | None => None
  end.

(** Modelled from the spec: the Differ is not among the sources.  The
    relative paths present in baseline, local or remote snapshot. *)
Definition allPaths (baseline : gmap string FolderSyncFileRecord)
    (loc : gmap string LocalEntry) (rem : gmap string RemoteEntry)
    : list string :=
  elements (dom baseline ∪ dom loc ∪ dom rem).

(** Modelled from the spec: the Differ is not among the sources.  The
    entries of one action class. *)
Definition bucket (a : FolderSyncAction) (es : list FolderSyncDiffEntry) :=
  filter (λ e, de_action e = a) es.

(** Modelled from the spec: the Differ is not among the sources.  The Diff
    groups the entries by action and counts the unchanged paths. *)
Definition computeDiff (d : SyncDirection)
    (baseline : gmap string FolderSyncFileRecord)
    (loc : gmap string LocalEntry) (rem : gmap string RemoteEntry)
    : FolderSyncDiff :=
  let paths := allPaths baseline loc rem in
  let entries := omap (diffPath d baseline loc rem) paths in
  {| uploads := bucket Upload entries;
     downloads := bucket Download entries;
     deleteLocal := bucket DeleteLocal entries;
     deleteRemote := bucket DeleteRemote entries;
     diff_conflicts := bucket Conflict entries;
     unchanged :=
       length (filter (λ p, diffPath d baseline loc rem p = None) paths) |}.

(** Modelled from the spec: the Differ is not among the sources.  The
    action that the three-way comparison alone assigns to a path, whatever
    the direction. *)
Definition rawAction (baseline : gmap string FolderSyncFileRecord)
    (loc : gmap string LocalEntry) (rem : gmap string RemoteEntry)
    (p : string) : option FolderSyncAction :=
  fst <$> classify (baseline !! p) (loc !! p) (rem !! p).

End Classification.

(** Every entry of every bucket of a [FolderSyncDiff]. *)
Definition allEntries (d : FolderSyncDiff) : list FolderSyncDiffEntry :=
  (uploads d ++ downloads d ++ deleteLocal d ++ deleteRemote d
     ++ diff_conflicts d)%list.

End Differ.

(** ** The Rule Scheduler (specification, sections 4.3, 5 and 9) *)

Module Scheduler.

(** Modelled from the spec: the Rule Scheduler is not among the sources.
    The three triggers of section 4.3. *)
Inductive Trigger := LocalChange | PollTimer | SyncNow.

(** Modelled from the spec: the Reconciliation Executor is not among the
    sources.  How a reconciliation ends (section 4.3). *)
Inductive SyncOutcome := Succeeded | PartiallyFailed | Failed (message : string).

(** Modelled from the spec: the Rule Scheduler is not among the sources.
    What reaches the scheduler of one rule.  [Completed] is the executor's
    report that the reconciliation it was running has fully drained: every
    operation it submitted has finished, also when it was cancelled on the
    way (section 5). *)
Inductive Event :=
  | EnableRule
  | PauseRule                      (* disable / pause *)
  | ResumeRule
  | Fire (t : Trigger)             (* local change, poll timer, "sync now" *)
  | Completed (o : SyncOutcome)    (* the running reconciliation has drained *)
  | RemoveRule.

(** Modelled from the spec: the Rule Scheduler is not among the sources.
    What the scheduler asks of its collaborators. *)
Inductive Command :=
  | ArmWatcher
  | DisarmWatcher
  | StartReconciliation
  | CancelReconciliation.

#[global] Instance Command_eq_dec : EqDecision Command.
Proof. solve_decision. Defined.

(** Modelled from the spec: the Rule Scheduler is not among the sources.
    The state machine's state for one rule, with the "rerun requested" flag
    of section 9 and the last outcome recorded on the rule.  [running]
    tells whether a reconciliation that this scheduler started has not
    reported yet that it has drained; a cancelled reconciliation keeps it
    set until then, because section 5 lets the operations it has submitted
    finish and forbids a new reconciliation before they have. *)
Record Sched := {
  status : FolderSyncRuleStatus;
  rerunRequested : bool;
  running : bool;
  removed : bool;
  lastStatus : option LastSyncStatus;
  lastError : option string
}.

(** Modelled from the spec: the Rule Scheduler is not among the sources.
    A rule starts in [Idle]. *)
Definition initial : Sched :=
  {| status := Idle; rerunRequested := false; running := false;
     removed := false; lastStatus := None; lastError := None |}.

(** Modelled from the spec: the Rule Scheduler is not among the sources.
    A state transition, together with the new value of the flag. *)
Definition moveTo (st : FolderSyncRuleStatus) (rerun : bool) (s : Sched) : Sched :=
  {| status := st; rerunRequested := rerun; running := running s;
     removed := removed s;
     lastStatus := lastStatus s; lastError := lastError s |}.

(** Modelled from the spec: the Rule Scheduler is not among the sources.
    Noting that a reconciliation has started, or that it has drained. *)
Definition setRunning (v : bool) (s : Sched) : Sched :=
  {| status := status s; rerunRequested := rerunRequested s; running := v;
     removed := removed s;
     lastStatus := lastStatus s; lastError := lastError s |}.

(** Modelled from the spec: the Rule Scheduler is not among the sources.
    [lastSyncStatus] and [lastSyncError] after a reconciliation. *)
Definition recordOutcome (o : SyncOutcome) (s : Sched) : Sched :=
  {| status := status s; rerunRequested := rerunRequested s;
     running := running s; removed := removed s;
     lastStatus := Some match o with
                        | Succeeded => SyncSuccess
                        | PartiallyFailed => SyncPartial
                        | Failed _ => SyncError
                        end;
     lastError := match o with Failed m => Some m | _ => lastError s end |}.

(** Modelled from the spec: the Rule Scheduler is not among the sources.
    Pausing or removing a rule cancels its reconciliation if one runs. *)
Definition cancelIfSyncing (s : Sched) : list Command :=
  if decide (status s = Syncing) then [CancelReconciliation] else [].

(** Modelled from the spec: the Rule Scheduler is not among the sources.
    Watching (or error) to syncing: a reconciliation is started and the
    flag is cleared. *)
Definition start (s : Sched) : Sched * list Command :=
  (setRunning true (moveTo Syncing false s), [StartReconciliation]).

(** Modelled from the spec: the Rule Scheduler is not among the sources.
    The report that the reconciliation has drained.  A reconciliation that
    ran to its end records its outcome and leaves [Syncing]; one that was
    cancelled by a pause has left [Syncing] already.  In both cases the
    flag of section 9 is checked now: a trigger that arrived in the
    meantime starts the one re-run, unless the rule is paused or removed. *)
Definition onCompleted (o : SyncOutcome) (s : Sched) : Sched * list Command :=
  if negb (running s) then (s, [])
  else if removed s then (setRunning false s, [])
  else
    match status s with
    | Syncing =>
        let s' := recordOutcome o s in
        if rerunRequested s then start s'
        else (setRunning false
                (moveTo match o with Failed _ => Error | _ => Watching end
                        false s'), [])
    | Watching | Error =>
        if rerunRequested s then start s else (setRunning false s, [])
    | Idle | Paused => (setRunning false s, [])
    end.

(** Modelled from the spec: the Rule Scheduler is not among the sources (the
    renderer only sends it "sync now" and shows its status events).  The
    transitions of section 4.3, with the depth-one "rerun requested" flag of
    section 9; an event that section 4.3 gives no transition for in the
    current state leaves the state alone.  A trigger starts a
    reconciliation only when none is running; otherwise, in [Syncing] or
    while a cancelled one is still draining after a resume, it sets the
    flag (section 5: no new reconciliation before the previous one has
    fully drained). *)
Definition step (s : Sched) (e : Event) : Sched * list Command :=
  match e with
  | Completed o => onCompleted o s
  | EnableRule =>
      if removed s then (s, []) else
      match status s with
      | Idle => (moveTo Watching false s, [ArmWatcher])
      | _ => (s, [])
      end
  | PauseRule =>
      if removed s then (s, []) else
      (moveTo Paused false s, (cancelIfSyncing s ++ [DisarmWatcher])%list)
  | ResumeRule =>
      if removed s then (s, []) else
      match status s with
      | Paused => (moveTo Watching false s, [ArmWatcher])
      | _ => (s, [])
      end
  | Fire _ =>
      if removed s then (s, []) else
      match status s with
      | Watching | Error =>
          if running s then (moveTo (status s) true s, []) else start s
      | Syncing => (moveTo Syncing true s, [])
      | Idle | Paused => (s, [])
      end
  | RemoveRule =>
      if removed s then (s, []) else
      ({| status := Idle; rerunRequested := false; running := running s;
          removed := true;
          lastStatus := lastStatus s; lastError := lastError s |},
       (cancelIfSyncing s ++ [DisarmWatcher])%list)
  end.

(** Modelled from the spec: the Reconciliation Executor is not among the
    sources.  The scheduler of one rule together with the number of
    reconciliations of that rule that the executor has started and that
    have not drained yet. *)
Record System := { sched : Sched; inFlight : nat }.

(** Modelled from the spec: the Rule Scheduler is not among the sources.
    At start nothing runs. *)
Definition boot : System := {| sched := initial; inFlight := 0 |}.

(** Modelled from the spec: the Reconciliation Executor is not among the
    sources.  The executor's side of a command: a start adds a
    reconciliation in flight.  A cancellation removes none: the cancelled
    reconciliation submits no further operation, but stays in flight until
    the operations it has submitted have finished (section 5), which the
    executor reports by [Completed]. *)
Definition execute (n : nat) (c : Command) : nat :=
  match c with
  | StartReconciliation => S n
  | _ => n
  end.

(** Modelled from the spec: the Rule Scheduler is not among the sources.
    One event delivered to the system.  [Completed] takes the drained
    reconciliation out of flight, whether it ran to its end or was
    cancelled; with nothing in flight there is nothing to take out. *)
Definition deliver (sys : System) (e : Event) : System * list Command :=
  let n := match e with
           | Completed _ => pred (inFlight sys)
           | _ => inFlight sys
           end in
  let '(s', cmds) := step (sched sys) e in
  ({| sched := s'; inFlight := foldl execute n cmds |}, cmds).

(** Modelled from the spec: the Rule Scheduler is not among the sources.
    A sequence of events, with the commands issued along the way. *)
Fixpoint run (sys : System) (es : list Event) : System * list Command :=
  match es with
  | [] => (sys, [])
  | e :: rest =>
      let '(sys', cmds) := deliver sys e in
      let '(sys'', cmds') := run sys' rest in
      (sys'', (cmds ++ cmds')%list)
  end.

(** The system after a sequence of events from the start, and the commands
    issued on the way. *)
Definition stateAfter (es : list Event) : System := (run boot es).1.
Definition issued (es : list Event) : list Command := (run boot es).2.

(** How many reconciliations a list of commands starts, and how many drain
    reports a list of events holds. *)
Definition starts (cmds : list Command) : nat :=
  length (filter (λ c, c = StartReconciliation) cmds).

Definition isCompleted (e : Event) : bool :=
  match e with Completed _ => true | _ => false end.

Definition completions (es : list Event) : nat :=
  length (filter (λ e, isCompleted e = true) es).

(** A rule whose triggers are processed: enabled, not paused. *)
Definition live (s : Sched) : Prop :=
  status s = Syncing ∨ status s = Watching ∨ status s = Error.

(** The executor has a reconciliation in flight exactly when the scheduler
    knows of one; in [Syncing] there is one; a re-run is only pending while
    one runs and triggers are processed; a removed rule rests in [Idle]
    with nothing pending. *)
Definition consistent (sys : System) : Prop :=
  inFlight sys = (if running (sched sys) then 1 else 0)%nat
  ∧ (status (sched sys) = Syncing → running (sched sys) = true)
  ∧ (rerunRequested (sched sys) = true →
     running (sched sys) = true ∧ live (sched sys))
  ∧ (removed (sched sys) = true →
     status (sched sys) = Idle ∧ rerunRequested (sched sys) = false).

End Scheduler.

(** ** Everything that writes to the store *)

(** The three pushes the store subscribes to. *)
Inductive Incoming :=
  | StatusEvent (data : FolderSyncStatusEvent)
  | ConflictEvent (data : FolderSyncConflictEvent)
  | ErrorEvent (data : FolderSyncErrorEvent).

Definition receive (s : FolderSyncStore) (e : Incoming) : FolderSyncStore :=
  match e with
  | StatusEvent data => onStatusEvent data s
  | ConflictEvent data => onConflictEvent data s
  | ErrorEvent data => onErrorEvent data s
  end.

(** The store's actions, each with the way its RPC settles. *)
Inductive StoreAction :=
  | Receive (e : Incoming)
  | LoadRulesBegin
  | LoadRulesSettle (rpc : Outcome (list FolderSyncRule))
  | AddRule (rpc : Outcome FolderSyncRule)
  | UpdateRule (rpc : Outcome FolderSyncRule)
  | RemoveRule (rid : string) (rpc : Outcome unit)
  | ToggleRule (rpc : Outcome FolderSyncRule)
  | SyncNow (rpc : Outcome unit)
  | RefreshStatuses (rpc : Outcome (list FolderSyncState))
  | PreviewRuleBegin (rid : string)
  | PreviewRuleSettle (rpc : Outcome FolderSyncDiff)
  | ClearPreview
  | ClearConflicts (ruleId : option string)
  | RpcOnly            (* pickFolder, startAll, stopAll, pauseAll, resumeAll *)
  | SetFolderSyncPanelOpen (v : bool)
  | SetAddRuleDialogOpen (v : bool)
  | SetEditingRule (v : option FolderSyncRule).

Definition dispatch (s : FolderSyncStore) (a : StoreAction) : FolderSyncStore :=
  match a with
  | Receive e => receive s e
  | LoadRulesBegin => loadRules_begin s
  | LoadRulesSettle rpc => loadRules_settle rpc s
  | AddRule rpc => (addRule rpc s).1
  | UpdateRule rpc => (updateRule rpc s).1
  | RemoveRule rid rpc => (removeRule rid rpc s).1
  | ToggleRule rpc => (toggleRule rpc s).1
  | SyncNow rpc => (syncNow rpc s).1
  | RefreshStatuses rpc => (refreshStatuses rpc s).1
  | PreviewRuleBegin rid => previewRule_begin rid s
  | PreviewRuleSettle rpc => (previewRule_settle rpc s).1
  | ClearPreview => clearPreview s
  | ClearConflicts ruleId => clearConflicts ruleId s
  | RpcOnly => s
  | SetFolderSyncPanelOpen v => set_panelOpen v s
  | SetAddRuleDialogOpen v => set_addDialogOpen v s
  | SetEditingRule v => set_editingRule v s
  end.

(** What identifies a conflict record in the list: its rule and its path. *)
Definition conflictKey (c : FolderSyncConflict) : string * string :=
  (c_ruleId c, c_relativePath c).

Definition asConflictEvent (e : Incoming) : option FolderSyncConflictEvent :=
  match e with ConflictEvent data => Some data | _ => None end.

(** The most recent conflict event of a sequence of pushes, if any. *)
Definition lastConflictEvent (es : list Incoming) : option FolderSyncConflictEvent :=
  last (omap asConflictEvent es).

(** Why a store action may take a given conflict record, found at index [i],
    out of the list. *)
Definition mayDrop (a : StoreAction) (c : FolderSyncConflict) (i : nat) : Prop :=
  match a with
  | ClearConflicts ruleId => truthy ruleId = false ∨ ruleId = Some (c_ruleId c)
  | RemoveRule rid (Resolved _) => rid = c_ruleId c
  | Receive (ConflictEvent data) =>
      sameTarget data c ∨ (MAX_CONFLICTS ≤ S i)%nat
  | _ => False
  end.

(** A conflict event for rule ["r"] whose path is [n] letters long. *)
Definition sampleEvent (n : nat) (size : Z) : FolderSyncConflictEvent :=
  {| ce_ruleId := "r";
     ce_relativePath := String.concat "" (replicate n "a");
     ce_localSize := size; ce_localMtime := 0;
     ce_remoteSize := 0; ce_remoteLastModified := "" |}.

(** Sample data used to exercise the statements below. *)
Definition sampleConflict : FolderSyncConflict :=
  conflictOfEvent (sampleEvent 1 10).

Definition sampleRule (rid : string) (poll : Z) : FolderSyncRule :=
  {| id := rid; profileId := "profile"; bucket := "photos";
     bucketPrefix := ""; localPath := "/home/user/Photos";
     direction := Bidirectional; enabled := true;
     conflictResolution := NewerWins; pollIntervalMs := poll;
     excludePatterns := [".DS_Store"];
     lastSyncAt := None; lastSyncStatus := None; lastSyncError := None;
     createdAt := "2026-01-01T00:00:00.000Z" |}.

Definition sampleStore : FolderSyncStore :=
  {| rules := [sampleRule "r" 30000; sampleRule "q" 60000];
     statuses :=
       {[ "r" := {| st_ruleId := "r"; st_status := Syncing;
                    st_filesWatching := 3; st_lastChange := None;
                    st_currentFile := None; st_progress := None |} ]};
     conflicts := [sampleConflict];
     errors := {[ "r" := "listing failed" ]};
     loading := false; previewDiff := None; previewRuleId := None;
     folderSyncPanelOpen := true; addRuleDialogOpen := false;
     editingRule := None |}.

(** Conflict events for paths of [n], [n-1], ..., 1 letters, oldest first. *)
Definition burst (n : nat) : list Incoming :=
  (λ k, ConflictEvent (sampleEvent k 0)) <$> seq 1 n.

(** The example of section 8: baseline, local and remote entries for [f]. *)
Definition exampleBaseline : FolderSyncFileRecord :=
  {| rec_relativePath := "f"; rec_localMtime := 1700000000000;
     rec_localSize := 10; rec_remoteEtag := "etag-1";
     rec_remoteLastModified := "2026-01-01T00:00:00.000Z";
     rec_remoteSize := 10; rec_syncedAt := "2026-01-01T00:00:05.000Z" |}.

Definition exampleLocal : Differ.LocalEntry :=
  {| Differ.l_size := 10; Differ.l_mtime := 1700000000000 |}.

Definition exampleRemote : Differ.RemoteEntry :=
  {| Differ.r_size := 20; Differ.r_etag := "etag-2";
     Differ.r_lastModified := "2026-02-01T00:00:00.000Z" |}.

(** One way of completing the Differ: every pattern that section 4.1 leaves
    open is counted as unchanged. *)
Definition leaveAlone (b : option FolderSyncFileRecord)
    (l : option Differ.LocalEntry) (r : option Differ.RemoteEntry)
    : option (FolderSyncAction * string) := None.

(** ** Strings: [split], [pop] and [join] as the components use them *)

Module Text.

(** [s.split(sep)] for a one-character separator: always at least one
    piece. *)
Fixpoint splitOn (sep : ascii) (s : string) : list string :=
  match s with
  | EmptyString => [EmptyString]
  | String c rest =>
      if Ascii.eqb c sep then EmptyString :: splitOn sep rest
      else match splitOn sep rest with
           | piece :: pieces => String c piece :: pieces
           | [] => [String c EmptyString]
           end
  end.

(** Whether a character occurs in a string. *)
Fixpoint occurs (c : ascii) (s : string) : bool :=
  match s with
  | EmptyString => false
  | String c' rest => Ascii.eqb c' c || occurs c rest
  end.

Definition SLASH : ascii := "/"%char.

(** [path.split("/").pop()]: the array is never empty, so [pop] always
    yields a string. *)
Definition lastSegment (path : string) : string :=
  default "" (last (splitOn SLASH path)).

End Text.

(** ** The panel's list: what [FolderSyncPanel] derives from the store *)

Module PanelView.

(** [conflictCountByRule]: one pass over the conflicts,
    [counts.set(ruleId, (counts.get(ruleId) ?? 0) + 1)]. *)
Definition countStep (counts : gmap string nat) (c : FolderSyncConflict)
    : gmap string nat :=
  <[c_ruleId c := (default 0 (counts !! c_ruleId c) + 1)%nat]> counts.

Definition conflictCountByRule (cs : list FolderSyncConflict) : gmap string nat :=
  foldl countStep ∅ cs.

(** [ruleConflictCount = conflictCountByRule.get(rule.id) ?? 0] *)
Definition ruleConflictCount (cs : list FolderSyncConflict) (rule : FolderSyncRule)
    : nat :=
  default 0%nat (conflictCountByRule cs !! id rule).

(** The per-rule badge and "Clear conflicts" button: [ruleConflictCount > 0]. *)
Definition showRuleConflicts (cs : list FolderSyncConflict) (rule : FolderSyncRule)
    : bool :=
  bool_decide (0 < ruleConflictCount cs rule)%nat.

(** [rulesById = new Map(rules.map(rule => [rule.id, rule]))]: entries are
    set in list order, so a later rule with the same id replaces an earlier
    one. *)
Definition rulesById (rs : list FolderSyncRule) : gmap string FolderSyncRule :=
  foldl (λ m r, <[id r := r]> m) ∅ rs.

(** The rule name in the "Recent conflicts" list:
    [rule?.localPath.split("/").pop() ?? conflict.ruleId]. *)
Definition conflictRuleName (rs : list FolderSyncRule) (c : FolderSyncConflict)
    : string :=
  match rulesById rs !! c_ruleId c with
  | Some rule => Text.lastSegment (localPath rule)
  | None => c_ruleId c
  end.

(** The title of a rule card:
    [rule.localPath.split("/").pop() || rule.localPath]. *)
Definition cardRuleName (rule : FolderSyncRule) : string :=
  if decide (Text.lastSegment (localPath rule) = "")
  then localPath rule
  else Text.lastSegment (localPath rule).

(** The progress bar of a card is rendered when
    [status === "syncing" && progress && progress.total > 0]. *)
Definition showProgress (s : FolderSyncStore) (rule : FolderSyncRule) : bool :=
  bool_decide (getRuleStatus (id rule) s = Syncing)
  && match statuses s !! id rule ≫= st_progress with
     | Some p => bool_decide (0 < total p)
     | None => false
     end.

End PanelView.

(** ** The rule editor's buttons *)

Module EditorView.

(** The save button:
    [disabled={saving || !profileId || !bucket || !localPath}]. *)
Definition saveDisabled (st : Editor.EditorState) : bool :=
  Editor.ed_saving st
  || bool_decide (Editor.ed_profileId st = "")
  || bool_decide (Editor.ed_bucket st = "")
  || bool_decide (Editor.ed_localPath st = "").

(** A click on the save button; a disabled button dispatches nothing. *)
Definition clickSave (editRule : option FolderSyncRule) (st : Editor.EditorState)
    (rpc : Outcome unit) : list Editor.Effect :=
  if saveDisabled st then [] else Editor.handleSave editRule st rpc.

End EditorView.

(** ** The object browser's store: [useObjectStore] *)

Module ObjectStore.

(** [s3.types.ts] *)
Record S3Object := {
  o_key : string;
  o_size : Z;
  o_lastModified : string;
  o_etag : string;
  o_storageClass : option string
}.

Record S3Prefix := { p_prefix : string }.

Inductive SortField := ByKey | BySize | ByLastModified.
Inductive SortDir := Asc | Desc.

#[global] Instance SortField_eq_dec : EqDecision SortField.
Proof. solve_decision. Defined.
#[global] Instance SortDir_eq_dec : EqDecision SortDir.
Proof. solve_decision. Defined.

Record ObjectListRes := {
  res_objects : list S3Object;
  res_prefixes : list S3Prefix;
  res_isTruncated : bool;
  res_nextCursor : option string;
  res_totalCount : option Z
}.

Inductive FileTypeFilter :=
  FtAll | FtFolders | FtImages | FtDocuments | FtArchives | FtOther.
Inductive SizeFilter := SzAny | SzLt1mb | Sz1to10mb | Sz10to100mb | SzGt100mb.
Inductive DateType := DtAny | DtToday | DtWeek | DtMonth | DtCustom.

Record DateFilter := {
  date_type : DateType;
  date_from : option string;
  date_to : option string
}.

Record ObjectFilters := {
  f_fileType : FileTypeFilter;
  f_size : SizeFilter;
  f_date : DateFilter;
  f_search : string
}.

Definition defaultFilters : ObjectFilters :=
  {| f_fileType := FtAll; f_size := SzAny;
     f_date := {| date_type := DtAny; date_from := None; date_to := None |};
     f_search := "" |}.

Record ObjectState := {
  objects : list S3Object;
  prefixes : list S3Prefix;
  loading : bool;
  error : option string;
  currentPrefix : string;
  prefixHistory : list string;
  isTruncated : bool;
  nextCursor : option string;
  pageHistory : list string;
  sortField : SortField;
  sortDir : SortDir;
  filters : ObjectFilters;
  selectedKeys : gset string
}.

Definition initialState : ObjectState :=
  {| objects := []; prefixes := []; loading := false; error := None;
     currentPrefix := ""; prefixHistory := []; isTruncated := false;
     nextCursor := None; pageHistory := []; sortField := ByKey;
     sortDir := Asc; filters := defaultFilters; selectedKeys := ∅ |}.

(** [loadObjects], up to the [await]: [set({loading: true, error: null})]. *)
Definition loadObjects_begin (s : ObjectState) : ObjectState :=
  {| objects := objects s; prefixes := prefixes s; loading := true;
     error := None; currentPrefix := currentPrefix s;
     prefixHistory := prefixHistory s; isTruncated := isTruncated s;
     nextCursor := nextCursor s; pageHistory := pageHistory s;
     sortField := sortField s; sortDir := sortDir s; filters := filters s;
     selectedKeys := selectedKeys s |}.

(** [loadObjects], after the [await]: the listing replaces the shown one
    and the selection is emptied; a rejection only records
    [err instanceof Error ? err.message : "Unknown error"]. *)
Definition loadObjects_settle (rpc : Outcome ObjectListRes) (s : ObjectState)
    : ObjectState :=
  match rpc with
  | Resolved result =>
      {| objects := res_objects result; prefixes := res_prefixes result;
         loading := false; error := error s;
         currentPrefix := currentPrefix s; prefixHistory := prefixHistory s;
         isTruncated := res_isTruncated result;
         nextCursor := res_nextCursor result; pageHistory := pageHistory s;
         sortField := sortField s; sortDir := sortDir s; filters := filters s;
         selectedKeys := ∅ |}
  | Rejected err =>
      {| objects := objects s; prefixes := prefixes s; loading := false;
         error := Some (errorMessage err); currentPrefix := currentPrefix s;
         prefixHistory := prefixHistory s; isTruncated := isTruncated s;
         nextCursor := nextCursor s; pageHistory := pageHistory s;
         sortField := sortField s; sortDir := sortDir s; filters := filters s;
         selectedKeys := selectedKeys s |}
  end.

(** [loadObjects] as a whole. *)
Definition loadObjects (rpc : Outcome ObjectListRes) (s : ObjectState)
    : ObjectState :=
  loadObjects_settle rpc (loadObjects_begin s).

(** [navigateToPrefix] *)
Definition navigateToPrefix (prefix : string) (s : ObjectState) : ObjectState :=
  {| objects := objects s; prefixes := prefixes s; loading := loading s;
     error := error s; currentPrefix := prefix;
     prefixHistory := prefixHistory s ++ [currentPrefix s];
     isTruncated := isTruncated s; nextCursor := nextCursor s;
     pageHistory := []; sortField := sortField s; sortDir := sortDir s;
     filters := filters s; selectedKeys := ∅ |}.

(** [navigateBack]: nothing happens on an empty history; otherwise
    [history[history.length - 1]] becomes current and
    [history.slice(0, -1)] remains. *)
Definition navigateBack (s : ObjectState) : ObjectState :=
  match last (prefixHistory s) with
  | None => s
  | Some previous =>
      {| objects := objects s; prefixes := prefixes s; loading := loading s;
         error := error s; currentPrefix := previous;
         prefixHistory :=
           take (length (prefixHistory s) - 1) (prefixHistory s);
         isTruncated := isTruncated s; nextCursor := nextCursor s;
         pageHistory := []; sortField := sortField s; sortDir := sortDir s;
         filters := filters s; selectedKeys := ∅ |}
  end.

(** [setSort]: the same field flips the direction, another field starts
    ascending. *)
Definition setSort (field : SortField) (s : ObjectState) : ObjectState :=
  {| objects := objects s; prefixes := prefixes s; loading := loading s;
     error := error s; currentPrefix := currentPrefix s;
     prefixHistory := prefixHistory s; isTruncated := isTruncated s;
     nextCursor := nextCursor s; pageHistory := pageHistory s;
     sortField := field;
     sortDir :=
       if decide (sortField s = field)
       then (if decide (sortDir s = Asc) then Desc else Asc)
       else Asc;
     filters := filters s; selectedKeys := selectedKeys s |}.

(** [Partial<ObjectFilters>]: [None] is an absent key.  (A key present with
    value [undefined] would not be an [ObjectFilters] any more and is not
    represented.) *)
Record PartialFilters := {
  pf_fileType : option FileTypeFilter;
  pf_size : option SizeFilter;
  pf_date : option DateFilter;
  pf_search : option string
}.

(** [setFilters]: [{ ...s.filters, ...partial }]. *)
Definition setFilters (partial : PartialFilters) (s : ObjectState) : ObjectState :=
  {| objects := objects s; prefixes := prefixes s; loading := loading s;
     error := error s; currentPrefix := currentPrefix s;
     prefixHistory := prefixHistory s; isTruncated := isTruncated s;
     nextCursor := nextCursor s; pageHistory := pageHistory s;
     sortField := sortField s; sortDir := sortDir s;
     filters :=
       {| f_fileType := default (f_fileType (filters s)) (pf_fileType partial);
          f_size := default (f_size (filters s)) (pf_size partial);
          f_date := default (f_date (filters s)) (pf_date partial);
          f_search := default (f_search (filters s)) (pf_search partial) |};
     selectedKeys := selectedKeys s |}.

Definition with_selectedKeys (v : gset string) (s : ObjectState) : ObjectState :=
  {| objects := objects s; prefixes := prefixes s; loading := loading s;
     error := error s; currentPrefix := currentPrefix s;
     prefixHistory := prefixHistory s; isTruncated := isTruncated s;
     nextCursor := nextCursor s; pageHistory := pageHistory s;
     sortField := sortField s; sortDir := sortDir s; filters := filters s;
     selectedKeys := v |}.

(** [toggleSelect] *)
Definition toggleSelect (key : string) (s : ObjectState) : ObjectState :=
  with_selectedKeys
    (if decide (key ∈ selectedKeys s)
     then selectedKeys s ∖ {[key]}
     else selectedKeys s ∪ {[key]})
    s.

(** [selectAll]: the keys of the shown objects and the shown prefixes. *)
Definition selectAll (s : ObjectState) : ObjectState :=
  with_selectedKeys
    (list_to_set ((o_key <$> objects s) ++ (p_prefix <$> prefixes s)))
    s.

(** [clearSelection] *)
Definition clearSelection (s : ObjectState) : ObjectState :=
  with_selectedKeys ∅ s.

(** [reset]: every field named in the [set] call; [sortField] and [sortDir]
    are not among them. *)
Definition reset (s : ObjectState) : ObjectState :=
  {| objects := []; prefixes := []; loading := false; error := None;
     currentPrefix := ""; prefixHistory := []; isTruncated := false;
     nextCursor := None; pageHistory := []; sortField := sortField s;
     sortDir := sortDir s; filters := defaultFilters; selectedKeys := ∅ |}.

(** What the browser can do to the store. *)
Inductive Action :=
  | LoadObjects (rpc : Outcome ObjectListRes)
  | NavigateToPrefix (prefix : string)
  | NavigateBack
  | SetSort (field : SortField)
  | ToggleSelect (key : string)
  | SelectAll
  | ClearSelection
  | Reset
  | SetFilters (partial : PartialFilters).

Definition act (s : ObjectState) (a : Action) : ObjectState :=
  match a with
  | LoadObjects rpc => loadObjects rpc s
  | NavigateToPrefix p => navigateToPrefix p s
  | NavigateBack => navigateBack s
  | SetSort f => setSort f s
  | ToggleSelect k => toggleSelect k s
  | SelectAll => selectAll s
  | ClearSelection => clearSelection s
  | Reset => reset s
  | SetFilters partial => setFilters partial s
  end.

End ObjectStore.

(** ** Event subscriptions: [lib/rpc-client.ts] *)

Module RpcClient.

(** The keys of [RPCEvents]. *)
Inductive EventName :=
  | EvJobProgress
  | EvJobComplete
  | EvUpdateAvailable
  | EvFolderSyncStatus
  | EvFolderSyncConflict
  | EvFolderSyncError.

#[global] Instance EventName_eq_dec : EqDecision EventName.
Proof. solve_decision. Defined.

Definition eventIndex (e : EventName) : nat :=
  match e with
  | EvJobProgress => 0 | EvJobComplete => 1 | EvUpdateAvailable => 2
  | EvFolderSyncStatus => 3 | EvFolderSyncConflict => 4
  | EvFolderSyncError => 5
  end.

Definition eventOfIndex (n : nat) : option EventName :=
  match n with
  | 0 => Some EvJobProgress | 1 => Some EvJobComplete
  | 2 => Some EvUpdateAvailable | 3 => Some EvFolderSyncStatus
  | 4 => Some EvFolderSyncConflict | 5 => Some EvFolderSyncError
  | _ => None
  end%nat.

#[global] Instance EventName_countable : Countable EventName.
Proof.
  apply (inj_countable eventIndex eventOfIndex). by intros [].
Defined.

(** A handler is a function object; the registry only uses its identity. *)
Definition Handler := nat.

(** A JavaScript [Set] of handlers in insertion order. *)
Definition setAdd (h : Handler) (l : list Handler) : list Handler :=
  if decide (h ∈ l) then l else l ++ [h].

Definition setDelete (h : Handler) (l : list Handler) : list Handler :=
  filter (λ h', h' ≠ h) l.

(** The two module-level maps.  Of [tauriUnlisteners] only the key set
    matters to this code. *)
Record Registry := {
  eventListeners : gmap EventName (list Handler);
  tauriUnlisteners : gset EventName
}.

Definition emptyRegistry : Registry :=
  {| eventListeners := ∅; tauriUnlisteners := ∅ |}.

(** Calls made to the native event API. *)
Inductive Native := Listen (e : EventName) | Unlisten (e : EventName).

(** [ensureTauriListener] *)
Definition ensureTauriListener (e : EventName) (t : gset EventName)
    : gset EventName * list Native :=
  if decide (e ∈ t) then (t, []) else ({[e]} ∪ t, [Listen e]).

(** [cleanupTauriListener] *)
Definition cleanupTauriListener (e : EventName)
    (ls : gmap EventName (list Handler)) (t : gset EventName)
    : gset EventName * list Native :=
  match ls !! e with
  | Some (_ :: _) => (t, [])
  | _ => if decide (e ∈ t) then (t ∖ {[e]}, [Unlisten e]) else (t, [])
  end.

(** [onEvent(event, handler)]; the closure it returns is [unsubscribe] at
    the same event and handler. *)
Definition onEvent (e : EventName) (h : Handler) (r : Registry)
    : Registry * list Native :=
  let ls :=
    match eventListeners r !! e with
    | Some _ => eventListeners r
    | None => <[e := []]> (eventListeners r)
    end in
  let ls' := alter (setAdd h) e ls in
  let '(t, calls) := ensureTauriListener e (tauriUnlisteners r) in
  ({| eventListeners := ls'; tauriUnlisteners := t |}, calls).

Definition unsubscribe (e : EventName) (h : Handler) (r : Registry)
    : Registry * list Native :=
  let ls' := alter (setDelete h) e (eventListeners r) in
  let '(t, calls) := cleanupTauriListener e ls' (tauriUnlisteners r) in
  ({| eventListeners := ls'; tauriUnlisteners := t |}, calls).

(** [dispatchEvent]: the handlers it calls, in order; a handler that throws
    does not stop the loop. *)
Definition dispatchEvent (e : EventName) (r : Registry) : list Handler :=
  default [] (eventListeners r !! e).

Inductive Op :=
  | Subscribe (e : EventName) (h : Handler)
  | Unsubscribe (e : EventName) (h : Handler).

Definition perform (r : Registry) (o : Op) : Registry :=
  match o with
  | Subscribe e h => (onEvent e h r).1
  | Unsubscribe e h => (unsubscribe e h r).1
  end.

(** The native listener of an event is registered exactly while the event
    has handlers, and no handler is held twice. *)
Definition wellFormed (r : Registry) : Prop :=
  ∀ e, (e ∈ tauriUnlisteners r ↔ dispatchEvent e r ≠ [])
       ∧ NoDup (dispatchEvent e r).

(** [useFolderSyncStore.init]: guarded by the module-level [initialized]
    flag, it subscribes one new handler to each folder-sync event.  The
    three closures created by one call are [fresh], [fresh + 1] and
    [fresh + 2]. *)
Definition storeInit (fresh : Handler) (st : bool * Registry) : bool * Registry :=
  let '(initialized, r) := st in
  if initialized then st
  else
    (true,
     (onEvent EvFolderSyncError (fresh + 2)%nat
        (onEvent EvFolderSyncConflict (fresh + 1)%nat
           (onEvent EvFolderSyncStatus fresh r).1).1).1).

End RpcClient.

(** ** Exclude patterns that survive a trip through the editor *)

Module Patterns.

(** A pattern as [parseExcludePatterns] produces it: not empty, without
    surrounding white space, on one line. *)
Definition clean (p : string) : Prop :=
  p ≠ "" ∧ Editor.trim p = p ∧ Text.occurs Editor.LF p = false.


(** The rule input that re-submits a rule as it is. *)
Definition inputOfRule (r : FolderSyncRule) : FolderSyncRuleInput :=
  {| in_profileId := profileId r;
     in_bucket := bucket r;
     in_bucketPrefix := bucketPrefix r;
     in_localPath := localPath r;
     in_direction := direction r;
     in_conflictResolution := conflictResolution r;
     in_pollIntervalMs := Some (pollIntervalMs r);
     in_excludePatterns := Some (excludePatterns r) |}.

End Patterns.

(** [loadRules] and [previewRule] as a whole: the writes before the
    [await], then the settling of the RPC. *)
Definition loadRules (rpc : Outcome (list FolderSyncRule)) (s : FolderSyncStore)
    : FolderSyncStore :=
  loadRules_settle rpc (loadRules_begin s).

Definition previewRule (rid : string) (rpc : Outcome FolderSyncDiff)
    (s : FolderSyncStore) : FolderSyncStore * Outcome unit :=
  previewRule_settle rpc (previewRule_begin rid s).

(** Further sample data. *)
Definition sampleForm : Editor.EditorState :=
  Editor.formAfter None
    [Editor.ChangeProfile "profile"; Editor.ChangeBucket "photos";
     Editor.ChangeLocalPath "/home/user/Photos"].

(** ** The UI store: [useUIStore] *)

Module UIStore.

(** [ViewMode] of [lib/constants.ts]. *)
Inductive ViewMode := TableView | GridView.
Inductive SyncEntryPreference := ObjectSync | LiveFolderSync.
Inductive FolderSyncListDensity := Comfortable | Compact.
Inductive TransferMode := CopyMode | MoveMode.

Record ShareTarget := {
  share_key : string;
  share_bucket : string;
  share_profileId : string
}.

Record TransferTarget := {
  transfer_keys : list string;
  transfer_defaultMode : option TransferMode
}.

Record UIState := {
  sidebarCollapsed : bool;
  viewMode : ViewMode;
  pageSize : Z;
  jobPanelOpen : bool;
  syncDialogOpen : bool;
  syncChooserOpen : bool;
  syncEntryPreference : option SyncEntryPreference;
  shareDialogOpen : bool;
  shareTarget : option ShareTarget;
  transferDialogOpen : bool;
  transferTarget : option TransferTarget;
  detailKey : option string;
  shareHistoryOpen : bool;
  settingsOpen : bool;
  desktopNotifications : bool;
  persistShareHistory : bool;
  jobConcurrency : Z;
  sidebarWidth : Z;
  detailPanelWidth : Z;
  folderSyncPanelOpen : bool;
  folderSyncListDensity : FolderSyncListDensity
}.

Definition initialState : UIState :=
  {| sidebarCollapsed := false; viewMode := TableView; pageSize := 100;
     jobPanelOpen := false; syncDialogOpen := false;
     syncChooserOpen := false; syncEntryPreference := None;
     shareDialogOpen := false; shareTarget := None;
     transferDialogOpen := false; transferTarget := None; detailKey := None;
     shareHistoryOpen := false; settingsOpen := false;
     desktopNotifications := true; persistShareHistory := false;
     jobConcurrency := 3; sidebarWidth := 256; detailPanelWidth := 320;
     folderSyncPanelOpen := false; folderSyncListDensity := Comfortable |}.

(** [toggleSidebar] *)
Definition toggleSidebar (s : UIState) : UIState :=
  {| sidebarCollapsed := negb (sidebarCollapsed s); viewMode := viewMode s;
     pageSize := pageSize s; jobPanelOpen := jobPanelOpen s;
     syncDialogOpen := syncDialogOpen s;
     syncChooserOpen := syncChooserOpen s;
     syncEntryPreference := syncEntryPreference s;
     shareDialogOpen := shareDialogOpen s; shareTarget := shareTarget s;
     transferDialogOpen := transferDialogOpen s;
     transferTarget := transferTarget s; detailKey := detailKey s;
     shareHistoryOpen := shareHistoryOpen s; settingsOpen := settingsOpen s;
     desktopNotifications := desktopNotifications s;
     persistShareHistory := persistShareHistory s;
     jobConcurrency := jobConcurrency s; sidebarWidth := sidebarWidth s;
     detailPanelWidth := detailPanelWidth s;
     folderSyncPanelOpen := folderSyncPanelOpen s;
     folderSyncListDensity := folderSyncListDensity s |}.

(** [setViewMode] *)
Definition setViewMode (mode : ViewMode) (s : UIState) : UIState :=
  {| sidebarCollapsed := sidebarCollapsed s; viewMode := mode;
     pageSize := pageSize s; jobPanelOpen := jobPanelOpen s;
     syncDialogOpen := syncDialogOpen s;
     syncChooserOpen := syncChooserOpen s;
     syncEntryPreference := syncEntryPreference s;
     shareDialogOpen := shareDialogOpen s; shareTarget := shareTarget s;
     transferDialogOpen := transferDialogOpen s;
     transferTarget := transferTarget s; detailKey := detailKey s;
     shareHistoryOpen := shareHistoryOpen s; settingsOpen := settingsOpen s;
     desktopNotifications := desktopNotifications s;
     persistShareHistory := persistShareHistory s;
     jobConcurrency := jobConcurrency s; sidebarWidth := sidebarWidth s;
     detailPanelWidth := detailPanelWidth s;
     folderSyncPanelOpen := folderSyncPanelOpen s;
     folderSyncListDensity := folderSyncListDensity s |}.

(** [setPageSize] *)
Definition setPageSize (v : Z) (s : UIState) : UIState :=
  {| sidebarCollapsed := sidebarCollapsed s; viewMode := viewMode s;
     pageSize := v; jobPanelOpen := jobPanelOpen s;
     syncDialogOpen := syncDialogOpen s;
     syncChooserOpen := syncChooserOpen s;
     syncEntryPreference := syncEntryPreference s;
     shareDialogOpen := shareDialogOpen s; shareTarget := shareTarget s;
     transferDialogOpen := transferDialogOpen s;
     transferTarget := transferTarget s; detailKey := detailKey s;
     shareHistoryOpen := shareHistoryOpen s; settingsOpen := settingsOpen s;
     desktopNotifications := desktopNotifications s;
     persistShareHistory := persistShareHistory s;
     jobConcurrency := jobConcurrency s; sidebarWidth := sidebarWidth s;
     detailPanelWidth := detailPanelWidth s;
     folderSyncPanelOpen := folderSyncPanelOpen s;
     folderSyncListDensity := folderSyncListDensity s |}.

(** [setJobPanelOpen] *)
Definition setJobPanelOpen (v : bool) (s : UIState) : UIState :=
  {| sidebarCollapsed := sidebarCollapsed s; viewMode := viewMode s;
     pageSize := pageSize s; jobPanelOpen := v;
     syncDialogOpen := syncDialogOpen s;
     syncChooserOpen := syncChooserOpen s;
     syncEntryPreference := syncEntryPreference s;
     shareDialogOpen := shareDialogOpen s; shareTarget := shareTarget s;
     transferDialogOpen := transferDialogOpen s;
     transferTarget := transferTarget s; detailKey := detailKey s;
     shareHistoryOpen := shareHistoryOpen s; settingsOpen := settingsOpen s;
     desktopNotifications := desktopNotifications s;
     persistShareHistory := persistShareHistory s;
     jobConcurrency := jobConcurrency s; sidebarWidth := sidebarWidth s;
     detailPanelWidth := detailPanelWidth s;
     folderSyncPanelOpen := folderSyncPanelOpen s;
     folderSyncListDensity := folderSyncListDensity s |}.

(** [setSyncDialogOpen] *)
Definition setSyncDialogOpen (v : bool) (s : UIState) : UIState :=
  {| sidebarCollapsed := sidebarCollapsed s; viewMode := viewMode s;
     pageSize := pageSize s; jobPanelOpen := jobPanelOpen s;
     syncDialogOpen := v; syncChooserOpen := syncChooserOpen s;
     syncEntryPreference := syncEntryPreference s;
     shareDialogOpen := shareDialogOpen s; shareTarget := shareTarget s;
     transferDialogOpen := transferDialogOpen s;
     transferTarget := transferTarget s; detailKey := detailKey s;
     shareHistoryOpen := shareHistoryOpen s; settingsOpen := settingsOpen s;
     desktopNotifications := desktopNotifications s;
     persistShareHistory := persistShareHistory s;
     jobConcurrency := jobConcurrency s; sidebarWidth := sidebarWidth s;
     detailPanelWidth := detailPanelWidth s;
     folderSyncPanelOpen := folderSyncPanelOpen s;
     folderSyncListDensity := folderSyncListDensity s |}.

(** [openSyncChooser] *)
Definition openSyncChooser (s : UIState) : UIState :=
  {| sidebarCollapsed := sidebarCollapsed s; viewMode := viewMode s;
     pageSize := pageSize s; jobPanelOpen := jobPanelOpen s;
     syncDialogOpen := syncDialogOpen s; syncChooserOpen := true;
     syncEntryPreference := syncEntryPreference s;
     shareDialogOpen := shareDialogOpen s; shareTarget := shareTarget s;
     transferDialogOpen := transferDialogOpen s;
     transferTarget := transferTarget s; detailKey := detailKey s;
     shareHistoryOpen := shareHistoryOpen s; settingsOpen := settingsOpen s;
     desktopNotifications := desktopNotifications s;
     persistShareHistory := persistShareHistory s;
     jobConcurrency := jobConcurrency s; sidebarWidth := sidebarWidth s;
     detailPanelWidth := detailPanelWidth s;
     folderSyncPanelOpen := folderSyncPanelOpen s;
     folderSyncListDensity := folderSyncListDensity s |}.

(** [closeSyncChooser] *)
Definition closeSyncChooser (s : UIState) : UIState :=
  {| sidebarCollapsed := sidebarCollapsed s; viewMode := viewMode s;
     pageSize := pageSize s; jobPanelOpen := jobPanelOpen s;
     syncDialogOpen := syncDialogOpen s; syncChooserOpen := false;
     syncEntryPreference := syncEntryPreference s;
     shareDialogOpen := shareDialogOpen s; shareTarget := shareTarget s;
     transferDialogOpen := transferDialogOpen s;
     transferTarget := transferTarget s; detailKey := detailKey s;
     shareHistoryOpen := shareHistoryOpen s; settingsOpen := settingsOpen s;
     desktopNotifications := desktopNotifications s;
     persistShareHistory := persistShareHistory s;
     jobConcurrency := jobConcurrency s; sidebarWidth := sidebarWidth s;
     detailPanelWidth := detailPanelWidth s;
     folderSyncPanelOpen := folderSyncPanelOpen s;
     folderSyncListDensity := folderSyncListDensity s |}.

(** [setSyncEntryPreference] *)
Definition setSyncEntryPreference (v : option SyncEntryPreference) (s : UIState) : UIState :=
  {| sidebarCollapsed := sidebarCollapsed s; viewMode := viewMode s;
     pageSize := pageSize s; jobPanelOpen := jobPanelOpen s;
     syncDialogOpen := syncDialogOpen s;
     syncChooserOpen := syncChooserOpen s; syncEntryPreference := v;
     shareDialogOpen := shareDialogOpen s; shareTarget := shareTarget s;
     transferDialogOpen := transferDialogOpen s;
     transferTarget := transferTarget s; detailKey := detailKey s;
     shareHistoryOpen := shareHistoryOpen s; settingsOpen := settingsOpen s;
     desktopNotifications := desktopNotifications s;
     persistShareHistory := persistShareHistory s;
     jobConcurrency := jobConcurrency s; sidebarWidth := sidebarWidth s;
     detailPanelWidth := detailPanelWidth s;
     folderSyncPanelOpen := folderSyncPanelOpen s;
     folderSyncListDensity := folderSyncListDensity s |}.

(** [openShareDialog] *)
Definition openShareDialog (target : ShareTarget) (s : UIState) : UIState :=
  {| sidebarCollapsed := sidebarCollapsed s; viewMode := viewMode s;
     pageSize := pageSize s; jobPanelOpen := jobPanelOpen s;
     syncDialogOpen := syncDialogOpen s;
     syncChooserOpen := syncChooserOpen s;
     syncEntryPreference := syncEntryPreference s; shareDialogOpen := true;
     shareTarget := Some target; transferDialogOpen := transferDialogOpen s;
     transferTarget := transferTarget s; detailKey := detailKey s;
     shareHistoryOpen := shareHistoryOpen s; settingsOpen := settingsOpen s;
     desktopNotifications := desktopNotifications s;
     persistShareHistory := persistShareHistory s;
     jobConcurrency := jobConcurrency s; sidebarWidth := sidebarWidth s;
     detailPanelWidth := detailPanelWidth s;
     folderSyncPanelOpen := folderSyncPanelOpen s;
     folderSyncListDensity := folderSyncListDensity s |}.

(** [closeShareDialog] *)
Definition closeShareDialog (s : UIState) : UIState :=
  {| sidebarCollapsed := sidebarCollapsed s; viewMode := viewMode s;
     pageSize := pageSize s; jobPanelOpen := jobPanelOpen s;
     syncDialogOpen := syncDialogOpen s;
     syncChooserOpen := syncChooserOpen s;
     syncEntryPreference := syncEntryPreference s; shareDialogOpen := false;
     shareTarget := None; transferDialogOpen := transferDialogOpen s;
     transferTarget := transferTarget s; detailKey := detailKey s;
     shareHistoryOpen := shareHistoryOpen s; settingsOpen := settingsOpen s;
     desktopNotifications := desktopNotifications s;
     persistShareHistory := persistShareHistory s;
     jobConcurrency := jobConcurrency s; sidebarWidth := sidebarWidth s;
     detailPanelWidth := detailPanelWidth s;
     folderSyncPanelOpen := folderSyncPanelOpen s;
     folderSyncListDensity := folderSyncListDensity s |}.

(** [openTransferDialog] *)
Definition openTransferDialog (target : TransferTarget) (s : UIState) : UIState :=
  {| sidebarCollapsed := sidebarCollapsed s; viewMode := viewMode s;
     pageSize := pageSize s; jobPanelOpen := jobPanelOpen s;
     syncDialogOpen := syncDialogOpen s;
     syncChooserOpen := syncChooserOpen s;
     syncEntryPreference := syncEntryPreference s;
     shareDialogOpen := shareDialogOpen s; shareTarget := shareTarget s;
     transferDialogOpen := true; transferTarget := Some target;
     detailKey := detailKey s; shareHistoryOpen := shareHistoryOpen s;
     settingsOpen := settingsOpen s;
     desktopNotifications := desktopNotifications s;
     persistShareHistory := persistShareHistory s;
     jobConcurrency := jobConcurrency s; sidebarWidth := sidebarWidth s;
     detailPanelWidth := detailPanelWidth s;
     folderSyncPanelOpen := folderSyncPanelOpen s;
     folderSyncListDensity := folderSyncListDensity s |}.

(** [closeTransferDialog] *)
Definition closeTransferDialog (s : UIState) : UIState :=
  {| sidebarCollapsed := sidebarCollapsed s; viewMode := viewMode s;
     pageSize := pageSize s; jobPanelOpen := jobPanelOpen s;
     syncDialogOpen := syncDialogOpen s;
     syncChooserOpen := syncChooserOpen s;
     syncEntryPreference := syncEntryPreference s;
     shareDialogOpen := shareDialogOpen s; shareTarget := shareTarget s;
     transferDialogOpen := false; transferTarget := None;
     detailKey := detailKey s; shareHistoryOpen := shareHistoryOpen s;
     settingsOpen := settingsOpen s;
     desktopNotifications := desktopNotifications s;
     persistShareHistory := persistShareHistory s;
     jobConcurrency := jobConcurrency s; sidebarWidth := sidebarWidth s;
     detailPanelWidth := detailPanelWidth s;
     folderSyncPanelOpen := folderSyncPanelOpen s;
     folderSyncListDensity := folderSyncListDensity s |}.

(** [setDetailKey] *)
Definition setDetailKey (v : option string) (s : UIState) : UIState :=
  {| sidebarCollapsed := sidebarCollapsed s; viewMode := viewMode s;
     pageSize := pageSize s; jobPanelOpen := jobPanelOpen s;
     syncDialogOpen := syncDialogOpen s;
     syncChooserOpen := syncChooserOpen s;
     syncEntryPreference := syncEntryPreference s;
     shareDialogOpen := shareDialogOpen s; shareTarget := shareTarget s;
     transferDialogOpen := transferDialogOpen s;
     transferTarget := transferTarget s; detailKey := v;
     shareHistoryOpen := shareHistoryOpen s; settingsOpen := settingsOpen s;
     desktopNotifications := desktopNotifications s;
     persistShareHistory := persistShareHistory s;
     jobConcurrency := jobConcurrency s; sidebarWidth := sidebarWidth s;
     detailPanelWidth := detailPanelWidth s;
     folderSyncPanelOpen := folderSyncPanelOpen s;
     folderSyncListDensity := folderSyncListDensity s |}.

(** [setShareHistoryOpen] *)
Definition setShareHistoryOpen (v : bool) (s : UIState) : UIState :=
  {| sidebarCollapsed := sidebarCollapsed s; viewMode := viewMode s;
     pageSize := pageSize s; jobPanelOpen := jobPanelOpen s;
     syncDialogOpen := syncDialogOpen s;
     syncChooserOpen := syncChooserOpen s;
     syncEntryPreference := syncEntryPreference s;
     shareDialogOpen := shareDialogOpen s; shareTarget := shareTarget s;
     transferDialogOpen := transferDialogOpen s;
     transferTarget := transferTarget s; detailKey := detailKey s;
     shareHistoryOpen := v; settingsOpen := settingsOpen s;
     desktopNotifications := desktopNotifications s;
     persistShareHistory := persistShareHistory s;
     jobConcurrency := jobConcurrency s; sidebarWidth := sidebarWidth s;
     detailPanelWidth := detailPanelWidth s;
     folderSyncPanelOpen := folderSyncPanelOpen s;
     folderSyncListDensity := folderSyncListDensity s |}.

(** [setSettingsOpen] *)
Definition setSettingsOpen (v : bool) (s : UIState) : UIState :=
  {| sidebarCollapsed := sidebarCollapsed s; viewMode := viewMode s;
     pageSize := pageSize s; jobPanelOpen := jobPanelOpen s;
     syncDialogOpen := syncDialogOpen s;
     syncChooserOpen := syncChooserOpen s;
     syncEntryPreference := syncEntryPreference s;
     shareDialogOpen := shareDialogOpen s; shareTarget := shareTarget s;
     transferDialogOpen := transferDialogOpen s;
     transferTarget := transferTarget s; detailKey := detailKey s;
     shareHistoryOpen := shareHistoryOpen s; settingsOpen := v;
     desktopNotifications := desktopNotifications s;
     persistShareHistory := persistShareHistory s;
     jobConcurrency := jobConcurrency s; sidebarWidth := sidebarWidth s;
     detailPanelWidth := detailPanelWidth s;
     folderSyncPanelOpen := folderSyncPanelOpen s;
     folderSyncListDensity := folderSyncListDensity s |}.

(** [setDesktopNotifications] *)
Definition setDesktopNotifications (v : bool) (s : UIState) : UIState :=
  {| sidebarCollapsed := sidebarCollapsed s; viewMode := viewMode s;
     pageSize := pageSize s; jobPanelOpen := jobPanelOpen s;
     syncDialogOpen := syncDialogOpen s;
     syncChooserOpen := syncChooserOpen s;
     syncEntryPreference := syncEntryPreference s;
     shareDialogOpen := shareDialogOpen s; shareTarget := shareTarget s;
     transferDialogOpen := transferDialogOpen s;
     transferTarget := transferTarget s; detailKey := detailKey s;
     shareHistoryOpen := shareHistoryOpen s; settingsOpen := settingsOpen s;
     desktopNotifications := v; persistShareHistory := persistShareHistory s;
     jobConcurrency := jobConcurrency s; sidebarWidth := sidebarWidth s;
     detailPanelWidth := detailPanelWidth s;
     folderSyncPanelOpen := folderSyncPanelOpen s;
     folderSyncListDensity := folderSyncListDensity s |}.

(** [setPersistShareHistory] *)
Definition setPersistShareHistory (v : bool) (s : UIState) : UIState :=
  {| sidebarCollapsed := sidebarCollapsed s; viewMode := viewMode s;
     pageSize := pageSize s; jobPanelOpen := jobPanelOpen s;
     syncDialogOpen := syncDialogOpen s;
     syncChooserOpen := syncChooserOpen s;
     syncEntryPreference := syncEntryPreference s;
     shareDialogOpen := shareDialogOpen s; shareTarget := shareTarget s;
     transferDialogOpen := transferDialogOpen s;
     transferTarget := transferTarget s; detailKey := detailKey s;
     shareHistoryOpen := shareHistoryOpen s; settingsOpen := settingsOpen s;
     desktopNotifications := desktopNotifications s;
     persistShareHistory := v; jobConcurrency := jobConcurrency s;
     sidebarWidth := sidebarWidth s; detailPanelWidth := detailPanelWidth s;
     folderSyncPanelOpen := folderSyncPanelOpen s;
     folderSyncListDensity := folderSyncListDensity s |}.

(** [setJobConcurrency] *)
Definition setJobConcurrency (v : Z) (s : UIState) : UIState :=
  {| sidebarCollapsed := sidebarCollapsed s; viewMode := viewMode s;
     pageSize := pageSize s; jobPanelOpen := jobPanelOpen s;
     syncDialogOpen := syncDialogOpen s;
     syncChooserOpen := syncChooserOpen s;
     syncEntryPreference := syncEntryPreference s;
     shareDialogOpen := shareDialogOpen s; shareTarget := shareTarget s;
     transferDialogOpen := transferDialogOpen s;
     transferTarget := transferTarget s; detailKey := detailKey s;
     shareHistoryOpen := shareHistoryOpen s; settingsOpen := settingsOpen s;
     desktopNotifications := desktopNotifications s;
     persistShareHistory := persistShareHistory s; jobConcurrency := v;
     sidebarWidth := sidebarWidth s; detailPanelWidth := detailPanelWidth s;
     folderSyncPanelOpen := folderSyncPanelOpen s;
     folderSyncListDensity := folderSyncListDensity s |}.

(** [setSidebarWidth] *)
Definition setSidebarWidth (v : Z) (s : UIState) : UIState :=
  {| sidebarCollapsed := sidebarCollapsed s; viewMode := viewMode s;
     pageSize := pageSize s; jobPanelOpen := jobPanelOpen s;
     syncDialogOpen := syncDialogOpen s;
     syncChooserOpen := syncChooserOpen s;
     syncEntryPreference := syncEntryPreference s;
     shareDialogOpen := shareDialogOpen s; shareTarget := shareTarget s;
     transferDialogOpen := transferDialogOpen s;
     transferTarget := transferTarget s; detailKey := detailKey s;
     shareHistoryOpen := shareHistoryOpen s; settingsOpen := settingsOpen s;
     desktopNotifications := desktopNotifications s;
     persistShareHistory := persistShareHistory s;
     jobConcurrency := jobConcurrency s; sidebarWidth := v;
     detailPanelWidth := detailPanelWidth s;
     folderSyncPanelOpen := folderSyncPanelOpen s;
     folderSyncListDensity := folderSyncListDensity s |}.

(** [setDetailPanelWidth] *)
Definition setDetailPanelWidth (v : Z) (s : UIState) : UIState :=
  {| sidebarCollapsed := sidebarCollapsed s; viewMode := viewMode s;
     pageSize := pageSize s; jobPanelOpen := jobPanelOpen s;
     syncDialogOpen := syncDialogOpen s;
     syncChooserOpen := syncChooserOpen s;
     syncEntryPreference := syncEntryPreference s;
     shareDialogOpen := shareDialogOpen s; shareTarget := shareTarget s;
     transferDialogOpen := transferDialogOpen s;
     transferTarget := transferTarget s; detailKey := detailKey s;
     shareHistoryOpen := shareHistoryOpen s; settingsOpen := settingsOpen s;
     desktopNotifications := desktopNotifications s;
     persistShareHistory := persistShareHistory s;
     jobConcurrency := jobConcurrency s; sidebarWidth := sidebarWidth s;
     detailPanelWidth := v; folderSyncPanelOpen := folderSyncPanelOpen s;
     folderSyncListDensity := folderSyncListDensity s |}.

(** [setFolderSyncPanelOpen] *)
Definition setFolderSyncPanelOpen (v : bool) (s : UIState) : UIState :=
  {| sidebarCollapsed := sidebarCollapsed s; viewMode := viewMode s;
     pageSize := pageSize s; jobPanelOpen := jobPanelOpen s;
     syncDialogOpen := syncDialogOpen s;
     syncChooserOpen := syncChooserOpen s;
     syncEntryPreference := syncEntryPreference s;
     shareDialogOpen := shareDialogOpen s; shareTarget := shareTarget s;
     transferDialogOpen := transferDialogOpen s;
     transferTarget := transferTarget s; detailKey := detailKey s;
     shareHistoryOpen := shareHistoryOpen s; settingsOpen := settingsOpen s;
     desktopNotifications := desktopNotifications s;
     persistShareHistory := persistShareHistory s;
     jobConcurrency := jobConcurrency s; sidebarWidth := sidebarWidth s;
     detailPanelWidth := detailPanelWidth s; folderSyncPanelOpen := v;
     folderSyncListDensity := folderSyncListDensity s |}.

(** [setFolderSyncListDensity] *)
Definition setFolderSyncListDensity (v : FolderSyncListDensity) (s : UIState) : UIState :=
  {| sidebarCollapsed := sidebarCollapsed s; viewMode := viewMode s;
     pageSize := pageSize s; jobPanelOpen := jobPanelOpen s;
     syncDialogOpen := syncDialogOpen s;
     syncChooserOpen := syncChooserOpen s;
     syncEntryPreference := syncEntryPreference s;
     shareDialogOpen := shareDialogOpen s; shareTarget := shareTarget s;
     transferDialogOpen := transferDialogOpen s;
     transferTarget := transferTarget s; detailKey := detailKey s;
     shareHistoryOpen := shareHistoryOpen s; settingsOpen := settingsOpen s;
     desktopNotifications := desktopNotifications s;
     persistShareHistory := persistShareHistory s;
     jobConcurrency := jobConcurrency s; sidebarWidth := sidebarWidth s;
     detailPanelWidth := detailPanelWidth s;
     folderSyncPanelOpen := folderSyncPanelOpen s;
     folderSyncListDensity := v |}.

(** [openSyncEntry]: the remembered preference decides what opens; without
    one the chooser opens. *)
Definition openSyncEntry (s : UIState) : UIState :=
  match syncEntryPreference s with
  | Some ObjectSync =>
      {| sidebarCollapsed := sidebarCollapsed s; viewMode := viewMode s;
         pageSize := pageSize s; jobPanelOpen := jobPanelOpen s;
         syncDialogOpen := true; syncChooserOpen := false;
         syncEntryPreference := syncEntryPreference s;
         shareDialogOpen := shareDialogOpen s; shareTarget := shareTarget s;
         transferDialogOpen := transferDialogOpen s;
         transferTarget := transferTarget s; detailKey := detailKey s;
         shareHistoryOpen := shareHistoryOpen s; settingsOpen := settingsOpen s;
         desktopNotifications := desktopNotifications s;
         persistShareHistory := persistShareHistory s;
         jobConcurrency := jobConcurrency s; sidebarWidth := sidebarWidth s;
         detailPanelWidth := detailPanelWidth s;
         folderSyncPanelOpen := folderSyncPanelOpen s;
         folderSyncListDensity := folderSyncListDensity s |}
  | Some LiveFolderSync =>
      {| sidebarCollapsed := sidebarCollapsed s; viewMode := viewMode s;
         pageSize := pageSize s; jobPanelOpen := jobPanelOpen s;
         syncDialogOpen := syncDialogOpen s; syncChooserOpen := false;
         syncEntryPreference := syncEntryPreference s;
         shareDialogOpen := shareDialogOpen s; shareTarget := shareTarget s;
         transferDialogOpen := transferDialogOpen s;
         transferTarget := transferTarget s; detailKey := detailKey s;
         shareHistoryOpen := shareHistoryOpen s; settingsOpen := settingsOpen s;
         desktopNotifications := desktopNotifications s;
         persistShareHistory := persistShareHistory s;
         jobConcurrency := jobConcurrency s; sidebarWidth := sidebarWidth s;
         detailPanelWidth := detailPanelWidth s; folderSyncPanelOpen := true;
         folderSyncListDensity := folderSyncListDensity s |}
  | None =>
      {| sidebarCollapsed := sidebarCollapsed s; viewMode := viewMode s;
         pageSize := pageSize s; jobPanelOpen := jobPanelOpen s;
         syncDialogOpen := syncDialogOpen s; syncChooserOpen := true;
         syncEntryPreference := syncEntryPreference s;
         shareDialogOpen := shareDialogOpen s; shareTarget := shareTarget s;
         transferDialogOpen := transferDialogOpen s;
         transferTarget := transferTarget s; detailKey := detailKey s;
         shareHistoryOpen := shareHistoryOpen s; settingsOpen := settingsOpen s;
         desktopNotifications := desktopNotifications s;
         persistShareHistory := persistShareHistory s;
         jobConcurrency := jobConcurrency s; sidebarWidth := sidebarWidth s;
         detailPanelWidth := detailPanelWidth s;
         folderSyncPanelOpen := folderSyncPanelOpen s;
         folderSyncListDensity := folderSyncListDensity s |}
  end.

(** What the components can do to the store. *)
Inductive Action :=
  | ToggleSidebar
  | SetViewMode (mode : ViewMode)
  | SetPageSize (v : Z)
  | SetJobPanelOpen (v : bool)
  | SetSyncDialogOpen (v : bool)
  | OpenSyncEntry
  | OpenSyncChooser
  | CloseSyncChooser
  | SetSyncEntryPreference (v : option SyncEntryPreference)
  | OpenShareDialog (target : ShareTarget)
  | CloseShareDialog
  | OpenTransferDialog (target : TransferTarget)
  | CloseTransferDialog
  | SetDetailKey (v : option string)
  | SetShareHistoryOpen (v : bool)
  | SetSettingsOpen (v : bool)
  | SetDesktopNotifications (v : bool)
  | SetPersistShareHistory (v : bool)
  | SetJobConcurrency (v : Z)
  | SetSidebarWidth (v : Z)
  | SetDetailPanelWidth (v : Z)
  | SetFolderSyncPanelOpen (v : bool)
  | SetFolderSyncListDensity (v : FolderSyncListDensity).

Definition act (s : UIState) (a : Action) : UIState :=
  match a with
  | ToggleSidebar => toggleSidebar s
  | SetViewMode v => setViewMode v s
  | SetPageSize v => setPageSize v s
  | SetJobPanelOpen v => setJobPanelOpen v s
  | SetSyncDialogOpen v => setSyncDialogOpen v s
  | OpenSyncEntry => openSyncEntry s
  | OpenSyncChooser => openSyncChooser s
  | CloseSyncChooser => closeSyncChooser s
  | SetSyncEntryPreference v => setSyncEntryPreference v s
  | OpenShareDialog t => openShareDialog t s
  | CloseShareDialog => closeShareDialog s
  | OpenTransferDialog t => openTransferDialog t s
  | CloseTransferDialog => closeTransferDialog s
  | SetDetailKey v => setDetailKey v s
  | SetShareHistoryOpen v => setShareHistoryOpen v s
  | SetSettingsOpen v => setSettingsOpen v s
  | SetDesktopNotifications v => setDesktopNotifications v s
  | SetPersistShareHistory v => setPersistShareHistory v s
  | SetJobConcurrency v => setJobConcurrency v s
  | SetSidebarWidth v => setSidebarWidth v s
  | SetDetailPanelWidth v => setDetailPanelWidth v s
  | SetFolderSyncPanelOpen v => setFolderSyncPanelOpen v s
  | SetFolderSyncListDensity v => setFolderSyncListDensity v s
  end.

(** A dialog is open exactly while it has a target. *)
Definition dialogsHaveTargets (s : UIState) : Prop :=
  (shareDialogOpen s = true ↔ is_Some (shareTarget s))
  ∧ (transferDialogOpen s = true ↔ is_Some (transferTarget s)).

End UIStore.

(** * Properties *)

(** ** Store: removal, clearing and the conflict list *)

Section StoreFacts.

Implicit Types (s : FolderSyncStore) (c : FolderSyncConflict).

Lemma filter_other_rule {A} (key : A → string) (rid other : string)
    (l : list A) :
  other ≠ rid →
  filter (λ x, key x = other) (filter (λ x, key x ≠ rid) l)
  = filter (λ x, key x = other) l.
Proof.
  intros Hne. rewrite list_filter_filter. apply list_filter_iff.
  intros x. split; [tauto | intros ->; done].
Qed.

Lemma removeRule_resolved rid rpc s s' :
  removeRule rid rpc s = (s', Resolved ()) →
  rules s' = filter (λ r, id r ≠ rid) (rules s)
  ∧ conflicts s' = filter (λ c, c_ruleId c ≠ rid) (conflicts s)
  ∧ errors s' = delete rid (errors s)
  ∧ statuses s' = delete rid (statuses s).
Proof.
  unfold removeRule. destruct rpc as [u|e]; intros [= <-]; simpl; done.
Qed.

End StoreFacts.

(** C4: once [removeRule(id)] has completed, the store holds no rule with
    that id, no conflict record of that rule, and no error or status entry
    under that key; what belongs to any other rule id (its rules and
    conflict records, in order and number, its error and status entries) is
    as before. *)
Theorem removeRule_purges_only_that_rule (rid : string) (rpc : Outcome unit)
    (s s' : FolderSyncStore) :
  removeRule rid rpc s = (s', Resolved ()) →
  (∀ r, r ∈ rules s' → id r ≠ rid)
  ∧ (∀ c, c ∈ conflicts s' → c_ruleId c ≠ rid)
  ∧ errors s' !! rid = None
  ∧ statuses s' !! rid = None
  ∧ ∀ other, other ≠ rid →
      filter (λ r, id r = other) (rules s')
        = filter (λ r, id r = other) (rules s)
      ∧ filter (λ c, c_ruleId c = other) (conflicts s')
        = filter (λ c, c_ruleId c = other) (conflicts s)
      ∧ errors s' !! other = errors s !! other
      ∧ statuses s' !! other = statuses s !! other.
Proof.
  intros Hdone.
  destruct (removeRule_resolved _ _ _ _ Hdone) as (Hr & Hc & He & Hs).
  rewrite Hr, Hc, He, Hs. repeat split.
  - intros r Hin. by apply list_elem_of_filter in Hin as [? _].
  - intros c Hin. by apply list_elem_of_filter in Hin as [? _].
  - apply lookup_delete_eq.
  - apply lookup_delete_eq.
  - by apply (filter_other_rule id).
  - by apply (filter_other_rule c_ruleId).
  - by apply lookup_delete_ne.
  - by apply lookup_delete_ne.
Qed.

Lemma removeRule_purges_only_that_rule_witness :
  removeRule "r" (Resolved ()) sampleStore
    = ((removeRule "r" (Resolved ()) sampleStore).1, Resolved ())
  ∧ statuses (removeRule "r" (Resolved ()) sampleStore).1 !! "r" = None.
Proof.
  split; [reflexivity |].
  apply (removeRule_purges_only_that_rule "r" (Resolved ()) sampleStore).
  reflexivity.
Defined.

(** C5 (as amended): for a non-empty rule id, [clearConflicts(ruleId)]
    keeps exactly the records of the other rules, in order, and writes
    nothing else; with no argument, and also with the empty string, it
    empties the list. *)
Theorem clearConflicts_by_rule (rid : string) (s : FolderSyncStore) :
  rid ≠ "" →
  conflicts (clearConflicts (Some rid) s)
    = filter (λ c, c_ruleId c ≠ rid) (conflicts s)
  ∧ (∀ c, c ∈ conflicts (clearConflicts (Some rid) s)
          ↔ c ∈ conflicts s ∧ c_ruleId c ≠ rid)
  ∧ (∀ other, other ≠ rid →
       filter (λ c, c_ruleId c = other) (conflicts (clearConflicts (Some rid) s))
       = filter (λ c, c_ruleId c = other) (conflicts s))
  ∧ conflicts (clearConflicts None s) = []
  ∧ conflicts (clearConflicts (Some "") s) = []
  ∧ ∀ o, rules (clearConflicts o s) = rules s
         ∧ statuses (clearConflicts o s) = statuses s
         ∧ errors (clearConflicts o s) = errors s.
Proof.
  intros Hne.
  assert (Hshape : conflicts (clearConflicts (Some rid) s)
                   = filter (λ c, c_ruleId c ≠ rid) (conflicts s)).
  { unfold clearConflicts, truthy. simpl.
    rewrite bool_decide_eq_true_2 by done.
    apply list_filter_iff. intros c. split; congruence. }
  rewrite Hshape. split; [done |]. split; [| split; [| done]].
  - intros c. rewrite list_elem_of_filter. tauto.
  - intros other Hother. by apply (filter_other_rule c_ruleId).
Qed.

Lemma clearConflicts_by_rule_witness :
  "q" ≠ "" ∧ conflicts (clearConflicts (Some "q") sampleStore) = [sampleConflict].
Proof.
  split; [done |].
  rewrite (proj1 (clearConflicts_by_rule "q" sampleStore ltac:(done))).
  reflexivity.
Defined.

(** C5 fails as stated: called with the empty string as rule id, the
    action removes a record that belongs to another rule. *)
Lemma clearConflicts_empty_id_drops_other_rules :
  sampleConflict ∈ conflicts sampleStore
  ∧ c_ruleId sampleConflict ≠ ""
  ∧ conflicts (clearConflicts (Some "") sampleStore) = [].
Proof. repeat split; [apply list_elem_of_singleton; done | done]. Qed.

(** C7 (as amended): a conflict event consists of exactly the rule id, the
    relative path, the local size and mtime, and the remote size and
    lastModified (it has no etag); the record the store builds from it is
    put first, copies those six values, and has the empty string as remote
    etag. *)
Theorem conflict_record_copies_event_without_etag
    (data : FolderSyncConflictEvent) (s : FolderSyncStore) :
  head (conflicts (onConflictEvent data s)) = Some (conflictOfEvent data)
  ∧ c_ruleId (conflictOfEvent data) = ce_ruleId data
  ∧ c_relativePath (conflictOfEvent data) = ce_relativePath data
  ∧ c_localSize (conflictOfEvent data) = ce_localSize data
  ∧ c_localMtime (conflictOfEvent data) = ce_localMtime data
  ∧ c_remoteSize (conflictOfEvent data) = ce_remoteSize data
  ∧ c_remoteLastModified (conflictOfEvent data) = ce_remoteLastModified data
  ∧ c_remoteEtag (conflictOfEvent data) = ""
  ∧ data = {| ce_ruleId := ce_ruleId data;
              ce_relativePath := ce_relativePath data;
              ce_localSize := ce_localSize data;
              ce_localMtime := ce_localMtime data;
              ce_remoteSize := ce_remoteSize data;
              ce_remoteLastModified := ce_remoteLastModified data |}.
Proof. destruct data. repeat split. Qed.

(** C7 fails as stated: the record built from an event has an empty remote
    etag, whatever the remote object was. *)
Lemma conflict_record_etag_is_empty :
  c_remoteEtag <$> head (conflicts (onConflictEvent (sampleEvent 1 10) initialStore))
  = Some "".
Proof. reflexivity. Qed.

(** ** The conflict list under incoming events *)

Section ConflictList.

Implicit Types (s : FolderSyncStore) (c : FolderSyncConflict)
  (data : FolderSyncConflictEvent) (l : list FolderSyncConflict).

(** The list that the conflict subscription computes. *)
Lemma onConflictEvent_conflicts data s :
  conflicts (onConflictEvent data s)
  = take MAX_CONFLICTS
      (conflictOfEvent data :: filter (λ c, ¬ sameTarget data c) (conflicts s)).
Proof. reflexivity. Qed.

Lemma receive_conflicts_other s e :
  asConflictEvent e = None → conflicts (receive s e) = conflicts s.
Proof. destruct e; simpl; [done | discriminate | done]. Qed.

Lemma onConflictEvent_head data s :
  head (conflicts (onConflictEvent data s)) = Some (conflictOfEvent data).
Proof. reflexivity. Qed.

Lemma onConflictEvent_length data s :
  (length (conflicts (onConflictEvent data s)) ≤ MAX_CONFLICTS)%nat.
Proof. rewrite onConflictEvent_conflicts, length_take. lia. Qed.

Lemma sameTarget_key data c :
  sameTarget data c ↔ conflictKey c = conflictKey (conflictOfEvent data).
Proof.
  unfold sameTarget, conflictKey. simpl. split.
  - intros [-> ->]. done.
  - intros [= -> ->]. done.
Qed.

Lemma onConflictEvent_NoDup data s :
  NoDup (conflictKey <$> conflicts s) →
  NoDup (conflictKey <$> conflicts (onConflictEvent data s)).
Proof.
  intros Hnd. rewrite onConflictEvent_conflicts.
  eapply sublist_NoDup; [| apply fmap_sublist, sublist_take].
  rewrite fmap_cons. apply NoDup_cons. split.
  - intros (c & Hkey & Hin)%list_elem_of_fmap.
    apply list_elem_of_filter in Hin as [Hdiff _].
    apply Hdiff, sameTarget_key. done.
  - eapply sublist_NoDup; [exact Hnd |].
    apply fmap_sublist, sublist_filter.
Qed.

(** A record that passes a filter moves no further from the front. *)
Lemma filter_lookup_le {A} (P : A → Prop) `{!∀ x, Decision (P x)}
    (k : list A) (i : nat) (x : A) :
  k !! i = Some x → P x → ∃ j, (j ≤ i)%nat ∧ filter P k !! j = Some x.
Proof.
  revert i. induction k as [|y k IH]; intros i Hi HP; [done |].
  rewrite filter_cons. destruct i as [|i]; simpl in Hi.
  - injection Hi as ->. rewrite decide_True by done. by exists 0%nat.
  - destruct (IH i Hi HP) as (j & Hj & Hlook).
    destruct (decide (P y)).
    + exists (S j). split; [lia | done].
    + exists j. split; [lia | done].
Qed.

Lemma onConflictEvent_keeps data s c i :
  conflicts s !! i = Some c →
  ¬ sameTarget data c →
  (S i < MAX_CONFLICTS)%nat →
  c ∈ conflicts (onConflictEvent data s).
Proof.
  intros Hi Hdiff Hroom. rewrite onConflictEvent_conflicts.
  destruct (filter_lookup_le (λ c, ¬ sameTarget data c) _ _ _ Hi Hdiff)
    as (j & Hj & Hlook).
  apply elem_of_take. exists (S j). split; [exact Hlook | lia].
Qed.

End ConflictList.

(** C10: after any sequence of incoming events, starting from the store as
    created, the conflict list has at most 200 records, no two records for
    the same rule and path, and the record of the most recently received
    conflict event (if there was one) is first. *)
Theorem conflicts_bounded_unique_newest_first (es : list Incoming) :
  (length (conflicts (foldl receive initialStore es)) ≤ 200)%nat
  ∧ NoDup (conflictKey <$> conflicts (foldl receive initialStore es))
  ∧ head (conflicts (foldl receive initialStore es))
    = conflictOfEvent <$> lastConflictEvent es.
Proof.
  induction es as [|e es IH] using rev_ind.
  - simpl. repeat split; [lia | constructor].
  - rewrite foldl_app. simpl.
    destruct IH as (Hlen & Hnd & Hhead).
    unfold lastConflictEvent in *. rewrite omap_app.
    destruct (asConflictEvent e) as [data|] eqn:He.
    + destruct e; try discriminate. injection He as ->.
      simpl. rewrite last_snoc. simpl.
      split; [apply onConflictEvent_length |].
      split; [by apply onConflictEvent_NoDup | reflexivity].
    + rewrite (receive_conflicts_other _ _ He).
      simpl. rewrite He, app_nil_r. done.
Qed.

(** C6 (as amended): a record in the conflict list is still there after any
    store action or incoming event, unless that action is [clearConflicts]
    for its rule or for all rules, a completed [removeRule] of its rule, a
    conflict event for the same rule and path (which replaces it), or a
    conflict event arriving while the record is last within the 200-record
    cap (which pushes it out). *)
Theorem conflict_kept_unless_dropped (a : StoreAction) (s : FolderSyncStore)
    (c : FolderSyncConflict) (i : nat) :
  conflicts s !! i = Some c →
  c ∈ conflicts (dispatch s a) ∨ mayDrop a c i.
Proof.
  intros Hi.
  assert (Hin : c ∈ conflicts s) by (apply list_elem_of_lookup; eauto).
  destruct a as [e| |rpc|rpc|rpc|rid rpc|rpc|rpc|rpc|rid|rpc| |ruleId| |v|v|v];
    simpl; try (left; exact Hin).
  - destruct e as [data|data|data]; simpl; try (left; exact Hin).
    destruct (decide (sameTarget data c)) as [|Hdiff]; [right; by left |].
    destruct (decide (MAX_CONFLICTS ≤ S i)%nat) as [|Hroom]; [right; by right |].
    left. eapply onConflictEvent_keeps; [exact Hi | exact Hdiff | lia].
  - destruct rpc; left; exact Hin.
  - destruct rpc; left; exact Hin.
  - destruct rpc; left; exact Hin.
  - destruct rpc as [u|e]; simpl; [| left; exact Hin].
    destruct (decide (rid = c_ruleId c)) as [|Hdiff]; [by right |].
    left. apply list_elem_of_filter. split; [congruence | exact Hin].
  - destruct rpc; left; exact Hin.
  - destruct rpc; left; exact Hin.
  - destruct rpc; left; exact Hin.
  - destruct (truthy ruleId) eqn:Ht; [| right; by left].
    destruct (decide (ruleId = Some (c_ruleId c))) as [|Hdiff]; [right; by right |].
    left. apply list_elem_of_filter. split; [congruence | exact Hin].
Qed.

Lemma conflict_kept_unless_dropped_witness :
  conflicts sampleStore !! 0%nat = Some sampleConflict
  ∧ (sampleConflict ∈ conflicts (dispatch sampleStore (ClearConflicts (Some "q")))
     ∨ mayDrop (ClearConflicts (Some "q")) sampleConflict 0).
Proof.
  split; [reflexivity |].
  apply (conflict_kept_unless_dropped (ClearConflicts (Some "q")) sampleStore).
  reflexivity.
Defined.

(** C6 fails as stated: with no [clearConflicts] and no [removeRule], the
    record added first is gone after 200 further conflict events for other
    paths of the rule, and a record is also gone after a later conflict
    event for its own path. *)
Lemma conflict_record_dropped_by_events :
  (conflictOfEvent (sampleEvent 201 0)
     ∈ conflicts (receive initialStore (ConflictEvent (sampleEvent 201 0))))
  ∧ (conflictOfEvent (sampleEvent 201 0)
     ∉ conflicts (foldl receive
                    (receive initialStore (ConflictEvent (sampleEvent 201 0)))
                    (burst 200)))
  ∧ (conflictOfEvent (sampleEvent 1 10)
     ∉ conflicts (foldl receive initialStore
                    [ConflictEvent (sampleEvent 1 10);
                     ConflictEvent (sampleEvent 1 11)])).
Proof.
  split; [| split].
  - refine (bool_decide_unpack _ _). vm_compute. exact I.
  - refine (bool_decide_unpack _ _). vm_compute. exact I.
  - refine (bool_decide_unpack _ _). vm_compute. exact I.
Qed.

(** ** The rule editor *)

Section EditorFacts.

Import Editor.

Lemma formStep_pollIntervalMs st a :
  ed_pollIntervalMs (formStep st a)
  = match asPollChoice a with
    | Some o => pollOptionValue o
    | None => ed_pollIntervalMs st
    end.
Proof.
  destruct a as [| | | |path| | | | | |]; simpl; try reflexivity.
  destruct path as [p|]; [| reflexivity]. by destruct (decide (p = "")).
Qed.

Lemma foldl_formStep_pollIntervalMs st acts :
  ed_pollIntervalMs (foldl formStep st acts)
  = match lastPollChoice acts with
    | Some o => pollOptionValue o
    | None => ed_pollIntervalMs st
    end.
Proof.
  unfold lastPollChoice.
  induction acts as [|a acts IH] using rev_ind; [reflexivity |].
  rewrite foldl_app, omap_app. simpl.
  rewrite formStep_pollIntervalMs.
  destruct (asPollChoice a) as [o|]; simpl.
  - by rewrite last_snoc.
  - by rewrite app_nil_r.
Qed.

Lemma submitted_handleSave editRule st rpc input :
  input ∈ submitted (handleSave editRule st rpc) → input = buildInput st.
Proof.
  unfold handleSave. case_bool_decide; simpl.
  - intros Hin. by apply elem_of_nil in Hin.
  - destruct editRule, rpc; simpl; intros Hin;
      by apply list_elem_of_singleton in Hin.
Qed.

Lemma pollOptionValue_choices o :
  0 < pollOptionValue o
  ∧ pollOptionValue o ∈ [15000; 30000; 60000; 300000; 600000; 1800000].
Proof. destruct o; simpl; split; try lia; set_solver. Qed.

End EditorFacts.

(** C8 (as amended): the [pollIntervalMs] of every rule input submitted by
    the save handler is the value of the form's poll-interval cell: the last
    choice made in the select (one of 15000, 30000, 60000, 300000, 600000,
    1800000, all greater than 0) or, when no choice was made, 30000 for a
    new rule and the edited rule's own [pollIntervalMs] otherwise. *)
Theorem submitted_pollIntervalMs (editRule : option FolderSyncRule)
    (acts : list Editor.FormAction) (rpc : Outcome unit)
    (input : FolderSyncRuleInput) :
  input ∈ Editor.submitted
            (Editor.handleSave editRule (Editor.formAfter editRule acts) rpc) →
  in_pollIntervalMs input
    = Some match Editor.lastPollChoice acts with
           | Some o => Editor.pollOptionValue o
           | None => default 30000 (pollIntervalMs <$> editRule)
           end
  ∧ ∀ o, 0 < Editor.pollOptionValue o
         ∧ Editor.pollOptionValue o
             ∈ [15000; 30000; 60000; 300000; 600000; 1800000].
Proof.
  intros Hin. apply submitted_handleSave in Hin as ->.
  split; [| apply pollOptionValue_choices].
  simpl. unfold Editor.formAfter.
  by rewrite foldl_formStep_pollIntervalMs.
Qed.

Lemma submitted_pollIntervalMs_witness :
  (Editor.buildInput
     (Editor.formAfter None
        [Editor.ChangeProfile "profile"; Editor.ChangeBucket "photos";
         Editor.ChangeLocalPath "/home/user/Photos";
         Editor.ChangePollInterval Editor.Min5])
   ∈ Editor.submitted
       (Editor.handleSave None
          (Editor.formAfter None
             [Editor.ChangeProfile "profile"; Editor.ChangeBucket "photos";
              Editor.ChangeLocalPath "/home/user/Photos";
              Editor.ChangePollInterval Editor.Min5])
          (Resolved ())))
  ∧ in_pollIntervalMs
      (Editor.buildInput
         (Editor.formAfter None
            [Editor.ChangeProfile "profile"; Editor.ChangeBucket "photos";
             Editor.ChangeLocalPath "/home/user/Photos";
             Editor.ChangePollInterval Editor.Min5]))
    = Some 300000.
Proof.
  assert (Hin :
    Editor.buildInput
      (Editor.formAfter None
         [Editor.ChangeProfile "profile"; Editor.ChangeBucket "photos";
          Editor.ChangeLocalPath "/home/user/Photos";
          Editor.ChangePollInterval Editor.Min5])
    ∈ Editor.submitted
        (Editor.handleSave None
           (Editor.formAfter None
              [Editor.ChangeProfile "profile"; Editor.ChangeBucket "photos";
               Editor.ChangeLocalPath "/home/user/Photos";
               Editor.ChangePollInterval Editor.Min5])
           (Resolved ()))).
  { vm_compute. apply list_elem_of_singleton. reflexivity. }
  split; [exact Hin |].
  exact (proj1 (submitted_pollIntervalMs None _ (Resolved ()) _ Hin)).
Defined.

(** C8 fails as stated: editing a rule whose interval is 45000 ms and
    saving without touching the select submits 45000, which is none of the
    fixed choices. *)
Lemma handleSave_submits_edited_rule_interval :
  in_pollIntervalMs
    <$> Editor.submitted
          (Editor.handleSave (Some (sampleRule "r" 45000))
             (Editor.formAfter (Some (sampleRule "r" 45000)) [])
             (Resolved ()))
  = [Some 45000]
  ∧ 45000 ∉ Editor.pollOptionValue <$> Editor.pollOptions.
Proof.
  split; [reflexivity |].
  refine (bool_decide_unpack _ _). vm_compute. exact I.
Qed.

(** C9: with an empty [profileId], [bucket] or [localPath], the save
    handler only shows the "required fields" error: it issues no add-rule
    and no update-rule call. *)
Theorem handleSave_rejects_missing_fields (editRule : option FolderSyncRule)
    (st : Editor.EditorState) (rpc : Outcome unit) :
  Editor.ed_profileId st = "" ∨ Editor.ed_bucket st = ""
    ∨ Editor.ed_localPath st = "" →
  Editor.handleSave editRule st rpc
    = [Editor.ToastError "Please fill in all required fields"]
  ∧ Editor.submitted (Editor.handleSave editRule st rpc) = []
  ∧ ∀ input rid,
      (Editor.CallAddRule input ∉ Editor.handleSave editRule st rpc)
      ∧ (Editor.CallUpdateRule input rid ∉ Editor.handleSave editRule st rpc).
Proof.
  intros Hempty. unfold Editor.handleSave.
  rewrite bool_decide_eq_true_2 by exact Hempty.
  split; [reflexivity |]. split; [reflexivity |].
  intros input rid.
  split; intros Hin; by apply list_elem_of_singleton in Hin.
Qed.

Lemma handleSave_rejects_missing_fields_witness :
  (Editor.ed_profileId (Editor.formAfter None [Editor.ChangeLocalPath "/tmp/x"]) = ""
   ∨ Editor.ed_bucket (Editor.formAfter None [Editor.ChangeLocalPath "/tmp/x"]) = ""
   ∨ Editor.ed_localPath (Editor.formAfter None [Editor.ChangeLocalPath "/tmp/x"]) = "")
  ∧ Editor.submitted
      (Editor.handleSave None
         (Editor.formAfter None [Editor.ChangeLocalPath "/tmp/x"])
         (Resolved ())) = [].
Proof.
  split; [left; reflexivity |].
  apply (handleSave_rejects_missing_fields None
           (Editor.formAfter None [Editor.ChangeLocalPath "/tmp/x"])
           (Resolved ())).
  left; reflexivity.
Defined.

(** ** The Rule Scheduler: single flight *)

Section SchedulerFacts.

Import Scheduler.

Lemma boot_consistent : consistent boot.
Proof. repeat split; discriminate. Qed.

Lemma deliver_consistent sys e :
  consistent sys → consistent (deliver sys e).1.
Proof.
  destruct sys as [[st rerun rn rm ls le] n].
  unfold consistent, deliver, step, onCompleted, live. simpl.
  intros (Hn & Hsync & Hrerun & Hrm).
  destruct rm.
  - destruct (Hrm eq_refl) as [-> ->].
    destruct e as [| | |t|o|]; simpl; try done.
    destruct rn; simpl in *; subst n; simpl; done.
  - destruct e as [| | |t|o|]; destruct st, rerun, rn; simpl in *; subst n;
      simpl; try (destruct o; simpl);
      repeat split; intros; simplify_eq; try done;
      try (specialize (Hsync eq_refl)); simplify_eq;
      try (destruct (Hrerun eq_refl) as [? ?]); simplify_eq; try tauto;
      try (destruct (Hrerun eq_refl) as [? [?|[?|?]]]; simplify_eq).
Qed.

Lemma run_consistent es : ∀ sys, consistent sys → consistent (run sys es).1.
Proof.
  induction es as [|e es IH]; intros sys Hc; [exact Hc |].
  cbn [run]. pose proof (deliver_consistent sys e Hc) as Hd.
  destruct (deliver sys e) as [sys1 c1]. specialize (IH sys1 Hd).
  by destruct (run sys1 es) as [sys2 c2].
Qed.

Lemma consistent_bound sys :
  consistent sys →
  (inFlight sys ≤ 1)%nat
  ∧ (status (sched sys) = Syncing → inFlight sys = 1%nat).
Proof.
  intros (Hn & Hsync & _). rewrite Hn. split.
  - destruct (running (sched sys)); lia.
  - intros Hs. by rewrite (Hsync Hs).
Qed.

Lemma foldl_execute cmds : ∀ n, foldl execute n cmds = (n + starts cmds)%nat.
Proof.
  unfold starts. induction cmds as [|c cmds IH]; intros n; simpl; [lia |].
  rewrite IH, filter_cons. destruct c; simpl; lia.
Qed.

Lemma starts_app c1 c2 : starts (c1 ++ c2) = (starts c1 + starts c2)%nat.
Proof. unfold starts. by rewrite filter_app, length_app. Qed.

(** Every start is paid for by a reconciliation still in flight or by a
    drain report. *)
Lemma run_starts es : ∀ sys,
  (inFlight sys + starts (run sys es).2
   ≤ completions es + inFlight (run sys es).1)%nat.
Proof.
  unfold completions.
  induction es as [|e es IH]; intros sys; [unfold starts; simpl; lia |].
  cbn [run]. unfold deliver.
  destruct (step (sched sys) e) as [s1 c1] eqn:Hstep.
  match goal with
  | |- context [run ?sys1 es] =>
      specialize (IH sys1); destruct (run sys1 es) as [sys2 c2]
  end.
  simpl in *. rewrite foldl_execute in IH. rewrite starts_app, filter_cons.
  destruct e; simpl in *; lia.
Qed.

Lemma deliver_fire_running t s n :
  live s → running s = true → removed s = false →
  deliver {| sched := s; inFlight := n |} (Fire t)
  = ({| sched := moveTo (status s) true s; inFlight := n |}, []).
Proof.
  intros Hlive Hrun Hrm. unfold deliver, step. simpl. rewrite Hrm, Hrun.
  by destruct Hlive as [-> | [-> | ->]].
Qed.

(** Triggers that arrive while a reconciliation is in flight only raise the
    flag. *)
Lemma fire_while_running ts : ∀ t s n,
  live s → running s = true → removed s = false →
  run {| sched := s; inFlight := n |} (Fire <$> t :: ts)
  = ({| sched := moveTo (status s) true s; inFlight := n |}, []).
Proof.
  induction ts as [|t' ts IH]; intros t s n Hlive Hrun Hrm.
  - change (Fire <$> [t]) with [Fire t]. cbn [run].
    by rewrite deliver_fire_running.
  - change (Fire <$> t :: t' :: ts) with (Fire t :: (Fire <$> t' :: ts)).
    cbn [run]. rewrite deliver_fire_running by done.
    rewrite IH by done. reflexivity.
Qed.

(** With a reconciliation in flight no event but its drain report makes the
    scheduler start another one, or takes the one in flight away: a
    cancellation does not end it. *)
Lemma deliver_no_start sys e :
  consistent sys → inFlight sys = 1%nat → isCompleted e = false →
  starts (deliver sys e).2 = 0%nat ∧ inFlight (deliver sys e).1 = 1%nat.
Proof.
  destruct sys as [[st rerun rn rm ls le] n].
  unfold consistent, deliver, step, starts. simpl.
  intros (Hn & _) -> He.
  destruct rn; [| done].
  destruct e as [| | |t|o|]; try done; destruct rm, st; done.
Qed.

(** A pause during a reconciliation, a resume and a new trigger: the
    trigger starts nothing while the cancelled reconciliation drains; the
    re-run starts with the drain report. *)
Example cancelled_run_blocks_restart :
  run boot [EnableRule; Fire SyncNow; PauseRule; ResumeRule; Fire SyncNow]
  = ({| sched := {| status := Watching; rerunRequested := true;
                    running := true; removed := false;
                    lastStatus := None; lastError := None |};
        inFlight := 1 |},
     [ArmWatcher; StartReconciliation; CancelReconciliation; DisarmWatcher;
      ArmWatcher])
  ∧ run boot [EnableRule; Fire SyncNow; PauseRule; ResumeRule; Fire SyncNow;
              Completed Succeeded]
    = ({| sched := {| status := Syncing; rerunRequested := false;
                      running := true; removed := false;
                      lastStatus := None; lastError := None |};
          inFlight := 1 |},
       [ArmWatcher; StartReconciliation; CancelReconciliation; DisarmWatcher;
        ArmWatcher; StartReconciliation]).
Proof. split; reflexivity. Qed.

End SchedulerFacts.

(** C3: at every point of every run of a rule's scheduler at most one
    reconciliation is in flight, and one is in flight in state [Syncing];
    the scheduler never issues more starts than it has received drain
    reports, plus one.  While a reconciliation is in flight no event other
    than its drain report starts another one or ends it (a pause or a
    removal cancels it, and it stays in flight until it has drained).
    Triggers that arrive meanwhile, the rule being enabled and not paused,
    start nothing and only leave one re-run pending; the drain report of the
    reconciliation in flight then starts exactly one re-run, after which
    nothing is pending.  Two triggers in succession for a watching rule
    with nothing in flight start one reconciliation and leave one re-run
    pending.  In the panel, the "Sync now" button of a rule shown
    as syncing issues no call. *)
Theorem single_flight_with_coalescing (es : list Scheduler.Event) :
  (Scheduler.inFlight (Scheduler.stateAfter es) ≤ 1)%nat
  ∧ (Scheduler.status (Scheduler.sched (Scheduler.stateAfter es)) = Syncing →
     Scheduler.inFlight (Scheduler.stateAfter es) = 1%nat)
  ∧ (Scheduler.starts (Scheduler.issued es)
     ≤ Scheduler.completions es + 1)%nat
  ∧ (Scheduler.inFlight (Scheduler.stateAfter es) = 1%nat →
     (∀ e, Scheduler.isCompleted e = false →
        Scheduler.starts (Scheduler.deliver (Scheduler.stateAfter es) e).2
          = 0%nat
        ∧ Scheduler.inFlight (Scheduler.deliver (Scheduler.stateAfter es) e).1
          = 1%nat)
     ∧ (Scheduler.live (Scheduler.sched (Scheduler.stateAfter es)) →
        ∀ t ts, ∃ sys1,
          Scheduler.run (Scheduler.stateAfter es) (Scheduler.Fire <$> t :: ts)
            = (sys1, [])
          ∧ Scheduler.inFlight sys1 = 1%nat
          ∧ Scheduler.rerunRequested (Scheduler.sched sys1) = true
          ∧ ∀ o, ∃ sys2,
              Scheduler.deliver sys1 (Scheduler.Completed o)
                = (sys2, [Scheduler.StartReconciliation])
              ∧ Scheduler.inFlight sys2 = 1%nat
              ∧ Scheduler.status (Scheduler.sched sys2) = Syncing
              ∧ Scheduler.rerunRequested (Scheduler.sched sys2) = false
              ∧ ∀ o', ∃ sys3,
                  Scheduler.deliver sys2 (Scheduler.Completed o') = (sys3, [])
                  ∧ Scheduler.inFlight sys3 = 0%nat
                  ∧ Scheduler.status (Scheduler.sched sys3) ≠ Syncing))
  ∧ (Scheduler.inFlight (Scheduler.stateAfter es) = 0%nat →
     Scheduler.status (Scheduler.sched (Scheduler.stateAfter es)) = Watching
     ∨ Scheduler.status (Scheduler.sched (Scheduler.stateAfter es)) = Error →
     ∀ t1 t2, ∃ sys1,
       Scheduler.run (Scheduler.stateAfter es)
         [Scheduler.Fire t1; Scheduler.Fire t2]
         = (sys1, [Scheduler.StartReconciliation])
       ∧ Scheduler.inFlight sys1 = 1%nat
       ∧ Scheduler.status (Scheduler.sched sys1) = Syncing
       ∧ Scheduler.rerunRequested (Scheduler.sched sys1) = true)
  ∧ ∀ store rule rpc,
      getRuleStatus (id rule) store = Syncing →
      Panel.clickSyncNow store rule rpc = [].
Proof.
  unfold Scheduler.stateAfter, Scheduler.issued.
  pose proof (run_consistent es _ boot_consistent) as Hc.
  pose proof (run_starts es Scheduler.boot) as Hstarts.
  destruct (consistent_bound _ Hc) as [Hle Hsync].
  split; [exact Hle |]. split; [exact Hsync |]. split.
  { simpl in Hstarts. lia. }
  split.
  - intros Hone. split.
    { intros e He. by apply deliver_no_start. }
    intros Hlive t ts.
    destruct Hc as (Hn & _ & _ & Hrm).
    destruct (Scheduler.run Scheduler.boot es) as [[s n] cmds].
    simpl in *. rewrite Hone in Hn. clear Hle Hsync Hstarts. subst n.
    assert (Hrun : Scheduler.running s = true).
    { destruct (Scheduler.running s); [done | discriminate]. }
    assert (Hrem : Scheduler.removed s = false).
    { destruct (Scheduler.removed s); [| done].
      destruct (Hrm eq_refl) as [Hidle _].
      destruct Hlive as [H | [H | H]]; rewrite Hidle in H; discriminate. }
    eexists. split; [by apply fire_while_running |].
    split; [reflexivity |]. split; [reflexivity |].
    intros o. unfold Scheduler.deliver, Scheduler.step, Scheduler.onCompleted.
    simpl. rewrite Hrun, Hrem. simpl.
    destruct Hlive as [Hs | [Hs | Hs]]; rewrite Hs; simpl;
      (eexists; split; [reflexivity |]; split; [reflexivity |];
       split; [reflexivity |]; split; [reflexivity |];
       intros o'; simpl; rewrite Hrem; simpl;
       eexists; split; [reflexivity |]; split; [reflexivity |];
       by destruct o').
  - split.
    + intros Hzero Hidle t1 t2.
      destruct Hc as (Hn & _ & _ & Hrm).
      destruct (Scheduler.run Scheduler.boot es) as [[s n] cmds].
      simpl in *. rewrite Hzero in Hn. clear Hle Hsync Hstarts. subst n.
      assert (Hrun : Scheduler.running s = false).
      { destruct (Scheduler.running s); [discriminate | done]. }
      assert (Hrem : Scheduler.removed s = false).
      { destruct (Scheduler.removed s); [| done].
        destruct (Hrm eq_refl) as [Hi _].
        destruct Hidle as [H | H]; rewrite Hi in H; discriminate. }
      unfold Scheduler.deliver, Scheduler.step. simpl. rewrite Hrem, Hrun.
      destruct Hidle as [Hs | Hs]; rewrite Hs; simpl; rewrite Hrem;
        eexists; repeat split; reflexivity.
    + intros store rule rpc Hs.
      unfold Panel.clickSyncNow, Panel.syncButtonDisabled.
      by rewrite bool_decide_eq_true_2.
Qed.

(** ** The Differ: direction and three-way classification *)

Section DifferFacts.

Import Differ.

Variable unspecified :
  option FolderSyncFileRecord → option LocalEntry → option RemoteEntry →
  option (FolderSyncAction * string).

Implicit Types (baseline : gmap string FolderSyncFileRecord)
  (loc : gmap string LocalEntry) (rem : gmap string RemoteEntry).

Lemma filter_none {A} (P : A → Prop) `{!∀ x, Decision (P x)} (l : list A) :
  (∀ x, x ∈ l → ¬ P x) → filter P l = [].
Proof.
  induction l as [|x l IH]; intros Hall; [reflexivity |].
  rewrite filter_cons, decide_False.
  - apply IH. intros y Hy. apply Hall. by right.
  - apply Hall. by left.
Qed.

(** An entry is emitted only with an action that the direction permits. *)
Lemma diffPath_Some d baseline loc rem p e :
  diffPath unspecified d baseline loc rem p = Some e →
  legal d (de_action e) = true
  ∧ rawAction unspecified baseline loc rem p = Some (de_action e).
Proof.
  unfold diffPath, rawAction.
  destruct (classify _ _ _ _) as [[a reason]|]; [| done].
  destruct (legal d a) eqn:Hl; [| done].
  intros [= <-]. simpl. done.
Qed.

Lemma diffPath_None d baseline loc rem p :
  diffPath unspecified d baseline loc rem p = None
  ↔ rawAction unspecified baseline loc rem p = None
    ∨ ∃ a, rawAction unspecified baseline loc rem p = Some a
           ∧ legal d a = false.
Proof.
  unfold diffPath, rawAction.
  destruct (classify _ _ _ _) as [[a reason]|]; simpl.
  - destruct (legal d a) eqn:Hl; split.
    + done.
    + intros [|(a' & [= <-] & Hl')]; [done | congruence].
    + intros _. right. eauto.
    + done.
  - split; [by left | done].
Qed.

Lemma entries_legal d baseline loc rem e :
  e ∈ omap (diffPath unspecified d baseline loc rem) (allPaths baseline loc rem) →
  legal d (de_action e) = true.
Proof.
  intros (p & _ & Hp)%list_elem_of_omap. by apply diffPath_Some in Hp as [? _].
Qed.

Lemma bucket_illegal d baseline loc rem a :
  legal d a = false →
  bucket a (omap (diffPath unspecified d baseline loc rem)
              (allPaths baseline loc rem)) = [].
Proof.
  intros Hl. apply filter_none. intros e He Ha.
  apply entries_legal in He. congruence.
Qed.

Lemma allPaths_singleton f (b : FolderSyncFileRecord) (l : LocalEntry)
    (r : RemoteEntry) :
  allPaths {[f := b]} {[f := l]} {[f := r]} = [f].
Proof.
  unfold allPaths. rewrite !dom_singleton_L, !union_idemp_L.
  apply elements_singleton.
Qed.

(** With a baseline on both sides, the verdict depends on the snapshots
    only through the two comparisons against the baseline. *)
Lemma classify_by_baseline b l r l' r' :
  localChanged b l = localChanged b l' →
  remoteChanged b r = remoteChanged b r' →
  classify unspecified (Some b) (Some l) (Some r)
  = classify unspecified (Some b) (Some l') (Some r').
Proof. simpl. by intros -> ->. Qed.

End DifferFacts.

(** C1: for a local-to-remote rule, whatever the baseline and the
    snapshots (and however the cases the specification leaves open are
    decided), the Diff has no download and no delete-local entry in any
    bucket, and every path whose three-way verdict is download or
    delete-local is not emitted but counted as unchanged. *)
Theorem localToRemote_never_downloads
    (unspecified : option FolderSyncFileRecord → option Differ.LocalEntry →
                   option Differ.RemoteEntry →
                   option (FolderSyncAction * string))
    (baseline : gmap string FolderSyncFileRecord)
    (loc : gmap string Differ.LocalEntry)
    (rem : gmap string Differ.RemoteEntry) :
  downloads (Differ.computeDiff unspecified LocalToRemote baseline loc rem) = []
  ∧ deleteLocal (Differ.computeDiff unspecified LocalToRemote baseline loc rem) = []
  ∧ (∀ e, e ∈ Differ.allEntries
                (Differ.computeDiff unspecified LocalToRemote baseline loc rem) →
          de_action e ≠ Download ∧ de_action e ≠ DeleteLocal)
  ∧ (∀ p a, Differ.rawAction unspecified baseline loc rem p = Some a →
            a = Download ∨ a = DeleteLocal →
            Differ.diffPath unspecified LocalToRemote baseline loc rem p = None)
  ∧ unchanged (Differ.computeDiff unspecified LocalToRemote baseline loc rem)
    = length
        (filter (λ p, Differ.rawAction unspecified baseline loc rem p = None
                      ∨ Differ.rawAction unspecified baseline loc rem p = Some Download
                      ∨ Differ.rawAction unspecified baseline loc rem p = Some DeleteLocal)
           (Differ.allPaths baseline loc rem)).
Proof.
  split; [by apply bucket_illegal |]. split; [by apply bucket_illegal |].
  split; [| split].
  - intros e He. unfold Differ.allEntries, Differ.computeDiff in He. simpl in He.
    assert (Hl : Differ.legal LocalToRemote (de_action e) = true).
    { rewrite !elem_of_app in He. unfold Differ.bucket in He.
      rewrite !list_elem_of_filter in He.
      destruct He as [[_ He]|[[_ He]|[[_ He]|[[_ He]|[_ He]]]]];
        by eapply entries_legal. }
    split; intros Ha; rewrite Ha in Hl; discriminate.
  - intros p a Hraw Ha. apply diffPath_None. right. exists a.
    split; [exact Hraw |]. by destruct Ha as [-> | ->].
  - unfold Differ.computeDiff. simpl. f_equal. apply list_filter_iff.
    intros p. rewrite diffPath_None. split.
    + intros [Hn | (a & Ha & Hl)]; [by left | right].
      rewrite Ha. destruct a; simpl in Hl; try discriminate; [by left | by right].
    + intros [Hn | [Hd | Hd]]; [by left | right; eauto | right; eauto].
Qed.

(** C2: whether a side changed is decided by comparing that side with the
    baseline only: two pairs of snapshot entries that compare alike with the
    baseline record get the same verdict, whatever the two entries are
    relative to each other, and the verdict is a function of the two
    comparisons.  For baseline [{f: size 10}], local [{f: size 10}]
    (unchanged) and remote [{f: size 20}], the Differ classifies [f] as
    download; under no direction does the Diff hold a conflict or any entry
    that is not this download, and wherever the direction permits downloads
    the Diff is exactly this one download. *)
Theorem remote_only_change_is_download
    (unspecified : option FolderSyncFileRecord → option Differ.LocalEntry →
                   option Differ.RemoteEntry →
                   option (FolderSyncAction * string))
    (f : string) (b : FolderSyncFileRecord)
    (l : Differ.LocalEntry) (r : Differ.RemoteEntry) :
  rec_localSize b = 10 → rec_remoteSize b = 10 →
  Differ.l_size l = 10 → Differ.l_mtime l = rec_localMtime b →
  Differ.r_size r = 20 →
  (∀ b0 l1 r1 l2 r2,
     Differ.localChanged b0 l1 = Differ.localChanged b0 l2 →
     Differ.remoteChanged b0 r1 = Differ.remoteChanged b0 r2 →
     Differ.classify unspecified (Some b0) (Some l1) (Some r1)
     = Differ.classify unspecified (Some b0) (Some l2) (Some r2))
  ∧ (∀ b0 l0 r0,
       fst <$> Differ.classify unspecified (Some b0) (Some l0) (Some r0)
       = match Differ.localChanged b0 l0, Differ.remoteChanged b0 r0 with
         | true, false => Some Upload
         | false, true => Some Download
         | true, true => Some Conflict
         | false, false => None
         end)
  ∧ Differ.localChanged b l = false
  ∧ Differ.remoteChanged b r = true
  ∧ Differ.rawAction unspecified {[f := b]} {[f := l]} {[f := r]} f
    = Some Download
  ∧ ∀ d : SyncDirection,
      diff_conflicts
        (Differ.computeDiff unspecified d {[f := b]} {[f := l]} {[f := r]}) = []
      ∧ (∀ e, e ∈ Differ.allEntries
                    (Differ.computeDiff unspecified d
                       {[f := b]} {[f := l]} {[f := r]}) →
              e = Differ.mkEntry f Download "remote changed since baseline"
                    (Some l) (Some r))
      ∧ (Differ.legal d Download = true →
         Differ.computeDiff unspecified d {[f := b]} {[f := l]} {[f := r]}
         = {| uploads := [];
              downloads :=
                [Differ.mkEntry f Download "remote changed since baseline"
                   (Some l) (Some r)];
              deleteLocal := []; deleteRemote := []; diff_conflicts := [];
              unchanged := 0 |}).
Proof.
  intros HbL HbR Hl Hm Hr.
  assert (Hloc : Differ.localChanged b l = false).
  { unfold Differ.localChanged. apply bool_decide_eq_false_2.
    intros [H | H]; congruence. }
  assert (Hrem : Differ.remoteChanged b r = true).
  { unfold Differ.remoteChanged. apply bool_decide_eq_true_2.
    right. right. rewrite Hr, HbR. done. }
  assert (Hclass : Differ.classify unspecified (Some b) (Some l) (Some r)
                   = Some (Download, "remote changed since baseline")).
  { simpl. by rewrite Hloc, Hrem. }
  assert (Hpath : ∀ d',
    Differ.diffPath unspecified d' {[f := b]} {[f := l]} {[f := r]} f
    = if Differ.legal d' Download
      then Some (Differ.mkEntry f Download "remote changed since baseline"
                   (Some l) (Some r))
      else None).
  { intros d'. unfold Differ.diffPath.
    rewrite !lookup_singleton_eq, Hclass. reflexivity. }
  split; [intros b0 l1 r1 l2 r2; apply classify_by_baseline |].
  split.
  { intros b0 l0 r0. simpl.
    by destruct (Differ.localChanged b0 l0), (Differ.remoteChanged b0 r0). }
  split; [exact Hloc |]. split; [exact Hrem |]. split.
  { unfold Differ.rawAction. by rewrite !lookup_singleton_eq, Hclass. }
  intros d. unfold Differ.allEntries, Differ.computeDiff.
  rewrite allPaths_singleton.
  cbn [omap list_omap]. rewrite !filter_cons, !filter_nil, Hpath.
  destruct (Differ.legal d Download) eqn:Hlegal; simpl.
  - split; [done |]. split; [| done].
    intros e He. by apply list_elem_of_singleton in He.
  - split; [done |]. split; [| done].
    intros e He. by apply elem_of_nil in He.
Qed.

Lemma remote_only_change_is_download_witness :
  rec_localSize exampleBaseline = 10 ∧ rec_remoteSize exampleBaseline = 10
  ∧ Differ.l_size exampleLocal = 10
  ∧ Differ.l_mtime exampleLocal = rec_localMtime exampleBaseline
  ∧ Differ.r_size exampleRemote = 20
  ∧ Differ.rawAction leaveAlone
      {["f" := exampleBaseline]} {["f" := exampleLocal]}
      {["f" := exampleRemote]} "f" = Some Download.
Proof.
  repeat (split; [reflexivity |]).
  apply (remote_only_change_is_download leaveAlone "f"
           exampleBaseline exampleLocal exampleRemote); reflexivity.
Defined.

(** ** More on the store: statuses, errors, rules *)

Section StoreMore.

Implicit Types (s : FolderSyncStore) (rs : list FolderSyncRule).

(** A map filled by successive [set(key(x), x)] calls holds, under each key,
    the last element with that key. *)
Lemma foldl_insert_lookup {A} (key : A → string) (l : list A) (k : string) :
  foldl (λ (m : gmap string A) x, <[key x := x]> m) ∅ l !! k
  = last (filter (λ x, key x = k) l).
Proof.
  induction l as [|x l IH] using rev_ind; [reflexivity |].
  rewrite foldl_app, filter_app. simpl. rewrite filter_cons, filter_nil.
  destruct (decide (key x = k)) as [->|Hne].
  - by rewrite lookup_insert_eq, last_snoc.
  - by rewrite lookup_insert_ne, app_nil_r.
Qed.

Lemma filter_keeps_all {A} (P : A → Prop) `{!∀ x, Decision (P x)} (l : list A) :
  (∀ x, x ∈ l → P x) → filter P l = l.
Proof.
  induction l as [|x l IH]; intros Hall; [reflexivity |].
  rewrite filter_cons, decide_True by (apply Hall; by left).
  f_equal. apply IH. intros y Hy. apply Hall. by right.
Qed.

Lemma length_filter_mono {A} (P Q : A → Prop) `{!∀ x, Decision (P x)}
    `{!∀ x, Decision (Q x)} (l : list A) :
  (∀ x, P x → Q x) → (length (filter P l) ≤ length (filter Q l))%nat.
Proof.
  intros HPQ. induction l as [|x l IH]; [done |].
  rewrite !filter_cons.
  destruct (decide (P x)) as [HP|]; destruct (decide (Q x)) as [|HQ];
    simpl; try lia.
  destruct HQ. by apply HPQ.
Qed.

Lemma replaceRule_ids updated rs : id <$> replaceRule updated rs = id <$> rs.
Proof.
  unfold replaceRule. rewrite <- list_fmap_compose.
  apply list_fmap_ext. intros _ r _. simpl. by case_decide.
Qed.

Lemma replaceRule_lookup updated rs i r :
  rs !! i = Some r →
  replaceRule updated rs !! i
  = Some (if decide (id r = id updated) then updated else r).
Proof. intros Hi. unfold replaceRule. by rewrite list_lookup_fmap, Hi. Qed.

Lemma replaceRule_unknown updated rs :
  id updated ∉ id <$> rs → replaceRule updated rs = rs.
Proof.
  intros Hnew. unfold replaceRule.
  rewrite <- (list_fmap_id rs) at 2. apply list_fmap_ext.
  intros i r Hr. simpl. case_decide as Heq; [| done].
  destruct Hnew. rewrite <- Heq. apply list_elem_of_fmap_2.
  by eapply list_elem_of_lookup_2.
Qed.

Lemma dispatch_conflicts_NoDup s a :
  NoDup (conflictKey <$> conflicts s) →
  NoDup (conflictKey <$> conflicts (dispatch s a)).
Proof.
  intros Hnd.
  destruct a as [e| |rpc|rpc|rpc|rid rpc|rpc|rpc|rpc|rid|rpc| |ruleId| |v|v|v];
    simpl; try exact Hnd; try (by destruct rpc).
  - destruct e; simpl; [exact Hnd | by apply onConflictEvent_NoDup | exact Hnd].
  - destruct rpc; simpl; [| exact Hnd].
    eapply sublist_NoDup; [exact Hnd | apply fmap_sublist, sublist_filter].
  - destruct (truthy ruleId); [| constructor].
    eapply sublist_NoDup; [exact Hnd | apply fmap_sublist, sublist_filter].
Qed.

Lemma dispatch_conflicts_length s a :
  (length (conflicts s) ≤ MAX_CONFLICTS)%nat →
  (length (conflicts (dispatch s a)) ≤ MAX_CONFLICTS)%nat.
Proof.
  intros Hlen.
  destruct a as [e| |rpc|rpc|rpc|rid rpc|rpc|rpc|rpc|rid|rpc| |ruleId| |v|v|v];
    simpl; try exact Hlen; try (by destruct rpc).
  - destruct e; simpl; [exact Hlen | apply onConflictEvent_length | exact Hlen].
  - destruct rpc; simpl; [| exact Hlen].
    etrans; [apply length_filter | exact Hlen].
  - destruct (truthy ruleId); simpl; [| lia].
    etrans; [apply length_filter | exact Hlen].
Qed.

End StoreMore.

(** X1: after a status event the rule's status, as [getRuleStatus] reports
    it, is the event's; every other rule's status is as before; a rule with
    no entry reads as idle; rules, conflicts and errors are not touched. *)
Theorem status_event_sets_rule_status (data : FolderSyncStatusEvent)
    (s : FolderSyncStore) :
  getRuleStatus (se_ruleId data) (onStatusEvent data s) = se_status data
  ∧ (∀ other, other ≠ se_ruleId data →
       getRuleStatus other (onStatusEvent data s) = getRuleStatus other s)
  ∧ (∀ rid, statuses s !! rid = None → getRuleStatus rid s = Idle)
  ∧ rules (onStatusEvent data s) = rules s
  ∧ conflicts (onStatusEvent data s) = conflicts s
  ∧ errors (onStatusEvent data s) = errors s.
Proof.
  unfold getRuleStatus, onStatusEvent. simpl. split; [| split; [| split]].
  - by rewrite lookup_insert_eq.
  - intros other Hne. by rewrite lookup_insert_ne.
  - intros rid ->. reflexivity.
  - done.
Qed.

(** X2: the error recorded for a rule stays, with the same message, through
    every store action and incoming event except a later error event for
    that rule (which replaces the message) and a completed [removeRule] of
    that rule; in particular no status event clears it. *)
Theorem error_entry_persists (a : StoreAction) (s : FolderSyncStore)
    (rid message : string) :
  errors s !! rid = Some message →
  errors (dispatch s a) !! rid = Some message
  ∨ (∃ data, a = Receive (ErrorEvent data) ∧ ee_ruleId data = rid
             ∧ errors (dispatch s a) !! rid = Some (ee_error data))
  ∨ (∃ u, a = RemoveRule rid (Resolved u)
          ∧ errors (dispatch s a) !! rid = None).
Proof.
  intros He.
  destruct a as [e| |rpc|rpc|rpc|rid' rpc|rpc|rpc|rpc|rid'|rpc| |ruleId| |v|v|v];
    simpl; try (left; exact He); try (destruct rpc; left; exact He).
  - destruct e as [data|data|data]; simpl; try (left; exact He).
    destruct (decide (ee_ruleId data = rid)) as [Heq|Hne].
    + right; left. exists data. subst rid.
      split; [done |]. split; [done |]. apply lookup_insert_eq.
    + left. by rewrite lookup_insert_ne.
  - destruct rpc as [u|e]; simpl; [| left; exact He].
    destruct (decide (rid' = rid)) as [->|Hne].
    + right; right. exists u. split; [done |]. apply lookup_delete_eq.
    + left. by rewrite lookup_delete_ne.
Qed.

Lemma error_entry_persists_witness :
  errors sampleStore !! "r" = Some "listing failed"
  ∧ (errors (dispatch sampleStore
               (Receive (StatusEvent
                  {| se_ruleId := "r"; se_status := Watching;
                     se_lastChange := None; se_filesWatching := 3;
                     se_currentFile := None; se_progress := None |}))) !! "r"
       = Some "listing failed"
     ∨ (∃ data,
          Receive (StatusEvent
                  {| se_ruleId := "r"; se_status := Watching;
                     se_lastChange := None; se_filesWatching := 3;
                     se_currentFile := None; se_progress := None |})
            = Receive (ErrorEvent data) ∧ ee_ruleId data = "r"
          ∧ errors (dispatch sampleStore
               (Receive (StatusEvent
                  {| se_ruleId := "r"; se_status := Watching;
                     se_lastChange := None; se_filesWatching := 3;
                     se_currentFile := None; se_progress := None |}))) !! "r"
              = Some (ee_error data))
     ∨ (∃ u,
          Receive (StatusEvent
                  {| se_ruleId := "r"; se_status := Watching;
                     se_lastChange := None; se_filesWatching := 3;
                     se_currentFile := None; se_progress := None |})
            = RemoveRule "r" (Resolved u)
          ∧ errors (dispatch sampleStore
               (Receive (StatusEvent
                  {| se_ruleId := "r"; se_status := Watching;
                     se_lastChange := None; se_filesWatching := 3;
                     se_currentFile := None; se_progress := None |}))) !! "r"
              = None)).
Proof.
  split; [reflexivity |].
  apply (error_entry_persists _ sampleStore "r" "listing failed").
  reflexivity.
Defined.

(** X3: [updateRule] and [toggleRule] replace, in place, every rule that
    has the id of the rule returned by the RPC: the ids of the list, their
    order and their number are unchanged, each position holds the returned
    rule if its id matched and the old rule otherwise; a returned rule whose
    id is not in the list changes nothing (it is not appended). *)
Theorem update_and_toggle_replace_in_place (updated : FolderSyncRule)
    (s : FolderSyncStore) :
  rules (updateRule (Resolved updated) s).1
    = rules (toggleRule (Resolved updated) s).1
  ∧ id <$> rules (updateRule (Resolved updated) s).1 = id <$> rules s
  ∧ (∀ i r, rules s !! i = Some r →
       rules (updateRule (Resolved updated) s).1 !! i
       = Some (if decide (id r = id updated) then updated else r))
  ∧ (id updated ∉ id <$> rules s →
       rules (updateRule (Resolved updated) s).1 = rules s)
  ∧ editingRule (updateRule (Resolved updated) s).1 = None
  ∧ editingRule (toggleRule (Resolved updated) s).1 = editingRule s.
Proof.
  simpl. split; [done |]. split; [apply replaceRule_ids |].
  split; [apply replaceRule_lookup |]. split; [apply replaceRule_unknown | done].
Qed.

(** X4: [refreshStatuses] replaces the whole status map by the reply: a
    rule's entry is the last state of the reply carrying its id, and a rule
    absent from the reply has no entry afterwards, whatever was stored
    before. *)
Theorem refreshStatuses_replaces_map (states : list FolderSyncState)
    (s : FolderSyncStore) (rid : string) :
  statuses (refreshStatuses (Resolved states) s).1 !! rid
    = last (filter (λ st, st_ruleId st = rid) states)
  ∧ (rid ∉ st_ruleId <$> states →
       statuses (refreshStatuses (Resolved states) s).1 !! rid = None
       ∧ getRuleStatus rid (refreshStatuses (Resolved states) s).1 = Idle).
Proof.
  assert (Hlook : statuses (refreshStatuses (Resolved states) s).1 !! rid
                  = last (filter (λ st, st_ruleId st = rid) states)).
  { simpl. apply (foldl_insert_lookup st_ruleId). }
  split; [exact Hlook |].
  intros Habsent.
  assert (Hnone : statuses (refreshStatuses (Resolved states) s).1 !! rid = None).
  { rewrite Hlook. apply last_None. apply filter_none.
    intros st Hst Heq. apply Habsent. rewrite <- Heq.
    by apply list_elem_of_fmap_2. }
  split; [exact Hnone |]. unfold getRuleStatus. by rewrite Hnone.
Qed.

(** X5: the syncing count never exceeds the active count, which never
    exceeds the number of status entries; both are 0 for an empty map. *)
Theorem syncing_le_active_le_entries (s : FolderSyncStore) :
  (getSyncingCount s ≤ getActiveCount s)%nat
  ∧ (getActiveCount s ≤ size (statuses s))%nat
  ∧ (statuses s = ∅ → getActiveCount s = 0%nat ∧ getSyncingCount s = 0%nat).
Proof.
  unfold getSyncingCount, getActiveCount, statusValues. split; [| split].
  - apply length_filter_mono. intros st Hs. by right.
  - etrans; [apply length_filter |].
    by rewrite length_fmap, length_map_to_list.
  - intros ->. by rewrite map_to_list_empty.
Qed.

(** X6: a rejected RPC leaves the whole store as it was and rejects the
    action, for [addRule], [updateRule], [removeRule], [toggleRule],
    [syncNow] and [refreshStatuses]; [loadRules] swallows the rejection and
    only ends with [loading] off.  [previewRule] rejects too, but it has
    written the store before the call: the preview diff is empty and the
    preview id is the requested one, so a diff shown before is lost; the
    rules, statuses, conflicts and errors are as they were. *)
Theorem rejected_rpc_leaves_store (err : Thrown) (rid : string)
    (s : FolderSyncStore) :
  addRule (Rejected err) s = (s, Rejected err)
  ∧ updateRule (Rejected err) s = (s, Rejected err)
  ∧ removeRule rid (Rejected err) s = (s, Rejected err)
  ∧ toggleRule (Rejected err) s = (s, Rejected err)
  ∧ syncNow (Rejected err) s = (s, Rejected err)
  ∧ refreshStatuses (Rejected err) s = (s, Rejected err)
  ∧ loadRules (Rejected err) s = set_loading false s
  ∧ (loading s = false → loadRules (Rejected err) s = s)
  ∧ (previewRule rid (Rejected err) s).2 = Rejected err
  ∧ previewDiff (previewRule rid (Rejected err) s).1 = None
  ∧ previewRuleId (previewRule rid (Rejected err) s).1 = Some rid
  ∧ rules (previewRule rid (Rejected err) s).1 = rules s
  ∧ statuses (previewRule rid (Rejected err) s).1 = statuses s
  ∧ conflicts (previewRule rid (Rejected err) s).1 = conflicts s
  ∧ errors (previewRule rid (Rejected err) s).1 = errors s
  ∧ (previewDiff s ≠ None → (previewRule rid (Rejected err) s).1 ≠ s).
Proof.
  do 7 (split; [reflexivity |]). split.
  - intros Hl. destruct s; simpl in *. by rewrite Hl.
  - do 7 (split; [reflexivity |]).
    intros Hd Heq. apply Hd. by rewrite <- Heq.
Qed.

(** X7: adding a rule whose id is new and then removing it gives back the
    rule list as it was; removing an id that no rule has leaves the rule
    list alone. *)
Theorem add_then_remove_restores_rules (rule : FolderSyncRule)
    (s : FolderSyncStore) :
  id rule ∉ id <$> rules s →
  rules (removeRule (id rule) (Resolved ()) (addRule (Resolved rule) s).1).1
    = rules s
  ∧ rules (removeRule (id rule) (Resolved ()) s).1 = rules s.
Proof.
  intros Hnew.
  assert (Hkeep : filter (λ r, id r ≠ id rule) (rules s) = rules s).
  { apply filter_keeps_all. intros r Hr Heq. apply Hnew. rewrite <- Heq.
    by apply list_elem_of_fmap_2. }
  simpl. rewrite filter_app, Hkeep, filter_cons, filter_nil.
  rewrite decide_False by (intros H; by apply H).
  by rewrite app_nil_r.
Qed.

Lemma add_then_remove_restores_rules_witness :
  (id (sampleRule "z" 30000) ∉ id <$> rules sampleStore)
  ∧ rules (removeRule "z" (Resolved ()) sampleStore).1 = rules sampleStore.
Proof.
  assert (Hnew : id (sampleRule "z" 30000) ∉ id <$> rules sampleStore).
  { refine (bool_decide_unpack _ _). vm_compute. exact I. }
  split; [exact Hnew |].
  exact (proj2 (add_then_remove_restores_rules (sampleRule "z" 30000)
                  sampleStore Hnew)).
Defined.

(** X8: in every store reachable from the initial one by store actions and
    incoming events, in any order, the conflict list has at most 200 records
    and no two records for the same rule and path. *)
Theorem reachable_conflicts_bounded_unique (acts : list StoreAction) :
  (length (conflicts (foldl dispatch initialStore acts)) ≤ 200)%nat
  ∧ NoDup (conflictKey <$> conflicts (foldl dispatch initialStore acts)).
Proof.
  induction acts as [|a acts IH] using rev_ind.
  - simpl. split; [lia | constructor].
  - rewrite foldl_app. simpl. destruct IH as [Hlen Hnd]. split.
    + by apply dispatch_conflicts_length.
    + by apply dispatch_conflicts_NoDup.
Qed.

(** X9: the store does not check that an event's rule id belongs to a known
    rule: a status, conflict or error event for a rule that [removeRule] has
    just purged puts a status entry, a conflict record and an error entry
    for that id back. *)
Theorem late_events_resurrect_removed_rule (rid : string) (s : FolderSyncStore)
    (st : FolderSyncStatusEvent) (ce : FolderSyncConflictEvent)
    (ee : FolderSyncErrorEvent) :
  se_ruleId st = rid → ce_ruleId ce = rid → ee_ruleId ee = rid →
  (∀ r, r ∈ rules (removeRule rid (Resolved ()) s).1 → id r ≠ rid)
  ∧ is_Some (statuses
               (onStatusEvent st (removeRule rid (Resolved ()) s).1) !! rid)
  ∧ (∃ c, c ∈ conflicts
                (onConflictEvent ce (removeRule rid (Resolved ()) s).1)
          ∧ c_ruleId c = rid)
  ∧ errors (onErrorEvent ee (removeRule rid (Resolved ()) s).1) !! rid
    = Some (ee_error ee).
Proof.
  intros Hs Hc He. split; [| split; [| split]].
  - simpl. intros r Hin. by apply list_elem_of_filter in Hin as [? _].
  - unfold onStatusEvent. simpl. rewrite Hs, lookup_insert_eq. eauto.
  - exists (conflictOfEvent ce). split; [| exact Hc].
    apply list_elem_of_lookup. exists 0%nat. reflexivity.
  - unfold onErrorEvent. simpl. by rewrite He, lookup_insert_eq.
Qed.

Lemma late_events_resurrect_removed_rule_witness :
  errors (onErrorEvent {| ee_ruleId := "r"; ee_error := "late" |}
            (removeRule "r" (Resolved ()) sampleStore).1) !! "r"
  = Some "late".
Proof.
  exact (proj2 (proj2 (proj2
    (late_events_resurrect_removed_rule "r" sampleStore
       {| se_ruleId := "r"; se_status := Watching; se_lastChange := None;
          se_filesWatching := 0; se_currentFile := None; se_progress := None |}
       (sampleEvent 1 10)
       {| ee_ruleId := "r"; ee_error := "late" |}
       eq_refl eq_refl eq_refl)))).
Defined.

(** ** The panel's derived data *)

Section PanelFacts.

Import PanelView.

Implicit Types (cs : list FolderSyncConflict) (rs : list FolderSyncRule).

(** The count map holds, for each rule id, the number of its records, and
    no entry at all for a rule without records. *)
Lemma conflictCountByRule_lookup cs (rid : string) :
  conflictCountByRule cs !! rid
  = match length (filter (λ c, c_ruleId c = rid) cs) with
    | O => None
    | n => Some n
    end.
Proof.
  unfold conflictCountByRule.
  induction cs as [|c cs IH] using rev_ind; [reflexivity |].
  rewrite foldl_app, filter_app, length_app. simpl.
  rewrite filter_cons, filter_nil. unfold countStep at 1.
  destruct (decide (c_ruleId c = rid)) as [->|Hne].
  - rewrite lookup_insert_eq, IH. simpl.
    destruct (length (filter _ cs)) as [|n]; simpl; f_equal; lia.
  - rewrite lookup_insert_ne by done. rewrite IH. simpl.
    by rewrite Nat.add_0_r.
Qed.

Lemma ruleConflictCount_length cs rule :
  ruleConflictCount cs rule
  = length (filter (λ c, c_ruleId c = id rule) cs).
Proof.
  unfold ruleConflictCount. rewrite conflictCountByRule_lookup.
  by destruct (length _).
Qed.

Lemma clearConflicts_conflicts (rid : string) (s : FolderSyncStore) :
  rid ≠ "" →
  conflicts (clearConflicts (Some rid) s)
  = filter (λ c, c_ruleId c ≠ rid) (conflicts s).
Proof.
  intros Hne. unfold clearConflicts, truthy. simpl.
  rewrite bool_decide_eq_true_2 by done.
  apply list_filter_iff. intros c. split; congruence.
Qed.

End PanelFacts.

Section TextFacts.

Import Text.

Variable sep : ascii.

Lemma splitOn_nonempty s : splitOn sep s ≠ [].
Proof.
  destruct s as [|c s]; simpl; [done |].
  destruct (Ascii.eqb c sep); [done |]. by destruct (splitOn sep s).
Qed.

Lemma splitOn_free s : occurs sep s = false → splitOn sep s = [s].
Proof.
  induction s as [|c s IH]; simpl; [done |].
  intros [Hc Hs]%orb_false_elim. rewrite Hc, (IH Hs). done.
Qed.

(** The pieces end with a separator-free piece, which is the whole string
    or what follows its last separator. *)
Lemma splitOn_last s :
  ∃ (pieces : list string) (piece : string),
    splitOn sep s = (pieces ++ [piece])%list
    ∧ occurs sep piece = false
    ∧ (pieces = [] → s = piece)
    ∧ (pieces ≠ [] → ∃ pre, s = pre +:+ String sep piece).
Proof.
  induction s as [|c s (ps & lp & Hsplit & Hfree & Hnil & Hcons)].
  - exists [], "". simpl. repeat split; done.
  - simpl. destruct (Ascii.eqb c sep) eqn:Hc.
    + apply Ascii.eqb_eq in Hc as ->.
      exists ("" :: ps), lp. rewrite Hsplit. repeat split; try done.
      intros _. destruct ps as [|p ps].
      * exists "". simpl. by rewrite (Hnil eq_refl).
      * destruct (Hcons ltac:(done)) as [pre ->]. by exists (String sep pre).
    + rewrite Hsplit. destruct ps as [|p ps]; simpl.
      * exists [], (String c lp). simpl. rewrite Hc, Hfree.
        repeat split; try done. intros _. by rewrite (Hnil eq_refl).
      * exists (String c p :: ps), lp. repeat split; try done.
        intros _. destruct (Hcons ltac:(done)) as [pre ->].
        by exists (String c pre).
Qed.

Lemma splitOn_two x y : (2 ≤ length (splitOn sep (x +:+ String sep y)))%nat.
Proof.
  induction x as [|c x IH]; simpl.
  - rewrite Ascii.eqb_refl. simpl.
    pose proof (splitOn_nonempty y). destruct (splitOn sep y); [done | simpl; lia].
  - destruct (Ascii.eqb c sep); simpl; [lia |].
    destruct (splitOn sep (x +:+ String sep y)); simpl in *; lia.
Qed.

Lemma splitOn_last_after x y :
  last (splitOn sep (x +:+ String sep y)) = last (splitOn sep y).
Proof.
  induction x as [|c x IH]; simpl.
  - rewrite Ascii.eqb_refl.
    pose proof (splitOn_nonempty y). by destruct (splitOn sep y).
  - pose proof (splitOn_two x y) as Hlen.
    destruct (Ascii.eqb c sep).
    + destruct (splitOn sep (x +:+ String sep y)) as [|p ps]; [simpl in Hlen; lia |].
      exact IH.
    + destruct (splitOn sep (x +:+ String sep y)) as [|p [|p' ps]];
        [simpl in Hlen; lia | simpl in Hlen; lia |].
      exact IH.
Qed.

End TextFacts.

Lemma lastSegment_spec (path : string) :
  Text.occurs Text.SLASH (Text.lastSegment path) = false
  ∧ (path = Text.lastSegment path
     ∨ ∃ pre, path = pre +:+ String Text.SLASH (Text.lastSegment path)).
Proof.
  destruct (splitOn_last Text.SLASH path) as (ps & lp & Hs & Hfree & Hnil & Hcons).
  unfold Text.lastSegment. rewrite Hs, last_snoc. simpl.
  split; [exact Hfree |].
  destruct ps as [|p ps]; [left; by apply Hnil | right; by apply Hcons].
Qed.

Lemma lastSegment_no_slash (path : string) :
  Text.occurs Text.SLASH path = false → Text.lastSegment path = path.
Proof.
  intros Hfree. unfold Text.lastSegment. by rewrite splitOn_free.
Qed.

Lemma lastSegment_after_slash (pre seg : string) :
  Text.occurs Text.SLASH seg = false →
  Text.lastSegment (pre +:+ String Text.SLASH seg) = seg.
Proof.
  intros Hfree. unfold Text.lastSegment.
  by rewrite splitOn_last_after, splitOn_free.
Qed.

Lemma lastSegment_trailing_slash (pre : string) :
  Text.lastSegment (pre +:+ "/") = "".
Proof.
  unfold Text.lastSegment.
  change "/" with (String Text.SLASH "").
  by rewrite splitOn_last_after.
Qed.

(** X10: the panel's per-rule conflict count is the number of records of
    that rule in the store's list; the count map has no entry for a rule
    without records, so the badge and the per-rule "Clear conflicts" button
    are shown exactly for the rules that have at least one record. *)
Theorem conflict_count_matches_list (cs : list FolderSyncConflict)
    (rule : FolderSyncRule) :
  PanelView.ruleConflictCount cs rule
    = length (filter (λ c, c_ruleId c = id rule) cs)
  ∧ (PanelView.conflictCountByRule cs !! id rule = None
     ↔ ∀ c, c ∈ cs → c_ruleId c ≠ id rule)
  ∧ (PanelView.showRuleConflicts cs rule = true
     ↔ ∃ c, c ∈ cs ∧ c_ruleId c = id rule).
Proof.
  pose proof (ruleConflictCount_length cs rule) as Hcount.
  split; [exact Hcount |]. split.
  - rewrite conflictCountByRule_lookup.
    destruct (filter (λ c, c_ruleId c = id rule) cs) as [|c0 l] eqn:Hf; simpl.
    + split; [| done]. intros _ c Hc Heq.
      eapply (filter_nil_not_elem_of _ _ c Hf); done.
    + split; [done |]. intros Hall. exfalso.
      assert (Hin : c0 ∈ filter (λ c, c_ruleId c = id rule) cs)
        by (rewrite Hf; by left).
      apply list_elem_of_filter in Hin as [Heq Hin]. by apply (Hall c0).
  - unfold PanelView.showRuleConflicts. rewrite bool_decide_eq_true, Hcount.
    split.
    + intros Hpos.
      destruct (filter (λ c, c_ruleId c = id rule) cs) as [|c0 l] eqn:Hf;
        [simpl in Hpos; lia |].
      assert (Hin : c0 ∈ filter (λ c, c_ruleId c = id rule) cs)
        by (rewrite Hf; by left).
      apply list_elem_of_filter in Hin as [Heq Hin]. eauto.
    + intros (c & Hin & Heq).
      assert (Hin' : c ∈ filter (λ c, c_ruleId c = id rule) cs)
        by (by apply list_elem_of_filter).
      destruct (filter _ cs); [by apply elem_of_nil in Hin' | simpl; lia].
Qed.

(** X11: after the per-rule "Clear conflicts" button of a rule has run
    [clearConflicts(rule.id)], that rule's count is 0 and its badge is gone,
    whatever the rule's id; if the id is not empty, every other rule keeps
    its count. *)
Theorem clear_button_zeroes_count (rule other : FolderSyncRule)
    (s : FolderSyncStore) :
  PanelView.ruleConflictCount
    (conflicts (clearConflicts (Some (id rule)) s)) rule = 0%nat
  ∧ PanelView.showRuleConflicts
      (conflicts (clearConflicts (Some (id rule)) s)) rule = false
  ∧ (id rule ≠ "" → id other ≠ id rule →
     PanelView.ruleConflictCount
       (conflicts (clearConflicts (Some (id rule)) s)) other
     = PanelView.ruleConflictCount (conflicts s) other).
Proof.
  assert (Hzero : PanelView.ruleConflictCount
                    (conflicts (clearConflicts (Some (id rule)) s)) rule = 0%nat).
  { rewrite ruleConflictCount_length.
    unfold clearConflicts, truthy. simpl. case_bool_decide; [| done].
    rewrite filter_none; [done |].
    intros c Hc Heq. apply list_elem_of_filter in Hc as [Hne _].
    apply Hne. by rewrite Heq. }
  split; [exact Hzero |]. split.
  - unfold PanelView.showRuleConflicts. rewrite Hzero.
    apply bool_decide_eq_false_2. lia.
  - intros Hid Hother. rewrite !ruleConflictCount_length.
    rewrite (clearConflicts_conflicts (id rule) s Hid).
    f_equal. by apply (filter_other_rule c_ruleId).
Qed.

Section PanelNames.

Import PanelView.

Lemma filter_unique_key {A} (key : A → string) (l : list A) (x : A) :
  NoDup (key <$> l) → x ∈ l → filter (λ y, key y = key x) l = [x].
Proof.
  induction l as [|y l IH]; intros Hnd Hin; [by apply elem_of_nil in Hin |].
  rewrite fmap_cons in Hnd. apply NoDup_cons in Hnd as [Hy Hnd].
  rewrite filter_cons. apply elem_of_cons in Hin as [->|Hin].
  - rewrite decide_True by done. f_equal. apply filter_none.
    intros z Hz Heq. apply Hy. rewrite <- Heq. by apply list_elem_of_fmap_2.
  - rewrite decide_False; [by apply IH |].
    intros Heq. apply Hy. rewrite Heq. by apply list_elem_of_fmap_2.
Qed.

Lemma rulesById_lookup (rs : list FolderSyncRule) (k : string) :
  rulesById rs !! k = last (filter (λ r, id r = k) rs).
Proof. apply (foldl_insert_lookup id). Qed.

End PanelNames.

(** X12: the title of a rule card is the part of the local path after its
    last slash, and the whole path when the path has no slash; when the part
    after the last slash is empty (the path ends in a slash) the title is
    the whole path instead, so the title is empty only for an empty path.
    The "Recent conflicts" list has no such fallback: it shows the part
    after the last slash even when that is empty.  Every path is of one of
    the two shapes. *)
Theorem card_title_is_last_segment (rule : FolderSyncRule) :
  (PanelView.cardRuleName rule = "" ↔ localPath rule = "")
  ∧ (Text.occurs Text.SLASH (localPath rule) = false →
     PanelView.cardRuleName rule = localPath rule
     ∧ ∀ rs c, PanelView.rulesById rs !! c_ruleId c = Some rule →
               PanelView.conflictRuleName rs c = localPath rule)
  ∧ (∀ pre seg,
       localPath rule = pre +:+ String Text.SLASH seg →
       Text.occurs Text.SLASH seg = false →
       (seg ≠ "" → PanelView.cardRuleName rule = seg)
       ∧ (seg = "" → PanelView.cardRuleName rule = localPath rule)
       ∧ ∀ rs c, PanelView.rulesById rs !! c_ruleId c = Some rule →
                 PanelView.conflictRuleName rs c = seg)
  ∧ (Text.occurs Text.SLASH (localPath rule) = false
     ∨ ∃ pre seg, localPath rule = pre +:+ String Text.SLASH seg
                  ∧ Text.occurs Text.SLASH seg = false).
Proof.
  unfold PanelView.cardRuleName, PanelView.conflictRuleName.
  destruct (lastSegment_spec (localPath rule)) as [Hfree Hshape].
  split; [| split; [| split]].
  - case_decide as Hseg; [done |]. split; [done |].
    intros Hpath. destruct Hseg. by rewrite Hpath.
  - intros Hno. rewrite (lastSegment_no_slash _ Hno). split.
    + by case_decide.
    + intros rs c Hrule. rewrite Hrule. by apply lastSegment_no_slash.
  - intros pre seg Hpath Hseg.
    assert (Hlast : Text.lastSegment (localPath rule) = seg)
      by (rewrite Hpath; by apply lastSegment_after_slash).
    rewrite Hlast. split; [| split].
    + intros Hne. by rewrite decide_False.
    + intros He. by rewrite decide_True.
    + intros rs c Hrule. rewrite Hrule. exact Hlast.
  - destruct Hshape as [Hsame | [pre Hpre]].
    + left. by rewrite Hsame.
    + right. by exists pre, (Text.lastSegment (localPath rule)).
Qed.

(** X13: [rulesById] maps an id to the last rule of the list that has it,
    and to each rule itself when ids are unique; a conflict record whose
    rule id no rule has is listed under that id. *)
Theorem rulesById_last_rule_wins (rs : list FolderSyncRule) (k : string)
    (c : FolderSyncConflict) :
  PanelView.rulesById rs !! k = last (filter (λ r, id r = k) rs)
  ∧ (c_ruleId c ∉ id <$> rs → PanelView.conflictRuleName rs c = c_ruleId c)
  ∧ (NoDup (id <$> rs) →
     ∀ rule, rule ∈ rs → PanelView.rulesById rs !! id rule = Some rule).
Proof.
  split; [apply rulesById_lookup |]. split.
  - intros Hunknown. unfold PanelView.conflictRuleName.
    rewrite rulesById_lookup, filter_none; [done |].
    intros r Hr Heq. apply Hunknown. rewrite <- Heq.
    by apply list_elem_of_fmap_2.
  - intros Hnd rule Hin.
    by rewrite rulesById_lookup, (filter_unique_key id rs rule Hnd Hin).
Qed.

(** ** The rule editor: exclude patterns and saving *)

Section EditorMore.

Import Editor.

Lemma splitLines_splitOn s : splitLines s = Text.splitOn LF s.
Proof. induction s as [|c s IH]; simpl; [done |]. by rewrite IH. Qed.

Lemma joinLines_cons x y l :
  joinLines (x :: y :: l) = x +:+ String LF (joinLines (y :: l)).
Proof. reflexivity. Qed.

Lemma splitLines_cons c s :
  splitLines (String c s)
  = if Ascii.eqb c LF then "" :: splitLines s
    else match splitLines s with
         | piece :: pieces => String c piece :: pieces
         | [] => [String c EmptyString]
         end.
Proof. reflexivity. Qed.

Lemma joinLines_splitLines s : joinLines (splitLines s) = s.
Proof.
  induction s as [|c s IH]; [reflexivity |].
  pose proof (splitOn_nonempty LF s) as Hne.
  rewrite <- splitLines_splitOn in Hne.
  rewrite splitLines_cons.
  destruct (Ascii.eqb c LF) eqn:Hc.
  - apply Ascii.eqb_eq in Hc as ->.
    destruct (splitLines s) as [|p ps]; [done |].
    rewrite joinLines_cons, IH. reflexivity.
  - destruct (splitLines s) as [|p [|p' ps]]; [done | |].
    + change (joinLines [p]) with p in IH.
      change (joinLines [String c p]) with (String c p). by rewrite IH.
    + rewrite joinLines_cons in IH. rewrite joinLines_cons, <- IH.
      reflexivity.
Qed.

Lemma splitLines_line x y :
  Text.occurs LF x = false →
  splitLines (x +:+ String LF y) = x :: splitLines y.
Proof.
  induction x as [|c x IH]; simpl.
  - done.
  - intros [Hc Hx]%orb_false_elim. rewrite Hc, (IH Hx). done.
Qed.

Lemma splitLines_joinLines l :
  l ≠ [] → Forall (λ p, Text.occurs LF p = false) l →
  splitLines (joinLines l) = l.
Proof.
  induction l as [|x l IH]; [done |]. intros _ Hall.
  apply Forall_cons in Hall as [Hx Hl].
  destruct l as [|y l].
  - simpl. rewrite splitLines_splitOn. by apply splitOn_free.
  - rewrite joinLines_cons, splitLines_line by done.
    f_equal. by apply IH.
Qed.

Lemma splitLines_pieces_free s p :
  p ∈ splitLines s → Text.occurs LF p = false.
Proof.
  revert p. induction s as [|c s IH]; intros p; simpl.
  - intros ->%list_elem_of_singleton. done.
  - destruct (Ascii.eqb c LF) eqn:Hc.
    + intros [->|Hin]%elem_of_cons; [done | by apply IH].
    + pose proof (splitOn_nonempty LF s) as Hne.
      rewrite <- splitLines_splitOn in Hne.
      destruct (splitLines s) as [|q qs]; [done |].
      intros [->|Hin]%elem_of_cons.
      * simpl. rewrite Hc. apply IH. by left.
      * apply IH. by right.
Qed.















(** White space of more than one byte is trimmed too: a no-break space
    (U+00A0), a line separator (U+2028) and a byte-order mark (U+FEFF);
    other text of more than one byte (here U+00E9) is kept. *)
Example trim_beyond_ascii :
  parseExcludePatterns (String "194" (String "160" "")) = []
  ∧ parseExcludePatterns (String "194" (String "160" "build")) = ["build"]
  ∧ trim ("  a b" +:+ String "226" (String "128" (String "168" (String "009" ""))))
    = "a b"
  ∧ trim (String "239" (String "187" (String "191" "x"))) = "x"
  ∧ trim (String "195" (String "169" "")) = String "195" (String "169" "").
Proof. repeat split; vm_compute; reflexivity. Qed.


Lemma parseExcludePatterns_joinLines l :
  Forall Patterns.clean l → parseExcludePatterns (joinLines l) = l.
Proof.
  intros Hall. unfold parseExcludePatterns.
  destruct (decide (l = [])) as [->|Hne]; [reflexivity |].
  rewrite splitLines_joinLines; [| done |].
  - assert (Htrim : trim <$> l = l).
    { rewrite <- (list_fmap_id l) at 2. apply list_fmap_ext.
      intros i p Hp. simpl.
      eapply Forall_lookup_1 in Hall as (_ & Ht & _); [exact Ht | exact Hp]. }
    rewrite Htrim. apply filter_keeps_all. intros p Hp.
    by eapply (proj1 (Forall_forall _ _) Hall) in Hp as (? & _).
  - eapply Forall_impl; [exact Hall |]. by intros p (_ & _ & ?).
Qed.

Lemma handleSave_valid editRule st rpc :
  ed_profileId st ≠ "" → ed_bucket st ≠ "" → ed_localPath st ≠ "" →
  handleSave editRule st rpc
  = ([SetSaving true]
       ++ match editRule with
          | Some r =>
              CallUpdateRule (buildInput st) (id r)
                :: match rpc with
                   | Resolved _ => [ToastSuccess "Sync rule updated"; OnDone]
                   | Rejected e => [ToastError (errorMessage e)]
                   end
          | None =>
              CallAddRule (buildInput st)
                :: match rpc with
                   | Resolved _ => [ToastSuccess "Sync rule created"; OnDone]
                   | Rejected e => [ToastError (errorMessage e)]
                   end
          end
       ++ [SetSaving false])%list.
Proof.
  intros Hp Hb Hl. unfold handleSave.
  rewrite bool_decide_eq_false_2; [done |]. intros [?|[?|?]]; done.
Qed.

Lemma formStep_keeps_empty_bucket st a :
  ed_bucket st = "" → (∀ b, a ≠ ChangeBucket b) →
  ed_bucket (formStep st a) = "".
Proof.
  intros Hb Ha.
  destruct a as [v|v|v|v|path|v|v|o|v| |rpc]; simpl; try done.
  - by destruct (Ha v).
  - destruct path as [p|]; [| done]. by destruct (decide (p = "")).
Qed.

End EditorMore.

(** X14: splitting a text into lines and joining the lines again gives the
    text back, and a text always has at least one line. *)
Theorem join_split_lines_roundtrip (text : string) :
  Editor.joinLines (Editor.splitLines text) = text
  ∧ Editor.splitLines text ≠ []
  ∧ ∀ line, line ∈ Editor.splitLines text →
            Text.occurs Editor.LF line = false.
Proof.
  split; [apply joinLines_splitLines |]. split.
  - rewrite splitLines_splitOn. apply splitOn_nonempty.
  - intros line. apply splitLines_pieces_free.
Qed.


(** X16: opening the editor on a rule and saving without touching the form
    re-submits the rule's own profile, bucket, prefix, path, direction,
    conflict resolution and poll interval, under the rule's id; its exclude
    patterns too when each of them is non-empty, trimmed and on one line. *)
Theorem edit_without_changes_resubmits_rule (r : FolderSyncRule)
    (rpc : Outcome unit) :
  profileId r ≠ "" → bucket r ≠ "" → localPath r ≠ "" →
  Forall Patterns.clean (excludePatterns r) →
  Editor.buildInput (Editor.initialState (Some r)) = Patterns.inputOfRule r
  ∧ Editor.submitted
      (Editor.handleSave (Some r) (Editor.initialState (Some r)) rpc)
    = [Patterns.inputOfRule r]
  ∧ Editor.CallUpdateRule (Patterns.inputOfRule r) (id r)
      ∈ Editor.handleSave (Some r) (Editor.initialState (Some r)) rpc.
Proof.
  intros Hp Hb Hl Hclean.
  assert (Hin : Editor.buildInput (Editor.initialState (Some r))
                = Patterns.inputOfRule r).
  { unfold Editor.buildInput, Patterns.inputOfRule. simpl.
    by rewrite parseExcludePatterns_joinLines. }
  split; [exact Hin |].
  rewrite (handleSave_valid (Some r) (Editor.initialState (Some r)) rpc)
    by done.
  rewrite Hin. split.
  - by destruct rpc.
  - apply elem_of_app. right. apply elem_of_app. left. by left.
Qed.

Lemma edit_without_changes_resubmits_rule_witness :
  (profileId (sampleRule "r" 60000) ≠ "" ∧ bucket (sampleRule "r" 60000) ≠ ""
   ∧ localPath (sampleRule "r" 60000) ≠ "")
  ∧ Forall Patterns.clean (excludePatterns (sampleRule "r" 60000))
  ∧ Editor.buildInput (Editor.initialState (Some (sampleRule "r" 60000)))
    = Patterns.inputOfRule (sampleRule "r" 60000).
Proof.
  assert (Hclean : Forall Patterns.clean (excludePatterns (sampleRule "r" 60000))).
  { repeat constructor; done. }
  split; [repeat split; done |]. split; [exact Hclean |].
  exact (proj1 (edit_without_changes_resubmits_rule (sampleRule "r" 60000)
                  (Resolved ()) ltac:(done) ltac:(done) ltac:(done) Hclean)).
Defined.

(** X17: a click on the save button does nothing while the button is
    disabled (a save in flight, or a required field empty); when it is
    enabled the handler issues exactly one call, add-rule for a new rule
    and update-rule with the edited rule's id otherwise, sets the saving
    flag first and clears it last whether the call succeeds or not, and
    calls [onDone] only on success. *)
Theorem save_click_issues_one_call (editRule : option FolderSyncRule)
    (st : Editor.EditorState) (rpc : Outcome unit) :
  (EditorView.saveDisabled st = true → EditorView.clickSave editRule st rpc = [])
  ∧ (EditorView.saveDisabled st = false →
     EditorView.clickSave editRule st rpc = Editor.handleSave editRule st rpc
     ∧ Editor.submitted (Editor.handleSave editRule st rpc)
       = [Editor.buildInput st]
     ∧ head (Editor.handleSave editRule st rpc) = Some (Editor.SetSaving true)
     ∧ last (Editor.handleSave editRule st rpc) = Some (Editor.SetSaving false)
     ∧ (Editor.OnDone ∈ Editor.handleSave editRule st rpc
        ↔ ∃ u, rpc = Resolved u)
     ∧ (Editor.handleSave editRule st rpc) !! 1%nat
       = Some match editRule with
              | Some r => Editor.CallUpdateRule (Editor.buildInput st) (id r)
              | None => Editor.CallAddRule (Editor.buildInput st)
              end).
Proof.
  unfold EditorView.clickSave. split; [by intros -> |].
  intros Hen. rewrite Hen. split; [done |].
  unfold EditorView.saveDisabled in Hen.
  apply orb_false_elim in Hen as [Hen Hl].
  apply orb_false_elim in Hen as [Hen Hb].
  apply orb_false_elim in Hen as [_ Hp].
  apply bool_decide_eq_false in Hp, Hb, Hl.
  rewrite (handleSave_valid editRule st rpc Hp Hb Hl).
  destruct editRule as [r|], rpc as [u|e]; simpl;
    (split; [done |]); (split; [done |]); (split; [done |]);
    (split; [| done]).
  - split; [eauto |]. intros _. apply list_elem_of_lookup. by exists 3%nat.
  - split; [| by intros [? ?]]. intros Hin.
    repeat (apply elem_of_cons in Hin as [Hin|Hin]; [discriminate |]).
    by apply elem_of_nil in Hin.
  - split; [eauto |]. intros _. apply list_elem_of_lookup. by exists 3%nat.
  - split; [| by intros [? ?]]. intros Hin.
    repeat (apply elem_of_cons in Hin as [Hin|Hin]; [discriminate |]).
    by apply elem_of_nil in Hin.
Qed.

(** X18: changing the profile empties the bucket, so from then on the save
    handler rejects the form ("required fields") and issues no call,
    whatever else is edited, until a bucket is chosen again. *)
Theorem profile_change_requires_new_bucket (editRule : option FolderSyncRule)
    (st : Editor.EditorState) (v : string) (acts : list Editor.FormAction)
    (rpc : Outcome unit) :
  Forall (λ a, ∀ b, a ≠ Editor.ChangeBucket b) acts →
  Editor.ed_bucket
    (foldl Editor.formStep (Editor.formStep st (Editor.ChangeProfile v)) acts)
    = ""
  ∧ Editor.handleSave editRule
      (foldl Editor.formStep (Editor.formStep st (Editor.ChangeProfile v)) acts)
      rpc
    = [Editor.ToastError "Please fill in all required fields"]
  ∧ EditorView.saveDisabled
      (foldl Editor.formStep (Editor.formStep st (Editor.ChangeProfile v)) acts)
    = true.
Proof.
  intros Hacts.
  assert (Hb : Editor.ed_bucket
                 (foldl Editor.formStep
                    (Editor.formStep st (Editor.ChangeProfile v)) acts) = "").
  { induction acts as [|a acts IH] using rev_ind; [reflexivity |].
    apply Forall_app in Hacts as [Hacts Ha].
    rewrite foldl_app. simpl. apply formStep_keeps_empty_bucket.
    - by apply IH.
    - intros b. by apply (proj1 (Forall_singleton _ _) Ha). }
  split; [exact Hb |]. split.
  - unfold Editor.handleSave. rewrite bool_decide_eq_true_2; [done |].
    right; by left.
  - unfold EditorView.saveDisabled. rewrite Hb. simpl.
    by rewrite orb_true_r.
Qed.

Lemma profile_change_requires_new_bucket_witness :
  Forall (λ a, ∀ b, a ≠ Editor.ChangeBucket b)
    [Editor.ChangeLocalPath "/tmp/y"]
  ∧ Editor.ed_bucket
      (foldl Editor.formStep
         (Editor.formStep sampleForm (Editor.ChangeProfile "other"))
         [Editor.ChangeLocalPath "/tmp/y"]) = "".
Proof.
  assert (Hacts : Forall (λ a, ∀ b, a ≠ Editor.ChangeBucket b)
                    [Editor.ChangeLocalPath "/tmp/y"]).
  { repeat constructor. intros b. discriminate. }
  split; [exact Hacts |].
  exact (proj1 (profile_change_requires_new_bucket None sampleForm "other"
                  [Editor.ChangeLocalPath "/tmp/y"] (Resolved ()) Hacts)).
Defined.

(** ** The object browser's store *)

Section ObjectStoreFacts.

Import ObjectStore.

Lemma navigateBack_after (s : ObjectState) (c : string) (h : list string) :
  prefixHistory s = (h ++ [c])%list →
  currentPrefix (navigateBack s) = c ∧ prefixHistory (navigateBack s) = h.
Proof.
  intros Hh. unfold navigateBack. rewrite Hh, last_snoc. simpl.
  split; [done |].
  rewrite length_app. simpl.
  replace (length h + 1 - 1)%nat with (length h) by lia.
  apply take_app_length.
Qed.

Lemma navigate_down_up (ps : list string) : ∀ s : ObjectState,
  currentPrefix (Nat.iter (length ps) navigateBack
                   (foldl (λ t p, navigateToPrefix p t) s ps))
    = currentPrefix s
  ∧ prefixHistory (Nat.iter (length ps) navigateBack
                     (foldl (λ t p, navigateToPrefix p t) s ps))
    = prefixHistory s.
Proof.
  induction ps as [|p ps IH]; intros s; [done |].
  simpl. destruct (IH (navigateToPrefix p s)) as [Hc Hh]. simpl in Hc, Hh.
  apply navigateBack_after. exact Hh.
Qed.

Lemma with_selectedKeys_same (s : ObjectState) :
  with_selectedKeys (selectedKeys s) s = s.
Proof. by destruct s. Qed.

Lemma act_pageHistory (s : ObjectState) (a : Action) :
  pageHistory s = [] → pageHistory (act s a) = [].
Proof.
  intros Hp. destruct a as [rpc|p| |f|k| | | |partial]; simpl; try done.
  - by destruct rpc.
  - unfold navigateBack. by destruct (last (prefixHistory s)).
Qed.

Lemma size_list_to_set_bound (l : list string) :
  (size (list_to_set l : gset string) ≤ length l)%nat.
Proof.
  induction l as [|x l IH].
  - change (list_to_set [] : gset string) with (∅ : gset string).
    by rewrite size_empty.
  - change (list_to_set (x :: l) : gset string)
      with ({[x]} ∪ list_to_set l : gset string).
    rewrite size_union_alt, size_singleton. simpl.
    assert (size (list_to_set l ∖ {[x]} : gset string)
            ≤ size (list_to_set l : gset string))%nat
      by (apply subseteq_size; intros k Hk;
          by apply elem_of_difference in Hk as [? _]).
    lia.
Qed.

End ObjectStoreFacts.

(** X19: going into prefixes and back the same number of times returns to
    the prefix and the history one started from.  A step into a prefix
    empties the selection; a step back from a non-empty history empties the
    selection and the page history too, moves to the last prefix of the
    history and drops it from the history, and keeps the listing shown; at
    the root (empty history) going back changes nothing at all, so the
    selection is kept there. *)
Theorem navigate_back_undoes_navigate (ps : list string)
    (s : ObjectStore.ObjectState) :
  ObjectStore.currentPrefix
    (Nat.iter (length ps) ObjectStore.navigateBack
       (foldl (λ t p, ObjectStore.navigateToPrefix p t) s ps))
    = ObjectStore.currentPrefix s
  ∧ ObjectStore.prefixHistory
      (Nat.iter (length ps) ObjectStore.navigateBack
         (foldl (λ t p, ObjectStore.navigateToPrefix p t) s ps))
    = ObjectStore.prefixHistory s
  ∧ (∀ p, ObjectStore.selectedKeys (ObjectStore.navigateToPrefix p s) = ∅)
  ∧ (∀ h c, ObjectStore.prefixHistory s = (h ++ [c])%list →
       ObjectStore.selectedKeys (ObjectStore.navigateBack s) = ∅
       ∧ ObjectStore.pageHistory (ObjectStore.navigateBack s) = []
       ∧ ObjectStore.currentPrefix (ObjectStore.navigateBack s) = c
       ∧ ObjectStore.prefixHistory (ObjectStore.navigateBack s) = h
       ∧ ObjectStore.objects (ObjectStore.navigateBack s)
         = ObjectStore.objects s
       ∧ ObjectStore.prefixes (ObjectStore.navigateBack s)
         = ObjectStore.prefixes s)
  ∧ (ObjectStore.prefixHistory s ≠ [] →
     ObjectStore.selectedKeys (ObjectStore.navigateBack s) = ∅)
  ∧ (ObjectStore.prefixHistory s = [] →
     ObjectStore.navigateBack s = s
     ∧ ObjectStore.selectedKeys (ObjectStore.navigateBack s)
       = ObjectStore.selectedKeys s).
Proof.
  destruct (navigate_down_up ps s) as [Hc Hh].
  split; [exact Hc |]. split; [exact Hh |]. split; [done |].
  split; [| split].
  - intros h c Hhist.
    destruct (navigateBack_after s c h Hhist) as [Hcur Hrest].
    unfold ObjectStore.navigateBack in *.
    rewrite Hhist, last_snoc in *. done.
  - intros Hne. unfold ObjectStore.navigateBack.
    destruct (last (ObjectStore.prefixHistory s)) as [c|] eqn:Hlast; [done |].
    by apply last_None in Hlast.
  - intros Hroot. unfold ObjectStore.navigateBack. by rewrite Hroot.
Qed.

(** X20: [setSort] always ends on the requested field; a field that was not
    the sort field starts ascending; clicking the current sort field twice
    restores the store exactly, and three clicks on any field equal one. *)
Theorem setSort_toggles_direction (f : ObjectStore.SortField)
    (s : ObjectStore.ObjectState) :
  ObjectStore.sortField (ObjectStore.setSort f s) = f
  ∧ (ObjectStore.sortField s ≠ f →
     ObjectStore.sortDir (ObjectStore.setSort f s) = ObjectStore.Asc)
  ∧ (ObjectStore.sortField s = f →
     ObjectStore.sortDir (ObjectStore.setSort f s) ≠ ObjectStore.sortDir s
     ∧ ObjectStore.setSort f (ObjectStore.setSort f s) = s)
  ∧ ObjectStore.setSort f (ObjectStore.setSort f (ObjectStore.setSort f s))
    = ObjectStore.setSort f s.
Proof.
  destruct s as [o p l e c h t n g sf sd fl sel].
  destruct sf, f, sd; unfold ObjectStore.setSort; simpl;
    repeat split; intros; congruence.
Qed.

(** X21: [toggleSelect(key)] flips the membership of that key and of no
    other key; toggling the same key twice restores the store. *)
Theorem toggleSelect_flips_one_key (key : string)
    (s : ObjectStore.ObjectState) :
  (key ∈ ObjectStore.selectedKeys (ObjectStore.toggleSelect key s)
   ↔ key ∉ ObjectStore.selectedKeys s)
  ∧ (∀ k, k ≠ key →
       k ∈ ObjectStore.selectedKeys (ObjectStore.toggleSelect key s)
       ↔ k ∈ ObjectStore.selectedKeys s)
  ∧ ObjectStore.toggleSelect key (ObjectStore.toggleSelect key s) = s.
Proof.
  destruct s as [o p l e c h t n g sf sd fl sel].
  unfold ObjectStore.toggleSelect, ObjectStore.with_selectedKeys. simpl.
  split; [| split].
  - destruct (decide (key ∈ sel)) as [Hin|Hout].
    + rewrite elem_of_difference, elem_of_singleton. tauto.
    + rewrite elem_of_union, elem_of_singleton. tauto.
  - intros k Hne. destruct (decide (key ∈ sel)) as [Hin|Hout].
    + rewrite elem_of_difference, elem_of_singleton. tauto.
    + rewrite elem_of_union, elem_of_singleton. tauto.
  - f_equal. destruct (decide (key ∈ sel)) as [Hin|Hout].
    + rewrite decide_False
        by (rewrite elem_of_difference, elem_of_singleton; tauto).
      apply set_eq. intros k.
      rewrite elem_of_union, elem_of_difference, elem_of_singleton.
      destruct (decide (k = key)) as [->|]; tauto.
    + rewrite decide_True
        by (rewrite elem_of_union, elem_of_singleton; tauto).
      apply set_eq. intros k.
      rewrite elem_of_difference, elem_of_union, elem_of_singleton.
      destruct (decide (k = key)) as [->|]; tauto.
Qed.

(** X22: [selectAll] selects exactly the keys of the shown objects and the
    prefixes of the shown folders, at most one entry per shown row; a key
    toggled in that is not shown is dropped by it. *)
Theorem selectAll_selects_shown_rows (s : ObjectStore.ObjectState)
    (k : string) :
  (k ∈ ObjectStore.selectedKeys (ObjectStore.selectAll s)
   ↔ (∃ o, o ∈ ObjectStore.objects s ∧ ObjectStore.o_key o = k)
     ∨ (∃ p, p ∈ ObjectStore.prefixes s ∧ ObjectStore.p_prefix p = k))
  ∧ (size (ObjectStore.selectedKeys (ObjectStore.selectAll s))
     ≤ length (ObjectStore.objects s) + length (ObjectStore.prefixes s))%nat.
Proof.
  unfold ObjectStore.selectAll. simpl. split.
  - rewrite elem_of_list_to_set, elem_of_app, !list_elem_of_fmap.
    split; (intros [(x & ? & ?)|(x & ? & ?)]; [left | right]; eauto).
  - etrans; [apply size_list_to_set_bound |].
    by rewrite length_app, !length_fmap.
Qed.

(** X23: [loadObjects] always ends with [loading] off.  When the listing
    arrives it replaces the shown objects and folders, empties the
    selection and leaves no error; when the call fails the shown listing
    and the selection stay and an error text is recorded: the message of
    the [Error] the call was rejected with, and "Unknown error" when it was
    rejected with anything else.  The prefix, the history and the sort
    settings are never touched. *)
Theorem loadObjects_outcomes (rpc : Outcome ObjectStore.ObjectListRes)
    (s : ObjectStore.ObjectState) :
  ObjectStore.loading (ObjectStore.loadObjects rpc s) = false
  ∧ (∀ result, rpc = Resolved result →
       ObjectStore.objects (ObjectStore.loadObjects rpc s)
         = ObjectStore.res_objects result
       ∧ ObjectStore.prefixes (ObjectStore.loadObjects rpc s)
         = ObjectStore.res_prefixes result
       ∧ ObjectStore.nextCursor (ObjectStore.loadObjects rpc s)
         = ObjectStore.res_nextCursor result
       ∧ ObjectStore.selectedKeys (ObjectStore.loadObjects rpc s) = ∅
       ∧ ObjectStore.error (ObjectStore.loadObjects rpc s) = None)
  ∧ (∀ err, rpc = Rejected err →
       ObjectStore.objects (ObjectStore.loadObjects rpc s)
         = ObjectStore.objects s
       ∧ ObjectStore.prefixes (ObjectStore.loadObjects rpc s)
         = ObjectStore.prefixes s
       ∧ ObjectStore.selectedKeys (ObjectStore.loadObjects rpc s)
         = ObjectStore.selectedKeys s
       ∧ ObjectStore.error (ObjectStore.loadObjects rpc s)
         = Some (errorMessage err))
  ∧ (∀ message, rpc = Rejected (ErrorObject message) →
       ObjectStore.error (ObjectStore.loadObjects rpc s) = Some message)
  ∧ (rpc = Rejected OtherValue →
     ObjectStore.error (ObjectStore.loadObjects rpc s) = Some "Unknown error")
  ∧ ObjectStore.currentPrefix (ObjectStore.loadObjects rpc s)
    = ObjectStore.currentPrefix s
  ∧ ObjectStore.prefixHistory (ObjectStore.loadObjects rpc s)
    = ObjectStore.prefixHistory s
  ∧ ObjectStore.sortField (ObjectStore.loadObjects rpc s)
    = ObjectStore.sortField s
  ∧ ObjectStore.sortDir (ObjectStore.loadObjects rpc s)
    = ObjectStore.sortDir s.
Proof.
  split; [by destruct rpc |]. split; [by intros result -> |].
  split; [by intros err -> |]. split; [by intros message -> |].
  split; [by intros -> |]. by destruct rpc.
Qed.

(** X24: no action of the store ever puts anything into [pageHistory]: in
    every state reachable from the initial one it is empty; and [reset]
    restores the initial state except for the sort field and direction,
    which it keeps. *)
Theorem pageHistory_stays_empty (acts : list ObjectStore.Action)
    (s : ObjectStore.ObjectState) :
  ObjectStore.pageHistory (foldl ObjectStore.act ObjectStore.initialState acts)
    = []
  ∧ ObjectStore.sortField (ObjectStore.reset s) = ObjectStore.sortField s
  ∧ ObjectStore.sortDir (ObjectStore.reset s) = ObjectStore.sortDir s
  ∧ (ObjectStore.sortField s = ObjectStore.ByKey →
     ObjectStore.sortDir s = ObjectStore.Asc →
     ObjectStore.reset s
     = ObjectStore.initialState).
Proof.
  split; [| split; [done | split; [done |]]].
  2: { intros Hf Hd. unfold ObjectStore.reset. by rewrite Hf, Hd. }
  induction acts as [|a acts IH] using rev_ind; [reflexivity |].
  rewrite foldl_app. simpl. by apply act_pageHistory.
Qed.

(** ** Event subscriptions *)

Section RpcClientFacts.

Import RpcClient.

Implicit Types (r : Registry) (e : EventName) (h : Handler).

Lemma dispatch_onEvent_same e h r :
  dispatchEvent e (onEvent e h r).1 = setAdd h (dispatchEvent e r).
Proof.
  unfold onEvent, dispatchEvent.
  destruct (ensureTauriListener e (tauriUnlisteners r)) as [t calls]. simpl.
  rewrite lookup_alter_eq.
  destruct (eventListeners r !! e) as [l|] eqn:Hl.
  - by rewrite Hl.
  - by rewrite lookup_insert_eq.
Qed.

Lemma dispatch_onEvent_other e e' h r :
  e' ≠ e → dispatchEvent e' (onEvent e h r).1 = dispatchEvent e' r.
Proof.
  intros Hne. unfold onEvent, dispatchEvent.
  destruct (ensureTauriListener e (tauriUnlisteners r)) as [t calls]. simpl.
  rewrite lookup_alter_ne by done.
  destruct (eventListeners r !! e); [done |]. by rewrite lookup_insert_ne.
Qed.

Lemma tauri_onEvent e e' h r :
  e' ∈ tauriUnlisteners (onEvent e h r).1 ↔ e' = e ∨ e' ∈ tauriUnlisteners r.
Proof.
  unfold onEvent, ensureTauriListener.
  destruct (decide (e ∈ tauriUnlisteners r)) as [Hin|Hout]; simpl.
  - split; [by right | intros [->|?]; done].
  - rewrite elem_of_union, elem_of_singleton. done.
Qed.

Lemma dispatch_unsubscribe_same e h r :
  dispatchEvent e (unsubscribe e h r).1 = setDelete h (dispatchEvent e r).
Proof.
  unfold unsubscribe, dispatchEvent.
  destruct (cleanupTauriListener e _ (tauriUnlisteners r)) as [t calls]. simpl.
  rewrite lookup_alter_eq. by destruct (eventListeners r !! e).
Qed.

Lemma dispatch_unsubscribe_other e e' h r :
  e' ≠ e → dispatchEvent e' (unsubscribe e h r).1 = dispatchEvent e' r.
Proof.
  intros Hne. unfold unsubscribe, dispatchEvent.
  destruct (cleanupTauriListener e _ (tauriUnlisteners r)) as [t calls]. simpl.
  by rewrite lookup_alter_ne.
Qed.

Lemma tauri_unsubscribe e e' h r :
  e' ∈ tauriUnlisteners (unsubscribe e h r).1
  ↔ e' ∈ tauriUnlisteners r
    ∧ (e' = e → setDelete h (dispatchEvent e r) ≠ []).
Proof.
  pose proof (dispatch_unsubscribe_same e h r) as Hd.
  unfold unsubscribe, dispatchEvent in *.
  unfold cleanupTauriListener.
  rewrite lookup_alter_eq in *.
  destruct (eventListeners r !! e) as [l|]; simpl in *.
  - destruct (setDelete h l) as [|x l'] eqn:Hdel; simpl.
    + destruct (decide (e ∈ tauriUnlisteners r)); simpl.
      * rewrite elem_of_difference, elem_of_singleton. intuition congruence.
      * intuition congruence.
    + intuition congruence.
  - destruct (decide (e ∈ tauriUnlisteners r)); simpl.
    + rewrite elem_of_difference, elem_of_singleton. intuition congruence.
    + intuition congruence.
Qed.

Lemma setAdd_NoDup h (l : list Handler) : NoDup l → NoDup (setAdd h l).
Proof.
  intros Hnd. unfold setAdd. case_decide; [done |].
  apply NoDup_app. split; [done |]. split; [| apply NoDup_singleton].
  intros x Hx ->%list_elem_of_singleton. done.
Qed.

Lemma setAdd_nonempty h (l : list Handler) : setAdd h l ≠ [].
Proof.
  unfold setAdd. case_decide as Hin.
  - intros ->. by apply elem_of_nil in Hin.
  - by destruct l.
Qed.

Lemma setDelete_fresh h (l : list Handler) :
  h ∉ l → setDelete h (setAdd h l) = l.
Proof.
  intros Hout. unfold setAdd, setDelete. rewrite decide_False by done.
  rewrite filter_app, filter_cons, filter_nil.
  rewrite decide_False by (intros H; by apply H).
  rewrite app_nil_r. apply filter_keeps_all. intros x Hx ->. done.
Qed.

Lemma emptyRegistry_wellFormed : wellFormed emptyRegistry.
Proof.
  intros e. unfold dispatchEvent. simpl. rewrite lookup_empty. simpl.
  split; [| constructor]. split; [by intros ?%elem_of_empty | done].
Qed.

Lemma perform_wellFormed r o : wellFormed r → wellFormed (perform r o).
Proof.
  intros Hwf e'. destruct (Hwf e') as [Hreg Hnd].
  destruct o as [e h|e h]; simpl.
  - rewrite tauri_onEvent.
    destruct (decide (e' = e)) as [->|Hne].
    + rewrite dispatch_onEvent_same. split.
      * split; [intros _; apply setAdd_nonempty | by left].
      * by apply setAdd_NoDup.
    + rewrite dispatch_onEvent_other by done. split; [| done].
      rewrite <- Hreg. intuition congruence.
  - rewrite tauri_unsubscribe.
    destruct (decide (e' = e)) as [->|Hne].
    + rewrite dispatch_unsubscribe_same. split.
      * split; [intuition congruence |]. intros Hrest. split; [| done].
        apply Hreg. intros Hempty. rewrite Hempty in Hrest. done.
      * unfold setDelete. by apply NoDup_filter.
    + rewrite dispatch_unsubscribe_other by done. split; [| done].
      rewrite <- Hreg. intuition congruence.
Qed.

End RpcClientFacts.

(** X25: after any sequence of subscriptions and unsubscriptions, starting
    with nothing registered, the native listener of an event is registered
    exactly when the event has at least one handler, and [dispatchEvent]
    calls no handler twice. *)
Theorem native_listener_iff_handlers (ops : list RpcClient.Op)
    (e : RpcClient.EventName) :
  (e ∈ RpcClient.tauriUnlisteners
         (foldl RpcClient.perform RpcClient.emptyRegistry ops)
   ↔ RpcClient.dispatchEvent e
       (foldl RpcClient.perform RpcClient.emptyRegistry ops) ≠ [])
  ∧ NoDup (RpcClient.dispatchEvent e
             (foldl RpcClient.perform RpcClient.emptyRegistry ops)).
Proof.
  assert (Hwf : RpcClient.wellFormed
                  (foldl RpcClient.perform RpcClient.emptyRegistry ops)).
  { induction ops as [|o ops IH] using rev_ind.
    - apply emptyRegistry_wellFormed.
    - rewrite foldl_app. simpl. by apply perform_wellFormed. }
  apply Hwf.
Qed.

(** X26: once the closure returned by [onEvent] has run, [dispatchEvent]
    no longer calls that handler, however often it had been subscribed;
    the handlers of the other events, and the other handlers of the same
    event in their order, are unaffected.  Subscribing a handler that was
    not yet subscribed and unsubscribing it restores what every event
    dispatches to, and, in a registry reached as above, the native
    listeners. *)
Theorem unsubscribe_removes_handler (e : RpcClient.EventName)
    (h : RpcClient.Handler) (r : RpcClient.Registry) :
  (h ∉ RpcClient.dispatchEvent e (RpcClient.unsubscribe e h r).1)
  ∧ RpcClient.dispatchEvent e (RpcClient.unsubscribe e h r).1
    = filter (λ h', h' ≠ h) (RpcClient.dispatchEvent e r)
  ∧ (∀ e', e' ≠ e →
       RpcClient.dispatchEvent e' (RpcClient.unsubscribe e h r).1
       = RpcClient.dispatchEvent e' r)
  ∧ (h ∉ RpcClient.dispatchEvent e r →
     (∀ e', RpcClient.dispatchEvent e'
              (RpcClient.unsubscribe e h (RpcClient.onEvent e h r).1).1
            = RpcClient.dispatchEvent e' r)
     ∧ (RpcClient.wellFormed r →
        RpcClient.tauriUnlisteners
          (RpcClient.unsubscribe e h (RpcClient.onEvent e h r).1).1
        = RpcClient.tauriUnlisteners r)).
Proof.
  split; [| split; [| split]].
  - rewrite dispatch_unsubscribe_same. unfold RpcClient.setDelete.
    intros Hin. apply list_elem_of_filter in Hin as [Hne _]. done.
  - apply dispatch_unsubscribe_same.
  - intros e' Hne. by apply dispatch_unsubscribe_other.
  - intros Hfresh.
    assert (Hsame : RpcClient.dispatchEvent e
                      (RpcClient.unsubscribe e h (RpcClient.onEvent e h r).1).1
                    = RpcClient.dispatchEvent e r).
    { rewrite dispatch_unsubscribe_same, dispatch_onEvent_same.
      by apply setDelete_fresh. }
    split.
    + intros e'. destruct (decide (e' = e)) as [->|Hne]; [exact Hsame |].
      rewrite dispatch_unsubscribe_other, dispatch_onEvent_other; done.
    + intros Hwf. apply set_eq. intros e'.
      rewrite tauri_unsubscribe, tauri_onEvent, dispatch_onEvent_same.
      rewrite setDelete_fresh by done.
      destruct (Hwf e) as [Hreg _].
      destruct (decide (e' = e)) as [->|Hne]; [| intuition congruence].
      rewrite Hreg. intuition congruence.
Qed.

(** X27: however often [init] of the folder-sync store is called, only the
    first call subscribes: afterwards each of the three folder-sync events
    has the handlers it had before plus the one created by that call, once,
    and the other events have the handlers they had; starting with nothing
    registered, each folder-sync event is thus handled exactly once. *)
Theorem storeInit_subscribes_once (r : RpcClient.Registry)
    (fresh : RpcClient.Handler) (later : list RpcClient.Handler) :
  (foldl (λ st f, RpcClient.storeInit f st)
     (RpcClient.storeInit fresh (false, r)) later).1 = true
  ∧ RpcClient.dispatchEvent RpcClient.EvFolderSyncStatus
      (foldl (λ st f, RpcClient.storeInit f st)
         (RpcClient.storeInit fresh (false, r)) later).2
    = RpcClient.setAdd fresh
        (RpcClient.dispatchEvent RpcClient.EvFolderSyncStatus r)
  ∧ RpcClient.dispatchEvent RpcClient.EvFolderSyncConflict
      (foldl (λ st f, RpcClient.storeInit f st)
         (RpcClient.storeInit fresh (false, r)) later).2
    = RpcClient.setAdd (fresh + 1)%nat
        (RpcClient.dispatchEvent RpcClient.EvFolderSyncConflict r)
  ∧ RpcClient.dispatchEvent RpcClient.EvFolderSyncError
      (foldl (λ st f, RpcClient.storeInit f st)
         (RpcClient.storeInit fresh (false, r)) later).2
    = RpcClient.setAdd (fresh + 2)%nat
        (RpcClient.dispatchEvent RpcClient.EvFolderSyncError r)
  ∧ (∀ e, e ≠ RpcClient.EvFolderSyncStatus →
          e ≠ RpcClient.EvFolderSyncConflict →
          e ≠ RpcClient.EvFolderSyncError →
       RpcClient.dispatchEvent e
         (foldl (λ st f, RpcClient.storeInit f st)
            (RpcClient.storeInit fresh (false, r)) later).2
       = RpcClient.dispatchEvent e r)
  ∧ (RpcClient.dispatchEvent RpcClient.EvFolderSyncConflict
       (foldl (λ st f, RpcClient.storeInit f st)
          (RpcClient.storeInit fresh (false, RpcClient.emptyRegistry))
          later).2
     = [(fresh + 1)%nat]).
Proof.
  assert (Hfix : ∀ st, st.1 = true →
            foldl (λ st f, RpcClient.storeInit f st) st later = st).
  { induction later as [|f later IH]; intros [b r'] Hb; [done |].
    simpl in *. subst b. by apply IH. }
  rewrite !Hfix by reflexivity.
  split; [reflexivity |].
  unfold RpcClient.storeInit. cbn [snd].
  split; [| split; [| split; [| split]]].
  - rewrite !dispatch_onEvent_other by done. apply dispatch_onEvent_same.
  - rewrite dispatch_onEvent_other by done.
    rewrite dispatch_onEvent_same. f_equal.
    by rewrite dispatch_onEvent_other.
  - rewrite dispatch_onEvent_same. f_equal.
    by rewrite !dispatch_onEvent_other.
  - intros e H1 H2 H3. by rewrite !dispatch_onEvent_other.
  - rewrite dispatch_onEvent_other by done.
    rewrite dispatch_onEvent_same.
    rewrite dispatch_onEvent_other by done. reflexivity.
Qed.

(** ** The panel's progress bar *)

(** X28: the progress bar of a rule card is rendered exactly when the last
    status event for that rule said "syncing" and carried a progress with a
    positive total; a status event for another rule does not change it, and
    a rule without status entry shows none. *)
Theorem progress_bar_follows_status_event (data : FolderSyncStatusEvent)
    (s : FolderSyncStore) (rule : FolderSyncRule) :
  (id rule = se_ruleId data →
   PanelView.showProgress (onStatusEvent data s) rule
   = bool_decide (se_status data = Syncing)
     && match se_progress data with
        | Some p => bool_decide (0 < total p)
        | None => false
        end)
  ∧ (id rule ≠ se_ruleId data →
     PanelView.showProgress (onStatusEvent data s) rule
     = PanelView.showProgress s rule)
  ∧ (statuses s !! id rule = None → PanelView.showProgress s rule = false).
Proof.
  unfold PanelView.showProgress, getRuleStatus, onStatusEvent. simpl.
  split; [| split].
  - intros ->. by rewrite lookup_insert_eq.
  - intros Hne. by rewrite lookup_insert_ne.
  - intros ->. reflexivity.
Qed.

(** ** The UI store *)

Section UIStoreFacts.

Import UIStore.

Lemma act_dialogsHaveTargets (s : UIState) (a : Action) :
  dialogsHaveTargets s → dialogsHaveTargets (act s a).
Proof.
  intros [Hshare Htransfer].
  destruct a; simpl; try (split; assumption).
  - unfold openSyncEntry.
    destruct (syncEntryPreference s) as [[|]|]; split; assumption.
  - split; [| assumption]. simpl. split; [eauto | done].
  - split; [| assumption]. simpl. split; [done | by intros [? ?]].
  - split; [assumption |]. simpl. split; [eauto | done].
  - split; [assumption |]. simpl. split; [done | by intros [? ?]].
Qed.

End UIStoreFacts.

(** X29: the share dialog and the transfer dialog are open exactly while
    they have a target: this holds in the initial state and is kept by every
    action of the UI store, so it holds after any sequence of actions. *)
Theorem dialogs_open_iff_target (s : UIStore.UIState)
    (acts : list UIStore.Action) :
  UIStore.dialogsHaveTargets s →
  UIStore.dialogsHaveTargets UIStore.initialState
  ∧ UIStore.dialogsHaveTargets (foldl UIStore.act s acts).
Proof.
  intros Hs. split.
  - split; simpl; (split; [done | by intros [? ?]]).
  - induction acts as [|a acts IH] using rev_ind; [exact Hs |].
    rewrite foldl_app. simpl. by apply act_dialogsHaveTargets.
Qed.

Lemma dialogs_open_iff_target_witness :
  UIStore.dialogsHaveTargets UIStore.initialState
  ∧ UIStore.dialogsHaveTargets
      (foldl UIStore.act UIStore.initialState
         [UIStore.OpenShareDialog
            {| UIStore.share_key := "a.txt"; UIStore.share_bucket := "photos";
               UIStore.share_profileId := "profile" |};
          UIStore.OpenSyncEntry; UIStore.CloseShareDialog]).
Proof.
  assert (Hinit : UIStore.dialogsHaveTargets UIStore.initialState).
  { split; simpl; (split; [done | by intros [? ?]]). }
  split; [exact Hinit |].
  exact (proj2 (dialogs_open_iff_target UIStore.initialState _ Hinit)).
Defined.

(** X30: [openSyncEntry] opens what the remembered preference names (the
    object-sync dialog or the live folder-sync panel) and closes the
    chooser, or opens the chooser when nothing is remembered; it never
    changes the preference and never closes the dialog or the panel, and
    running it twice is the same as running it once. *)
Theorem openSyncEntry_follows_preference (s : UIStore.UIState) :
  UIStore.syncEntryPreference (UIStore.openSyncEntry s)
    = UIStore.syncEntryPreference s
  ∧ UIStore.openSyncEntry (UIStore.openSyncEntry s) = UIStore.openSyncEntry s
  ∧ (UIStore.syncEntryPreference s = Some UIStore.ObjectSync →
     UIStore.syncDialogOpen (UIStore.openSyncEntry s) = true
     ∧ UIStore.syncChooserOpen (UIStore.openSyncEntry s) = false
     ∧ UIStore.folderSyncPanelOpen (UIStore.openSyncEntry s)
       = UIStore.folderSyncPanelOpen s)
  ∧ (UIStore.syncEntryPreference s = Some UIStore.LiveFolderSync →
     UIStore.folderSyncPanelOpen (UIStore.openSyncEntry s) = true
     ∧ UIStore.syncChooserOpen (UIStore.openSyncEntry s) = false
     ∧ UIStore.syncDialogOpen (UIStore.openSyncEntry s)
       = UIStore.syncDialogOpen s)
  ∧ (UIStore.syncEntryPreference s = None →
     UIStore.syncChooserOpen (UIStore.openSyncEntry s) = true
     ∧ UIStore.syncDialogOpen (UIStore.openSyncEntry s)
       = UIStore.syncDialogOpen s
     ∧ UIStore.folderSyncPanelOpen (UIStore.openSyncEntry s)
       = UIStore.folderSyncPanelOpen s)
  ∧ (UIStore.syncDialogOpen s = true →
     UIStore.syncDialogOpen (UIStore.openSyncEntry s) = true)
  ∧ (UIStore.folderSyncPanelOpen s = true →
     UIStore.folderSyncPanelOpen (UIStore.openSyncEntry s) = true).
Proof.
  unfold UIStore.openSyncEntry.
  destruct (UIStore.syncEntryPreference s) as [[|]|] eqn:Hp; simpl;
    rewrite ?Hp; repeat split; try done; try discriminate.
Qed.
